(** * Backup and restore of the painting-business store

    A shallow embedding of the data-access layer of the application
    (the [DatabaseStorage] class of [server/storage.ts]) over the
    relational schema of [shared/schema.ts], and theorems about its
    export/import pair and the few CRUD operations the specification
    speaks about.

    Modelling conventions.
    - A table is the list of its rows in insertion order together with
      the next value of its [serial] sequence.  Ids are integers ([Z]);
      the sequences are taken not to run out.
    - Every [async] method is a function from the store to the store it
      leaves behind and either an error (a rejected promise) or a value.
    - The store enforces what the schema declares: [notNull] columns,
      column defaults, primary keys and the [references] clauses
      (PostgreSQL's default NO ACTION on delete).  The [users] table is
      not modelled: the acting user is an authenticated account, and
      its id is the id of a row of [users].
    - The ORM is taken as documented: [db.transaction] commits when its
      callback resolves and rolls back when it rejects, [insert] leaves
      out the keys that are [undefined], [update(..).set(u)] writes the
      keys of [u] that are not [undefined] and refuses a [u] without
      any.  Sequences are not rolled back.
    - A JSON object is a record whose fields are absent, [null] or hold
      a value of the column's JavaScript type: a string for [text] and
      [numeric], an integer for [integer], a boolean.  Strings are the
      byte strings the store receives (UTF-8).
    - What the JavaScript engine does with a string ([s[0]],
      [toUpperCase]) and which strings PostgreSQL reads as a [text] or
      a [numeric] value are parameters of the model (the class
      [Platform]), fixed by no definition of this file.
    - The values and the row id that a request hands to a storage
      method are sent as parameters of the statement, and the store
      refuses a statement, before it runs it, when a parameter is not a
      value of its column's type.  The rows of a backup document are
      taken as [exportData] writes them, with values of their columns'
      types: [importData] is not modelled on others. *)

From stdpp Require Import base option list gmap strings pretty sorting.
From Stdlib Require Import ZArith Lia Ascii.

Open Scope string_scope.
Open Scope list_scope.
Open Scope Z_scope.

(** ** JSON fields *)

(** A key of a JSON object: missing ([undefined]), [null], or a value. *)
Inductive Field (A : Type) : Type :=
| Absent
| Null
| Val (v : A).
Arguments Absent {A}.
Arguments Null {A}.
Arguments Val {A} v.

#[export] Instance Field_eq_dec {A} `{EqDecision A} : EqDecision (Field A).
Proof. solve_decision. Defined.

(** JavaScript truthiness of a numeric field: [undefined], [null] and
    [0] are falsy. *)
Definition truthy (f : Field Z) : bool :=
  match f with
  | Val z => negb (z =? 0)
  | _ => false
  end.

(** [Number(x)] on a numeric field; only used on truthy fields. *)
Definition Number (f : Field Z) : Z :=
  match f with
  | Val z => z
  | _ => 0
  end.

(** The JSON view of a nullable column. *)
Definition ofOption {A} (o : option A) : Field A :=
  match o with
  | Some v => Val v
  | None => Null
  end.

(** [xs || []] for a list that may be missing from the document. *)
Definition orEmpty {A} (xs : option (list A)) : list A :=
  match xs with
  | Some l => l
  | None => []
  end.

(** ** Errors *)

(** What a promise is rejected with: an error of the store (a
    violated constraint, or a parameter that is no value of its
    column's type: SQLSTATE class 22, data exception), or a JavaScript
    [Error]. *)
Inductive Err : Type :=
| NotNullViolation (table column : string)
| ForeignKeyViolation (table : string)
| UniqueViolation (table : string)
| DataException
| Error (message : string).

Definition ebind {A B} (r : Err + A) (k : A → Err + B) : Err + B :=
  match r with
  | inl e => inl e
  | inr a => k a
  end.

Notation "x <-- e ;; k" := (ebind e (fun x => k))
  (at level 100, e at next level, right associativity).

(** How an insert reads one column of the values object. *)
Definition notNull {A} (table column : string) (f : Field A) : Err + A :=
  match f with
  | Val v => inr v
  | _ => inl (NotNullViolation table column)
  end.

Definition notNullDefault {A} (table column : string) (d : A) (f : Field A)
  : Err + A :=
  match f with
  | Absent => inr d
  | Val v => inr v
  | Null => inl (NotNullViolation table column)
  end.

Definition nullable {A} (f : Field A) : option A :=
  match f with
  | Val v => Some v
  | _ => None
  end.

Definition nullableDefault {A} (d : A) (f : Field A) : option A :=
  match f with
  | Absent => Some d
  | Null => None
  | Val v => Some v
  end.

(** ** Schema: the stored rows *)

Record Customer := {
  c_id : Z;
  c_userId : Z;
  c_name : string;
  c_phone : string;
  c_address : string }.

Record Job := {
  j_id : Z;
  j_userId : Z;
  j_jobId : option string;
  j_jobName : option string;
  j_customerId : option Z;
  j_category : string;
  j_description : string;
  j_location : string;
  j_status : string;
  j_quotedAmount : string;
  j_agreedAmount : string;
  j_paidAmount : string;
  j_startDate : option string;
  j_endDate : option string }.

Record Expense := {
  e_id : Z;
  e_userId : Z;
  e_jobId : option Z;
  e_category : string;
  e_description : string;
  e_amount : string;
  e_paidAmount : string;
  e_paidFull : bool;
  e_date : string;
  e_isRequired : bool }.

Record InventoryItem := {
  i_id : Z;
  i_userId : Z;
  i_jobId : option Z;
  i_name : string;
  i_category : string;
  i_quantity : string;
  i_unit : string;
  i_costPerUnit : string;
  i_assignedToJobId : option Z }.

Record Note := {
  n_id : Z;
  n_userId : Z;
  n_type : string;
  n_section : string;
  n_referenceId : option Z;
  n_attribute : option string;
  n_content : string;
  n_createdAt : Z }.

Record TravelLog := {
  t_id : Z;
  t_userId : Z;
  t_jobId : option Z;
  t_date : string;
  t_kilometers : string;
  t_fuelCost : string }.

Record Worker := {
  w_id : Z;
  w_userId : Z;
  w_jobId : option Z;
  w_name : string;
  w_role : string;
  w_phone : option string;
  w_address : option string;
  w_documentUrl : option string;
  w_dailyWage : string;
  w_isActive : bool;
  w_rating : option Z }.

Record Attendance := {
  a_id : Z;
  a_userId : Z;
  a_workerId : option Z;
  a_jobId : option Z;
  a_date : string;
  a_status : string;
  a_extraAllowance : option string }.

Record JobImage := {
  ji_id : Z;
  ji_userId : Z;
  ji_jobId : Z;
  ji_url : string;
  ji_description : option string;
  ji_createdAt : Z }.

Record WorkerDocument := {
  wd_id : Z;
  wd_userId : Z;
  wd_workerId : Z;
  wd_url : string;
  wd_name : string;
  wd_createdAt : Z }.

Record CustomerImage := {
  ci_id : Z;
  ci_userId : Z;
  ci_customerId : Z;
  ci_url : string;
  ci_description : option string;
  ci_createdAt : Z }.

(** Every table has the serial primary key [id] and the owner column
    [user_id]. *)
Class Row (R : Type) := { rowId : R → Z; rowUser : R → Z }.

#[export] Instance Customer_Row : Row Customer := {| rowId := c_id; rowUser := c_userId |}.
#[export] Instance Job_Row : Row Job := {| rowId := j_id; rowUser := j_userId |}.
#[export] Instance Expense_Row : Row Expense := {| rowId := e_id; rowUser := e_userId |}.
#[export] Instance InventoryItem_Row : Row InventoryItem := {| rowId := i_id; rowUser := i_userId |}.
#[export] Instance Note_Row : Row Note := {| rowId := n_id; rowUser := n_userId |}.
#[export] Instance TravelLog_Row : Row TravelLog := {| rowId := t_id; rowUser := t_userId |}.
#[export] Instance Worker_Row : Row Worker := {| rowId := w_id; rowUser := w_userId |}.
#[export] Instance Attendance_Row : Row Attendance := {| rowId := a_id; rowUser := a_userId |}.
#[export] Instance JobImage_Row : Row JobImage := {| rowId := ji_id; rowUser := ji_userId |}.
#[export] Instance WorkerDocument_Row : Row WorkerDocument := {| rowId := wd_id; rowUser := wd_userId |}.
#[export] Instance CustomerImage_Row : Row CustomerImage := {| rowId := ci_id; rowUser := ci_userId |}.

(** ** The store *)

Record Table (R : Type) := { rows : list R; nextId : Z }.
Arguments rows {R} _.
Arguments nextId {R} _.

Record Store := {
  customers : Table Customer;
  jobs : Table Job;
  expenses : Table Expense;
  inventory : Table InventoryItem;
  notes : Table Note;
  travel : Table TravelLog;
  workers : Table Worker;
  attendance : Table Attendance;
  jobImages : Table JobImage;
  workerDocuments : Table WorkerDocument;
  customerImages : Table CustomerImage }.

(** A table of the store as something one can read and replace. *)
Record Lens (R : Type) := {
  tname : string;
  lget : Store → Table R;
  lset : Table R → Store → Store }.
Arguments tname {R} _.
Arguments lget {R} _ _.
Arguments lset {R} _ _ _.

Definition set_customers (x : Table Customer) (s : Store) : Store :=
  {| customers := x; jobs := jobs s; expenses := expenses s;
     inventory := inventory s; notes := notes s; travel := travel s;
     workers := workers s; attendance := attendance s;
     jobImages := jobImages s; workerDocuments := workerDocuments s;
     customerImages := customerImages s |}.

Definition set_jobs (x : Table Job) (s : Store) : Store :=
  {| customers := customers s; jobs := x; expenses := expenses s;
     inventory := inventory s; notes := notes s; travel := travel s;
     workers := workers s; attendance := attendance s;
     jobImages := jobImages s; workerDocuments := workerDocuments s;
     customerImages := customerImages s |}.

Definition set_expenses (x : Table Expense) (s : Store) : Store :=
  {| customers := customers s; jobs := jobs s; expenses := x;
     inventory := inventory s; notes := notes s; travel := travel s;
     workers := workers s; attendance := attendance s;
     jobImages := jobImages s; workerDocuments := workerDocuments s;
     customerImages := customerImages s |}.

Definition set_inventory (x : Table InventoryItem) (s : Store) : Store :=
  {| customers := customers s; jobs := jobs s; expenses := expenses s;
     inventory := x; notes := notes s; travel := travel s;
     workers := workers s; attendance := attendance s;
     jobImages := jobImages s; workerDocuments := workerDocuments s;
     customerImages := customerImages s |}.

Definition set_notes (x : Table Note) (s : Store) : Store :=
  {| customers := customers s; jobs := jobs s; expenses := expenses s;
     inventory := inventory s; notes := x; travel := travel s;
     workers := workers s; attendance := attendance s;
     jobImages := jobImages s; workerDocuments := workerDocuments s;
     customerImages := customerImages s |}.

Definition set_travel (x : Table TravelLog) (s : Store) : Store :=
  {| customers := customers s; jobs := jobs s; expenses := expenses s;
     inventory := inventory s; notes := notes s; travel := x;
     workers := workers s; attendance := attendance s;
     jobImages := jobImages s; workerDocuments := workerDocuments s;
     customerImages := customerImages s |}.

Definition set_workers (x : Table Worker) (s : Store) : Store :=
  {| customers := customers s; jobs := jobs s; expenses := expenses s;
     inventory := inventory s; notes := notes s; travel := travel s;
     workers := x; attendance := attendance s; jobImages := jobImages s;
     workerDocuments := workerDocuments s;
     customerImages := customerImages s |}.

Definition set_attendance (x : Table Attendance) (s : Store) : Store :=
  {| customers := customers s; jobs := jobs s; expenses := expenses s;
     inventory := inventory s; notes := notes s; travel := travel s;
     workers := workers s; attendance := x; jobImages := jobImages s;
     workerDocuments := workerDocuments s;
     customerImages := customerImages s |}.

Definition set_jobImages (x : Table JobImage) (s : Store) : Store :=
  {| customers := customers s; jobs := jobs s; expenses := expenses s;
     inventory := inventory s; notes := notes s; travel := travel s;
     workers := workers s; attendance := attendance s; jobImages := x;
     workerDocuments := workerDocuments s;
     customerImages := customerImages s |}.

Definition set_workerDocuments (x : Table WorkerDocument) (s : Store) : Store :=
  {| customers := customers s; jobs := jobs s; expenses := expenses s;
     inventory := inventory s; notes := notes s; travel := travel s;
     workers := workers s; attendance := attendance s;
     jobImages := jobImages s; workerDocuments := x;
     customerImages := customerImages s |}.

Definition set_customerImages (x : Table CustomerImage) (s : Store) : Store :=
  {| customers := customers s; jobs := jobs s; expenses := expenses s;
     inventory := inventory s; notes := notes s; travel := travel s;
     workers := workers s; attendance := attendance s;
     jobImages := jobImages s; workerDocuments := workerDocuments s;
     customerImages := x |}.


Definition customersT : Lens Customer :=
  {| tname := "customers"; lget := customers; lset := set_customers |}.

Definition jobsT : Lens Job :=
  {| tname := "jobs"; lget := jobs; lset := set_jobs |}.

Definition expensesT : Lens Expense :=
  {| tname := "expenses"; lget := expenses; lset := set_expenses |}.

Definition inventoryT : Lens InventoryItem :=
  {| tname := "inventory"; lget := inventory; lset := set_inventory |}.

Definition notesT : Lens Note :=
  {| tname := "notes"; lget := notes; lset := set_notes |}.

Definition travelT : Lens TravelLog :=
  {| tname := "travel"; lget := travel; lset := set_travel |}.

Definition workersT : Lens Worker :=
  {| tname := "workers"; lget := workers; lset := set_workers |}.

Definition attendanceT : Lens Attendance :=
  {| tname := "attendance"; lget := attendance; lset := set_attendance |}.

Definition jobImagesT : Lens JobImage :=
  {| tname := "job_images"; lget := jobImages; lset := set_jobImages |}.

Definition workerDocumentsT : Lens WorkerDocument :=
  {| tname := "worker_documents"; lget := workerDocuments; lset := set_workerDocuments |}.

Definition customerImagesT : Lens CustomerImage :=
  {| tname := "customer_images"; lget := customerImages; lset := set_customerImages |}.

(** ** Asynchronous store operations *)

(** An [async] method: the store it leaves behind, and a rejection or a
    value.  The store is returned on rejection too: statements that ran
    before the failing one keep their effect unless a transaction rolls
    them back. *)
Definition Db (A : Type) : Type := Store → Store * (Err + A).

Definition ret {A} (a : A) : Db A := λ s, (s, inr a).

Definition throw {A} (e : Err) : Db A := λ s, (s, inl e).

Definition bind {A B} (m : Db A) (k : A → Db B) : Db B :=
  λ s, match m s with
       | (s1, inl e) => (s1, inl e)
       | (s1, inr a) => k a s1
       end.

Notation "x <- e ;; k" := (bind e (fun x => k))
  (at level 100, e at next level, right associativity).
Notation "e ;;; k" := (bind e (fun _ => k))
  (at level 100, right associativity).

(** [for (const x of xs) body], the loop state being the objects the
    body mutates. *)
Fixpoint forOf {X St} (xs : list X) (body : X → St → Db St) (st : St)
  : Db St :=
  match xs with
  | [] => ret st
  | x :: xs' => st' <- body x st ;; forOf xs' body st'
  end.

(** [db.select().from(t).where(cond)] *)
Definition select {R} (L : Lens R) (cond : R → Prop)
    `{∀ r, Decision (cond r)} : Db (list R) :=
  λ s, (s, inr (filter cond (rows (lget L s)))).

Definition hasId {R} `{Row R} (t : Table R) (k : Z) : bool :=
  existsb (λ r, bool_decide (rowId r = k)) (rows t).

(** The target of a nullable foreign key exists. *)
Definition refOk {R} `{Row R} (t : Table R) (fk : option Z) : bool :=
  match fk with
  | None => true
  | Some k => hasId t k
  end.

(** [db.insert(t).values(v).returning()]: [values] builds the row from
    the values object and the id drawn from the sequence (the [notNull]
    columns are checked there); [fks] checks the row's foreign keys.
    The sequence advances even when the insert fails. *)
Definition insert {R} `{Row R} (L : Lens R) (fks : Store → R → bool)
    (values : Z → Err + R) : Db R :=
  λ s,
    let t := lget L s in
    let id := nextId t in
    let s1 := lset L {| rows := rows t; nextId := id + 1 |} s in
    match values id with
    | inl e => (s1, inl e)
    | inr r =>
        if hasId t (rowId r) then (s1, inl (UniqueViolation (tname L)))
        else if fks s r then
          (lset L {| rows := rows t ++ [r]; nextId := id + 1 |} s, inr r)
        else (s1, inl (ForeignKeyViolation (tname L)))
    end.

(** [db.delete(t).where(cond)]: [refd s k] tells whether some row of
    [s] references the row [k] of this table; a referenced row cannot
    be deleted, and then the statement deletes nothing. *)
Definition delete {R} `{Row R} (L : Lens R) (refd : Store → Z → bool)
    (cond : R → Prop) `{∀ r, Decision (cond r)} : Db unit :=
  λ s,
    let t := lget L s in
    let s1 := lset L {| rows := filter (λ r, ¬ cond r) (rows t);
                        nextId := nextId t |} s in
    if existsb (λ r, bool_decide (cond r) && refd s1 (rowId r)) (rows t)
    then (s, inl (ForeignKeyViolation (tname L)))
    else (s1, inr tt).

(** Every element through [f], or the first error. *)
Fixpoint emap {A B} (f : A → Err + B) (l : list A) : Err + list B :=
  match l with
  | [] => inr []
  | a :: l' => b <-- f a ;; bs <-- emap f l' ;; inr (b :: bs)
  end.

(** [db.update(t).set(u).where(cond).returning()]: the rows that match
    are replaced in place and returned; [set] writes the columns and
    checks [notNull], [fks] checks the foreign keys of the new rows.  A
    failing statement changes nothing. *)
Definition update {R} `{Row R} (L : Lens R) (fks : Store → R → bool)
    (set : R → Err + R) (cond : R → Prop) `{∀ r, Decision (cond r)}
  : Db (list R) :=
  λ s,
    let t := lget L s in
    match emap set (filter cond (rows t)) with
    | inl e => (s, inl e)
    | inr updated =>
        if forallb (fks s) updated then
          (lset L {| rows := (λ r, if decide (cond r)
                                   then match set r with
                                        | inr r' => r'
                                        | inl _ => r
                                        end
                                   else r) <$> rows t;
                     nextId := nextId t |} s,
           inr updated)
        else (s, inl (ForeignKeyViolation (tname L)))
    end.

(** Sequences are not transactional: a rollback restores the rows and
    keeps the sequence values reached. *)
Definition restore {R} (before after : Table R) : Table R :=
  {| rows := rows before; nextId := nextId after |}.

Definition rollback (before after : Store) : Store :=
  {| customers := restore (customers before) (customers after);
     jobs := restore (jobs before) (jobs after);
     expenses := restore (expenses before) (expenses after);
     inventory := restore (inventory before) (inventory after);
     notes := restore (notes before) (notes after);
     travel := restore (travel before) (travel after);
     workers := restore (workers before) (workers after);
     attendance := restore (attendance before) (attendance after);
     jobImages := restore (jobImages before) (jobImages after);
     workerDocuments :=
       restore (workerDocuments before) (workerDocuments after);
     customerImages :=
       restore (customerImages before) (customerImages after) |}.

(** [db.transaction(async (tx) => body)]: commit when the callback
    resolves, roll back and reject with the same error when it
    rejects. *)
Definition transaction {A} (body : Db A) : Db A :=
  λ s, match body s with
       | (s1, inr a) => (s1, inr a)
       | (s1, inl e) => (rollback s s1, inl e)
       end.

(** ** Referential constraints of the schema *)


(** Tables without foreign keys (other than the owner). *)
Definition noFks {R} : Store → R → bool := λ _ _, true.

Definition fkJobs (s : Store) (j : Job) : bool :=
  refOk (customers s) (j_customerId j).

Definition fkExpenses (s : Store) (e : Expense) : bool :=
  refOk (jobs s) (e_jobId e).

Definition fkInventory (s : Store) (i : InventoryItem) : bool :=
  refOk (jobs s) (i_jobId i) && refOk (jobs s) (i_assignedToJobId i).

Definition fkTravel (s : Store) (t : TravelLog) : bool :=
  refOk (jobs s) (t_jobId t).

Definition fkWorkers (s : Store) (w : Worker) : bool :=
  refOk (jobs s) (w_jobId w).

Definition fkAttendance (s : Store) (a : Attendance) : bool :=
  refOk (workers s) (a_workerId a) && refOk (jobs s) (a_jobId a).

Definition fkJobImages (s : Store) (ji : JobImage) : bool :=
  hasId (jobs s) (ji_jobId ji).

Definition fkWorkerDocuments (s : Store) (wd : WorkerDocument) : bool :=
  hasId (workers s) (wd_workerId wd).

Definition fkCustomerImages (s : Store) (ci : CustomerImage) : bool :=
  hasId (customers s) (ci_customerId ci).

(** Rows nothing references. *)
Definition unreferenced : Store → Z → bool := λ _ _, false.

(** Some job or customer photo of [s] references customer [k]. *)
Definition refdCustomer (s : Store) (k : Z) : bool :=
  existsb (λ j, bool_decide (j_customerId j = Some k)) (rows (jobs s))
  || existsb (λ ci, bool_decide (ci_customerId ci = k))
       (rows (customerImages s)).

(** Some row of [s] references job [k]. *)
Definition refdJob (s : Store) (k : Z) : bool :=
  existsb (λ e, bool_decide (e_jobId e = Some k)) (rows (expenses s))
  || existsb (λ i, bool_decide (i_jobId i = Some k)
                   || bool_decide (i_assignedToJobId i = Some k))
       (rows (inventory s))
  || existsb (λ t, bool_decide (t_jobId t = Some k)) (rows (travel s))
  || existsb (λ w, bool_decide (w_jobId w = Some k)) (rows (workers s))
  || existsb (λ a, bool_decide (a_jobId a = Some k)) (rows (attendance s))
  || existsb (λ ji, bool_decide (ji_jobId ji = k)) (rows (jobImages s)).

(** Some attendance row or worker document of [s] references worker
    [k]. *)
Definition refdWorker (s : Store) (k : Z) : bool :=
  existsb (λ a, bool_decide (a_workerId a = Some k)) (rows (attendance s))
  || existsb (λ wd, bool_decide (wd_workerId wd = k))
       (rows (workerDocuments s)).

(** ** JSON rows

    The rows of a backup document, and the objects passed to the
    storage methods: every key is optional. *)

Record CustomerJson := {
  dc_id : Field Z;
  dc_userId : Field Z;
  dc_name : Field string;
  dc_phone : Field string;
  dc_address : Field string }.

Record JobJson := {
  dj_id : Field Z;
  dj_userId : Field Z;
  dj_jobId : Field string;
  dj_jobName : Field string;
  dj_customerId : Field Z;
  dj_category : Field string;
  dj_description : Field string;
  dj_location : Field string;
  dj_status : Field string;
  dj_quotedAmount : Field string;
  dj_agreedAmount : Field string;
  dj_paidAmount : Field string;
  dj_startDate : Field string;
  dj_endDate : Field string }.

Record ExpenseJson := {
  de_id : Field Z;
  de_userId : Field Z;
  de_jobId : Field Z;
  de_category : Field string;
  de_description : Field string;
  de_amount : Field string;
  de_paidAmount : Field string;
  de_paidFull : Field bool;
  de_date : Field string;
  de_isRequired : Field bool }.

Record InventoryJson := {
  di_id : Field Z;
  di_userId : Field Z;
  di_jobId : Field Z;
  di_name : Field string;
  di_category : Field string;
  di_quantity : Field string;
  di_unit : Field string;
  di_costPerUnit : Field string;
  di_assignedToJobId : Field Z }.

Record NoteJson := {
  dn_id : Field Z;
  dn_userId : Field Z;
  dn_type : Field string;
  dn_section : Field string;
  dn_referenceId : Field Z;
  dn_attribute : Field string;
  dn_content : Field string;
  dn_createdAt : Field Z }.

Record TravelJson := {
  dt_id : Field Z;
  dt_userId : Field Z;
  dt_jobId : Field Z;
  dt_date : Field string;
  dt_kilometers : Field string;
  dt_fuelCost : Field string }.

Record WorkerJson := {
  dw_id : Field Z;
  dw_userId : Field Z;
  dw_jobId : Field Z;
  dw_name : Field string;
  dw_role : Field string;
  dw_phone : Field string;
  dw_address : Field string;
  dw_documentUrl : Field string;
  dw_dailyWage : Field string;
  dw_isActive : Field bool;
  dw_rating : Field Z }.

Record AttendanceJson := {
  da_id : Field Z;
  da_userId : Field Z;
  da_workerId : Field Z;
  da_jobId : Field Z;
  da_date : Field string;
  da_status : Field string;
  da_extraAllowance : Field string }.

Record JobImageJson := {
  dji_id : Field Z;
  dji_userId : Field Z;
  dji_jobId : Field Z;
  dji_url : Field string;
  dji_description : Field string;
  dji_createdAt : Field Z }.

Record WorkerDocumentJson := {
  dwd_id : Field Z;
  dwd_userId : Field Z;
  dwd_workerId : Field Z;
  dwd_url : Field string;
  dwd_name : Field string;
  dwd_createdAt : Field Z }.

Record CustomerImageJson := {
  dci_id : Field Z;
  dci_userId : Field Z;
  dci_customerId : Field Z;
  dci_url : Field string;
  dci_description : Field string;
  dci_createdAt : Field Z }.

(** The backup document; every list may be missing. *)
Record Document := {
  data_customers : option (list CustomerJson);
  data_jobs : option (list JobJson);
  data_expenses : option (list ExpenseJson);
  data_inventory : option (list InventoryJson);
  data_notes : option (list NoteJson);
  data_travel : option (list TravelJson);
  data_workers : option (list WorkerJson);
  data_attendance : option (list AttendanceJson);
  data_jobImages : option (list JobImageJson);
  data_workerDocuments : option (list WorkerDocumentJson);
  data_customerImages : option (list CustomerImageJson) }.

(** ** Building a row from a values object

    [xRow rest userId ... id] is the row that
    [insert(x).values({ ...rest, userId, ... })] stores under the id
    drawn from the sequence: the keys written after the spread are the
    arguments, every other column is read from [rest].  No caller
    passes [id] or [createdAt]; the [id] and [userId] keys of [rest]
    are never read. *)

Definition customerRow (rest : CustomerJson) (userId id : Z)
  : Err + Customer :=
  name <-- notNull "customers" "name" (dc_name rest) ;;
  phone <-- notNull "customers" "phone" (dc_phone rest) ;;
  address <-- notNull "customers" "address" (dc_address rest) ;;
  inr {| c_id := id; c_userId := userId; c_name := name;
         c_phone := phone; c_address := address |}.

Definition jobRow (rest : JobJson) (userId : Z) (jobId : Field string)
    (customerId : Field Z) (agreedAmount : Field string) (id : Z)
  : Err + Job :=
  category <-- notNullDefault "jobs" "category" "Interior painting"
                 (dj_category rest) ;;
  description <-- notNull "jobs" "description" (dj_description rest) ;;
  location <-- notNull "jobs" "location" (dj_location rest) ;;
  status <-- notNullDefault "jobs" "status" "quoted" (dj_status rest) ;;
  quotedAmount <-- notNull "jobs" "quoted_amount" (dj_quotedAmount rest) ;;
  agreed <-- notNullDefault "jobs" "agreed_amount" "0" agreedAmount ;;
  paidAmount <-- notNullDefault "jobs" "paid_amount" "0"
                   (dj_paidAmount rest) ;;
  inr {| j_id := id; j_userId := userId; j_jobId := nullable jobId;
         j_jobName := nullable (dj_jobName rest);
         j_customerId := nullable customerId; j_category := category;
         j_description := description; j_location := location;
         j_status := status; j_quotedAmount := quotedAmount;
         j_agreedAmount := agreed; j_paidAmount := paidAmount;
         j_startDate := nullable (dj_startDate rest);
         j_endDate := nullable (dj_endDate rest) |}.

Definition expenseRow (rest : ExpenseJson) (userId : Z) (jobId : Field Z)
    (id : Z) : Err + Expense :=
  category <-- notNull "expenses" "category" (de_category rest) ;;
  description <-- notNull "expenses" "description" (de_description rest) ;;
  amount <-- notNull "expenses" "amount" (de_amount rest) ;;
  paidAmount <-- notNullDefault "expenses" "paid_amount" "0"
                   (de_paidAmount rest) ;;
  paidFull <-- notNullDefault "expenses" "paid_full" false
                 (de_paidFull rest) ;;
  date <-- notNull "expenses" "date" (de_date rest) ;;
  isRequired <-- notNullDefault "expenses" "is_required" true
                   (de_isRequired rest) ;;
  inr {| e_id := id; e_userId := userId; e_jobId := nullable jobId;
         e_category := category; e_description := description;
         e_amount := amount; e_paidAmount := paidAmount;
         e_paidFull := paidFull; e_date := date;
         e_isRequired := isRequired |}.

Definition inventoryRow (rest : InventoryJson) (userId : Z)
    (jobId assignedToJobId : Field Z) (id : Z) : Err + InventoryItem :=
  name <-- notNull "inventory" "name" (di_name rest) ;;
  category <-- notNull "inventory" "category" (di_category rest) ;;
  quantity <-- notNull "inventory" "quantity" (di_quantity rest) ;;
  unit <-- notNull "inventory" "unit" (di_unit rest) ;;
  costPerUnit <-- notNull "inventory" "cost_per_unit"
                    (di_costPerUnit rest) ;;
  inr {| i_id := id; i_userId := userId; i_jobId := nullable jobId;
         i_name := name; i_category := category; i_quantity := quantity;
         i_unit := unit; i_costPerUnit := costPerUnit;
         i_assignedToJobId := nullable assignedToJobId |}.

(** [created_at] takes its default, the time [now] of the statement. *)
Definition noteRow (now : Z) (rest : NoteJson) (userId : Z)
    (referenceId : Field Z) (id : Z) : Err + Note :=
  type <-- notNullDefault "notes" "type" "note" (dn_type rest) ;;
  section <-- notNull "notes" "section" (dn_section rest) ;;
  content <-- notNull "notes" "content" (dn_content rest) ;;
  inr {| n_id := id; n_userId := userId; n_type := type;
         n_section := section; n_referenceId := nullable referenceId;
         n_attribute := nullable (dn_attribute rest);
         n_content := content; n_createdAt := now |}.

Definition travelRow (rest : TravelJson) (userId : Z) (jobId : Field Z)
    (id : Z) : Err + TravelLog :=
  date <-- notNull "travel" "date" (dt_date rest) ;;
  kilometers <-- notNull "travel" "kilometers" (dt_kilometers rest) ;;
  fuelCost <-- notNull "travel" "fuel_cost" (dt_fuelCost rest) ;;
  inr {| t_id := id; t_userId := userId; t_jobId := nullable jobId;
         t_date := date; t_kilometers := kilometers;
         t_fuelCost := fuelCost |}.

Definition workerRow (rest : WorkerJson) (userId : Z) (jobId : Field Z)
    (id : Z) : Err + Worker :=
  name <-- notNull "workers" "name" (dw_name rest) ;;
  role <-- notNull "workers" "role" (dw_role rest) ;;
  dailyWage <-- notNull "workers" "daily_wage" (dw_dailyWage rest) ;;
  isActive <-- notNullDefault "workers" "is_active" true
                 (dw_isActive rest) ;;
  inr {| w_id := id; w_userId := userId; w_jobId := nullable jobId;
         w_name := name; w_role := role;
         w_phone := nullable (dw_phone rest);
         w_address := nullable (dw_address rest);
         w_documentUrl := nullable (dw_documentUrl rest);
         w_dailyWage := dailyWage; w_isActive := isActive;
         w_rating := nullableDefault 0 (dw_rating rest) |}.

Definition attendanceRow (rest : AttendanceJson) (userId : Z)
    (workerId jobId : Field Z) (id : Z) : Err + Attendance :=
  date <-- notNull "attendance" "date" (da_date rest) ;;
  status <-- notNull "attendance" "status" (da_status rest) ;;
  inr {| a_id := id; a_userId := userId;
         a_workerId := nullable workerId; a_jobId := nullable jobId;
         a_date := date; a_status := status;
         a_extraAllowance :=
           nullableDefault "0" (da_extraAllowance rest) |}.

Definition jobImageRow (now : Z) (rest : JobImageJson) (userId jobId id : Z)
  : Err + JobImage :=
  url <-- notNull "job_images" "url" (dji_url rest) ;;
  inr {| ji_id := id; ji_userId := userId; ji_jobId := jobId;
         ji_url := url; ji_description := nullable (dji_description rest);
         ji_createdAt := now |}.

Definition workerDocumentRow (now : Z) (rest : WorkerDocumentJson)
    (userId workerId id : Z) : Err + WorkerDocument :=
  url <-- notNull "worker_documents" "url" (dwd_url rest) ;;
  name <-- notNull "worker_documents" "name" (dwd_name rest) ;;
  inr {| wd_id := id; wd_userId := userId; wd_workerId := workerId;
         wd_url := url; wd_name := name; wd_createdAt := now |}.

Definition customerImageRow (now : Z) (rest : CustomerImageJson)
    (userId customerId id : Z) : Err + CustomerImage :=
  url <-- notNull "customer_images" "url" (dci_url rest) ;;
  inr {| ci_id := id; ci_userId := userId; ci_customerId := customerId;
         ci_url := url; ci_description := nullable (dci_description rest);
         ci_createdAt := now |}.

(** How [update(x).set(u)] writes one column: a missing key leaves the
    column alone. *)
Definition setNotNull {A} (table column : string) (f : Field A) (old : A)
  : Err + A :=
  match f with
  | Absent => inr old
  | Val v => inr v
  | Null => inl (NotNullViolation table column)
  end.

Definition setNullable {A} (f : Field A) (old : option A) : option A :=
  match f with
  | Absent => old
  | Null => None
  | Val v => Some v
  end.

Definition absent {A} (f : Field A) : bool :=
  match f with
  | Absent => true
  | _ => false
  end.

(** The ORM refuses [set(u)] when [u] holds no value ("No values to
    set"), before anything is sent to the store. *)
Definition customerSetEmpty (updates : CustomerJson) : bool :=
  absent (dc_name updates) && absent (dc_phone updates)
  && absent (dc_address updates).

Definition jobSetEmpty (updates : JobJson) : bool :=
  absent (dj_jobId updates) && absent (dj_jobName updates)
  && absent (dj_customerId updates) && absent (dj_category updates)
  && absent (dj_description updates) && absent (dj_location updates)
  && absent (dj_status updates) && absent (dj_quotedAmount updates)
  && absent (dj_agreedAmount updates) && absent (dj_paidAmount updates)
  && absent (dj_startDate updates) && absent (dj_endDate updates).

Definition customerSet (updates : CustomerJson) (c : Customer)
  : Err + Customer :=
  name <-- setNotNull "customers" "name" (dc_name updates) (c_name c) ;;
  phone <-- setNotNull "customers" "phone" (dc_phone updates) (c_phone c) ;;
  address <-- setNotNull "customers" "address" (dc_address updates)
                (c_address c) ;;
  inr {| c_id := c_id c; c_userId := c_userId c; c_name := name;
         c_phone := phone; c_address := address |}.

Definition jobSet (updates : JobJson) (j : Job) : Err + Job :=
  category <-- setNotNull "jobs" "category" (dj_category updates)
                 (j_category j) ;;
  description <-- setNotNull "jobs" "description" (dj_description updates)
                    (j_description j) ;;
  location <-- setNotNull "jobs" "location" (dj_location updates)
                 (j_location j) ;;
  status <-- setNotNull "jobs" "status" (dj_status updates) (j_status j) ;;
  quotedAmount <-- setNotNull "jobs" "quoted_amount"
                     (dj_quotedAmount updates) (j_quotedAmount j) ;;
  agreedAmount <-- setNotNull "jobs" "agreed_amount"
                     (dj_agreedAmount updates) (j_agreedAmount j) ;;
  paidAmount <-- setNotNull "jobs" "paid_amount" (dj_paidAmount updates)
                   (j_paidAmount j) ;;
  inr {| j_id := j_id j; j_userId := j_userId j;
         j_jobId := setNullable (dj_jobId updates) (j_jobId j);
         j_jobName := setNullable (dj_jobName updates) (j_jobName j);
         j_customerId :=
           setNullable (dj_customerId updates) (j_customerId j);
         j_category := category; j_description := description;
         j_location := location; j_status := status;
         j_quotedAmount := quotedAmount; j_agreedAmount := agreedAmount;
         j_paidAmount := paidAmount;
         j_startDate := setNullable (dj_startDate updates) (j_startDate j);
         j_endDate := setNullable (dj_endDate updates) (j_endDate j) |}.

(** [set({ jobId })] *)
Definition jobSetJobId (jobId : string) (j : Job) : Err + Job :=
  inr {| j_id := j_id j; j_userId := j_userId j; j_jobId := Some jobId;
         j_jobName := j_jobName j; j_customerId := j_customerId j;
         j_category := j_category j; j_description := j_description j;
         j_location := j_location j; j_status := j_status j;
         j_quotedAmount := j_quotedAmount j;
         j_agreedAmount := j_agreedAmount j;
         j_paidAmount := j_paidAmount j; j_startDate := j_startDate j;
         j_endDate := j_endDate j |}.

Definition expenseSetEmpty (updates : ExpenseJson) : bool :=
  absent (de_jobId updates) && absent (de_category updates)
  && absent (de_description updates) && absent (de_amount updates)
  && absent (de_paidAmount updates) && absent (de_paidFull updates)
  && absent (de_date updates) && absent (de_isRequired updates).

Definition expenseSet (updates : ExpenseJson) (e : Expense) : Err + Expense :=
  category <-- setNotNull "expenses" "category" (de_category updates)
                 (e_category e) ;;
  description <-- setNotNull "expenses" "description"
                    (de_description updates) (e_description e) ;;
  amount <-- setNotNull "expenses" "amount" (de_amount updates)
               (e_amount e) ;;
  paidAmount <-- setNotNull "expenses" "paid_amount" (de_paidAmount updates)
                   (e_paidAmount e) ;;
  paidFull <-- setNotNull "expenses" "paid_full" (de_paidFull updates)
                 (e_paidFull e) ;;
  date <-- setNotNull "expenses" "date" (de_date updates) (e_date e) ;;
  isRequired <-- setNotNull "expenses" "is_required" (de_isRequired updates)
                   (e_isRequired e) ;;
  inr {| e_id := e_id e; e_userId := e_userId e;
         e_jobId := setNullable (de_jobId updates) (e_jobId e);
         e_category := category; e_description := description;
         e_amount := amount; e_paidAmount := paidAmount;
         e_paidFull := paidFull; e_date := date;
         e_isRequired := isRequired |}.

Definition inventorySetEmpty (updates : InventoryJson) : bool :=
  absent (di_jobId updates) && absent (di_name updates)
  && absent (di_category updates) && absent (di_quantity updates)
  && absent (di_unit updates) && absent (di_costPerUnit updates)
  && absent (di_assignedToJobId updates).

Definition inventorySet (updates : InventoryJson) (i : InventoryItem)
  : Err + InventoryItem :=
  name <-- setNotNull "inventory" "name" (di_name updates) (i_name i) ;;
  category <-- setNotNull "inventory" "category" (di_category updates)
                 (i_category i) ;;
  quantity <-- setNotNull "inventory" "quantity" (di_quantity updates)
                 (i_quantity i) ;;
  unit <-- setNotNull "inventory" "unit" (di_unit updates) (i_unit i) ;;
  costPerUnit <-- setNotNull "inventory" "cost_per_unit"
                    (di_costPerUnit updates) (i_costPerUnit i) ;;
  inr {| i_id := i_id i; i_userId := i_userId i;
         i_jobId := setNullable (di_jobId updates) (i_jobId i);
         i_name := name; i_category := category; i_quantity := quantity;
         i_unit := unit; i_costPerUnit := costPerUnit;
         i_assignedToJobId :=
           setNullable (di_assignedToJobId updates) (i_assignedToJobId i) |}.

Definition noteSetEmpty (updates : NoteJson) : bool :=
  absent (dn_type updates) && absent (dn_section updates)
  && absent (dn_referenceId updates) && absent (dn_attribute updates)
  && absent (dn_content updates).

Definition noteSet (updates : NoteJson) (n : Note) : Err + Note :=
  type <-- setNotNull "notes" "type" (dn_type updates) (n_type n) ;;
  section <-- setNotNull "notes" "section" (dn_section updates)
                (n_section n) ;;
  content <-- setNotNull "notes" "content" (dn_content updates)
                (n_content n) ;;
  inr {| n_id := n_id n; n_userId := n_userId n; n_type := type;
         n_section := section;
         n_referenceId :=
           setNullable (dn_referenceId updates) (n_referenceId n);
         n_attribute := setNullable (dn_attribute updates) (n_attribute n);
         n_content := content; n_createdAt := n_createdAt n |}.

Definition workerSetEmpty (updates : WorkerJson) : bool :=
  absent (dw_jobId updates) && absent (dw_name updates)
  && absent (dw_role updates) && absent (dw_phone updates)
  && absent (dw_address updates) && absent (dw_documentUrl updates)
  && absent (dw_dailyWage updates) && absent (dw_isActive updates)
  && absent (dw_rating updates).

Definition workerSet (updates : WorkerJson) (w : Worker) : Err + Worker :=
  name <-- setNotNull "workers" "name" (dw_name updates) (w_name w) ;;
  role <-- setNotNull "workers" "role" (dw_role updates) (w_role w) ;;
  dailyWage <-- setNotNull "workers" "daily_wage" (dw_dailyWage updates)
                  (w_dailyWage w) ;;
  isActive <-- setNotNull "workers" "is_active" (dw_isActive updates)
                 (w_isActive w) ;;
  inr {| w_id := w_id w; w_userId := w_userId w;
         w_jobId := setNullable (dw_jobId updates) (w_jobId w);
         w_name := name; w_role := role;
         w_phone := setNullable (dw_phone updates) (w_phone w);
         w_address := setNullable (dw_address updates) (w_address w);
         w_documentUrl :=
           setNullable (dw_documentUrl updates) (w_documentUrl w);
         w_dailyWage := dailyWage; w_isActive := isActive;
         w_rating := setNullable (dw_rating updates) (w_rating w) |}.

(** ** The platform

    What the model takes from the JavaScript engine and from
    PostgreSQL without defining it.  Strings are kept as the store
    receives them, so the engine's functions are functions on such
    strings. *)
Class Platform := {
  (** [s[0]]: the string made of the first UTF-16 code unit of [s];
      [undefined] when [s] is empty. *)
  charAt0 : string → option string;
  (** [s.toUpperCase()] *)
  toUpperCase : string → string;
  (** PostgreSQL reads the string as a value of type [text]. *)
  textIn : string → bool;
  (** PostgreSQL reads the string as a value of type [numeric]. *)
  numericIn : string → bool }.

(** PostgreSQL reads the integer as a value of type [integer]: 32
    bits. *)
Definition int4 (z : Z) : bool :=
  (-2147483648 <=? z) && (z <=? 2147483647).

(** ** Bound parameters

    The values of a statement are sent as its parameters, [undefined]
    keys left out, and the store reads every parameter as a value of
    its column's type before it runs the statement. *)

(** The store reads the key, when the key holds a value. *)
Definition sent {A} (reads : A → bool) (f : Field A) : bool :=
  match f with
  | Val v => reads v
  | _ => true
  end.

(** A statement with parameters: when the store does not read them
    all, it refuses the statement and runs nothing of it. *)
Definition bound {A} (parameters : bool) (statement : Db A) : Db A :=
  if parameters then statement else throw DataException.

(** The parameters of a values object, table by table; the arguments
    are those of the row builders. *)
Definition customerParams {platform : Platform} (rest : CustomerJson) : bool :=
  sent textIn (dc_name rest) && sent textIn (dc_phone rest)
  && sent textIn (dc_address rest).

Definition jobParams {platform : Platform} (rest : JobJson) (jobId : Field string)
    (customerId : Field Z) (agreedAmount : Field string) : bool :=
  sent textIn jobId && sent textIn (dj_jobName rest)
  && sent int4 customerId && sent textIn (dj_category rest)
  && sent textIn (dj_description rest) && sent textIn (dj_location rest)
  && sent textIn (dj_status rest) && sent numericIn (dj_quotedAmount rest)
  && sent numericIn agreedAmount && sent numericIn (dj_paidAmount rest)
  && sent textIn (dj_startDate rest) && sent textIn (dj_endDate rest).

Definition expenseParams {platform : Platform} (rest : ExpenseJson) (jobId : Field Z)
  : bool :=
  sent int4 jobId && sent textIn (de_category rest)
  && sent textIn (de_description rest) && sent numericIn (de_amount rest)
  && sent numericIn (de_paidAmount rest) && sent textIn (de_date rest).

Definition inventoryParams {platform : Platform} (rest : InventoryJson)
    (jobId assignedToJobId : Field Z) : bool :=
  sent int4 jobId && sent textIn (di_name rest)
  && sent textIn (di_category rest) && sent numericIn (di_quantity rest)
  && sent textIn (di_unit rest) && sent numericIn (di_costPerUnit rest)
  && sent int4 assignedToJobId.

Definition noteParams {platform : Platform} (rest : NoteJson) (referenceId : Field Z)
  : bool :=
  sent textIn (dn_type rest) && sent textIn (dn_section rest)
  && sent int4 referenceId && sent textIn (dn_attribute rest)
  && sent textIn (dn_content rest).

Definition travelParams {platform : Platform} (rest : TravelJson) (jobId : Field Z)
  : bool :=
  sent int4 jobId && sent textIn (dt_date rest)
  && sent numericIn (dt_kilometers rest)
  && sent numericIn (dt_fuelCost rest).

Definition workerParams {platform : Platform} (rest : WorkerJson) (jobId : Field Z)
  : bool :=
  sent int4 jobId && sent textIn (dw_name rest) && sent textIn (dw_role rest)
  && sent textIn (dw_phone rest) && sent textIn (dw_address rest)
  && sent textIn (dw_documentUrl rest)
  && sent numericIn (dw_dailyWage rest) && sent int4 (dw_rating rest).

Definition attendanceParams {platform : Platform} (rest : AttendanceJson)
    (workerId jobId : Field Z) : bool :=
  sent int4 workerId && sent int4 jobId && sent textIn (da_date rest)
  && sent textIn (da_status rest)
  && sent numericIn (da_extraAllowance rest).

Definition jobImageParams {platform : Platform} (rest : JobImageJson)
    (jobId : Field Z) : bool :=
  sent int4 jobId && sent textIn (dji_url rest)
  && sent textIn (dji_description rest).

Definition workerDocumentParams {platform : Platform} (rest : WorkerDocumentJson)
    (workerId : Field Z) : bool :=
  sent int4 workerId && sent textIn (dwd_url rest)
  && sent textIn (dwd_name rest).

Definition customerImageParams {platform : Platform} (rest : CustomerImageJson)
    (customerId : Field Z) : bool :=
  sent int4 customerId && sent textIn (dci_url rest)
  && sent textIn (dci_description rest).

(** ** JavaScript strings and dates *)

(** [String(n)] for an integer. *)
Definition String_ (n : Z) : string := pretty n.

Fixpoint repeatChar (n : nat) (c : ascii) : string :=
  match n with
  | O => EmptyString
  | S n' => String c (repeatChar n' c)
  end.

(** [s.padStart(n, c)] *)
Definition padStart (n : nat) (c : ascii) (s : string) : string :=
  (repeatChar (n - String.length s) c ++ s)%string.

(** [a || b] on string fields: [undefined], [null] and the empty string
    are falsy. *)
Definition orField (a b : Field string) : Field string :=
  match a with
  | Val (String _ _) => a
  | _ => b
  end.

(** [x?.[0] || d] on a string field. *)
Definition firstOr {platform : Platform} (d : string) (x : Field string) : string :=
  match x with
  | Val s =>
      match charAt0 s with
      | Some (String c u) => String c u
      | _ => d
      end
  | _ => d
  end.

(** A string field inside a template literal. *)
Definition template (f : Field string) : string :=
  match f with
  | Val v => v
  | Null => "null"
  | Absent => "undefined"
  end.

(** [trim]: the strings it is applied to begin with a letter and end
    with a full stop and one space. *)
Definition whiteSpace (c : ascii) : bool :=
  let n := Ascii.nat_of_ascii c in
  ((n =? 32) || ((9 <=? n) && (n <=? 13)))%nat.

Fixpoint trimStart (s : string) : string :=
  match s with
  | String c s' => if whiteSpace c then trimStart s' else s
  | EmptyString => EmptyString
  end.

Fixpoint trimEnd (s : string) : string :=
  match s with
  | String c s' =>
      match trimEnd s' with
      | EmptyString => if whiteSpace c then EmptyString
                       else String c EmptyString
      | t => String c t
      end
  | EmptyString => EmptyString
  end.

Definition trim (s : string) : string := trimEnd (trimStart s).

(** What [createJob] reads of [new Date()]. *)
Record Date := { getDate : Z; getMonth : Z; getFullYear : Z }.

(** ** The storage methods

    A row id comes from the request, as the values do: the statement
    that filters on it is bound to it. *)

(** *** Customers *)

Definition getCustomers (userId : Z) : Db (list Customer) :=
  select customersT (λ c, c_userId c = userId).

Definition getCustomer (id userId : Z) : Db (option Customer) :=
  rs <- bound (int4 id)
          (select customersT (λ c, c_id c = id ∧ c_userId c = userId)) ;;
  ret (head rs).

Definition createCustomer {platform : Platform} (insertCustomer : CustomerJson)
    (userId : Z) : Db Customer :=
  bound (customerParams insertCustomer)
    (insert customersT noFks (customerRow insertCustomer userId)).

Definition updateCustomer {platform : Platform} (id userId : Z)
    (updates : CustomerJson) : Db Customer :=
  if customerSetEmpty updates then throw (Error "No values to set")
  else
    rs <- bound (int4 id && customerParams updates)
            (update customersT noFks (customerSet updates)
               (λ c, c_id c = id ∧ c_userId c = userId)) ;;
    match rs with
    | updated :: _ => ret updated
    | [] => throw (Error "Customer not found")
    end.

Definition deleteCustomer (id userId : Z) : Db unit :=
  bound (int4 id)
    (delete customersT refdCustomer
       (λ c, c_id c = id ∧ c_userId c = userId)).

(** *** Jobs *)

Definition getJobs (userId : Z) : Db (list Job) :=
  select jobsT (λ j, j_userId j = userId).

Definition getJob (id userId : Z) : Db (option Job) :=
  rs <- bound (int4 id)
          (select jobsT (λ j, j_id j = id ∧ j_userId j = userId)) ;;
  ret (head rs).

(** The job code: N (the owner's job count) + C (category initial) +
    D (DDMMYYYY). *)
Definition jobCode (jobNumber : Z) (categoryInitial : string) (now : Date)
  : string :=
  let day := padStart 2 "0" (String_ (getDate now)) in
  let month := padStart 2 "0" (String_ (getMonth now + 1)) in
  let year := String_ (getFullYear now) in
  (String_ jobNumber ++ categoryInitial ++ day ++ month ++ year)%string.

Definition categoryInitial {platform : Platform} (insertJob : JobJson) : string :=
  toUpperCase (firstOr "X" (dj_category insertJob)).

Definition createJob {platform : Platform} (now : Date) (insertJob : JobJson)
    (userId : Z) : Db (option Job) :=
  existingJobs <- select jobsT (λ j, j_userId j = userId) ;;
  let jobNumber := Z.of_nat (length existingJobs) + 1 in
  let agreedAmount :=
    orField (dj_agreedAmount insertJob) (dj_quotedAmount insertJob) in
  job <- bound (jobParams insertJob (dj_jobId insertJob)
                  (dj_customerId insertJob) agreedAmount)
           (insert jobsT fkJobs
              (jobRow insertJob userId (dj_jobId insertJob)
                 (dj_customerId insertJob) agreedAmount)) ;;
  let jobId := jobCode jobNumber (categoryInitial insertJob) now in
  rs <- bound (textIn jobId)
          (update jobsT fkJobs (jobSetJobId jobId)
             (λ j, j_id j = j_id job)) ;;
  ret (head rs).

Definition updateJob {platform : Platform} (id userId : Z) (updates : JobJson)
  : Db Job :=
  if jobSetEmpty updates then throw (Error "No values to set")
  else
    rs <- bound (int4 id
                 && jobParams updates (dj_jobId updates)
                      (dj_customerId updates) (dj_agreedAmount updates))
            (update jobsT fkJobs (jobSet updates)
               (λ j, j_id j = id ∧ j_userId j = userId)) ;;
    match rs with
    | updated :: _ => ret updated
    | [] => throw (Error "Job not found")
    end.

Definition deleteJob (id userId : Z) : Db unit :=
  bound (int4 id)
    (delete jobsT refdJob (λ j, j_id j = id ∧ j_userId j = userId)).

(** *** Expenses *)

Definition getExpenses (userId : Z) : Db (list Expense) :=
  select expensesT (λ e, e_userId e = userId).

Definition createExpense {platform : Platform} (insertExpense : ExpenseJson)
    (userId : Z) : Db Expense :=
  bound (expenseParams insertExpense (de_jobId insertExpense))
    (insert expensesT fkExpenses
       (expenseRow insertExpense userId (de_jobId insertExpense))).

Definition updateExpense {platform : Platform} (id userId : Z)
    (updates : ExpenseJson) : Db Expense :=
  if expenseSetEmpty updates then throw (Error "No values to set")
  else
    rs <- bound (int4 id && expenseParams updates (de_jobId updates))
            (update expensesT fkExpenses (expenseSet updates)
               (λ e, e_id e = id ∧ e_userId e = userId)) ;;
    match rs with
    | updated :: _ => ret updated
    | [] => throw (Error "Expense not found")
    end.

Definition deleteExpense (id userId : Z) : Db unit :=
  bound (int4 id)
    (delete expensesT unreferenced
       (λ e, e_id e = id ∧ e_userId e = userId)).

(** *** Notes *)

(** [orderBy(desc(notes.createdAt))]; the store leaves the order of
    notes of the same time open, the model takes the one of a merge
    sort. *)
Definition newerFirst (n m : Note) : Prop := n_createdAt m ≤ n_createdAt n.

#[export] Instance newerFirst_dec n m : Decision (newerFirst n m).
Proof. unfold newerFirst. apply _. Defined.

Definition getNotes (userId : Z) : Db (list Note) :=
  rs <- select notesT (λ n, n_userId n = userId) ;;
  ret (merge_sort newerFirst rs).

Definition createNote {platform : Platform} (now : Z) (insertNote : NoteJson)
    (userId : Z) : Db Note :=
  bound (noteParams insertNote (dn_referenceId insertNote))
    (insert notesT noFks
       (noteRow now insertNote userId (dn_referenceId insertNote))).

Definition deleteNote (id userId : Z) : Db unit :=
  bound (int4 id)
    (delete notesT unreferenced (λ n, n_id n = id ∧ n_userId n = userId)).

Definition updateNote {platform : Platform} (id userId : Z) (updates : NoteJson)
  : Db Note :=
  if noteSetEmpty updates then throw (Error "No values to set")
  else
    rs <- bound (int4 id && noteParams updates (dn_referenceId updates))
            (update notesT noFks (noteSet updates)
               (λ n, n_id n = id ∧ n_userId n = userId)) ;;
    match rs with
    | updated :: _ => ret updated
    | [] => throw (Error "Note not found")
    end.

(** *** Inventory *)

Definition getInventory (userId : Z) : Db (list InventoryItem) :=
  select inventoryT (λ i, i_userId i = userId).

(** [x ? `Job #${x}` : "General Inventory"] *)
Definition jobLabel (assignedToJobId : option Z) : string :=
  match assignedToJobId with
  | Some k => if k =? 0 then "General Inventory"
              else ("Job #" ++ String_ k)%string
  | None => "General Inventory"
  end.

(** The log entry [createInventory] writes for a new item. *)
Definition assignmentLog (item : InventoryItem) : NoteJson :=
  let target := jobLabel (i_assignedToJobId item) in
  {| dn_id := Absent; dn_userId := Absent; dn_type := Val "log";
     dn_section := Val "inventory"; dn_referenceId := Val (i_id item);
     dn_attribute := Val "reassignment";
     dn_content :=
       Val ("Initial assignment of " ++ i_name item ++ " ("
            ++ i_quantity item ++ " " ++ i_unit item ++ ") to "
            ++ target)%string;
     dn_createdAt := Absent |}.

Definition createInventory {platform : Platform} (now : Z) (insertItem : InventoryJson)
    (userId : Z) : Db InventoryItem :=
  item <- bound (inventoryParams insertItem (di_jobId insertItem)
                   (di_assignedToJobId insertItem))
            (insert inventoryT fkInventory
               (inventoryRow insertItem userId (di_jobId insertItem)
                  (di_assignedToJobId insertItem))) ;;
  createNote now (assignmentLog item) userId ;;;
  ret item.

(** [updates.k !== undefined && updates.k !== existing.k] *)
Definition changed {A} `{EqDecision A} (f : Field A) (old : option A)
  : bool :=
  match f with
  | Absent => false
  | Null => bool_decide (old ≠ None)
  | Val v => bool_decide (old ≠ Some v)
  end.

(** The character that encloses the item's name in the log. *)
Definition doubleQuote : string :=
  String (Ascii.ascii_of_nat 34) EmptyString.

(** The log entry [updateInventory] writes, if it writes one. *)
Definition updateLog (id : Z) (existing : InventoryItem)
    (updates : InventoryJson) : option NoteJson :=
  let reassigned :=
    changed (di_assignedToJobId updates) (i_assignedToJobId existing) in
  let recounted :=
    changed (di_quantity updates) (Some (i_quantity existing)) in
  if reassigned || recounted then
    let logContent :=
      ("Inventory item " ++ doubleQuote ++ i_name existing ++ doubleQuote
       ++ " updated: ")%string in
    let logContent :=
      if reassigned then
        (logContent ++ "Reassigned from "
         ++ jobLabel (i_assignedToJobId existing) ++ " to "
         ++ jobLabel (nullable (di_assignedToJobId updates)) ++ ". ")%string
      else logContent in
    let logContent :=
      if recounted then
        (logContent ++ "Quantity changed from " ++ i_quantity existing
         ++ " to " ++ template (di_quantity updates) ++ ". ")%string
      else logContent in
    Some {| dn_id := Absent; dn_userId := Absent; dn_type := Val "log";
            dn_section := Val "inventory"; dn_referenceId := Val id;
            dn_attribute := Val "reassignment";
            dn_content := Val (trim logContent); dn_createdAt := Absent |}
  else None.

Definition updateInventory {platform : Platform} (now : Z) (id userId : Z)
    (updates : InventoryJson) : Db (option InventoryItem) :=
  found <- bound (int4 id)
             (select inventoryT
                (λ i, i_id i = id ∧ i_userId i = userId)) ;;
  match found with
  | [] => throw (Error "Inventory item not found")
  | existing :: _ =>
      match updateLog id existing updates with
      | Some log => createNote now log userId ;;; ret tt
      | None => ret tt
      end ;;;
      if inventorySetEmpty updates then throw (Error "No values to set")
      else
        rs <- bound (int4 id
                     && inventoryParams updates (di_jobId updates)
                          (di_assignedToJobId updates))
                (update inventoryT fkInventory (inventorySet updates)
                   (λ i, i_id i = id ∧ i_userId i = userId)) ;;
        ret (head rs)
  end.

Definition deleteInventory (id userId : Z) : Db unit :=
  bound (int4 id)
    (delete inventoryT unreferenced
       (λ i, i_id i = id ∧ i_userId i = userId)).

(** *** Travel *)

Definition getTravelLogs (userId : Z) : Db (list TravelLog) :=
  select travelT (λ t, t_userId t = userId).

Definition createTravelLog {platform : Platform} (insertLog : TravelJson) (userId : Z)
  : Db TravelLog :=
  bound (travelParams insertLog (dt_jobId insertLog))
    (insert travelT fkTravel
       (travelRow insertLog userId (dt_jobId insertLog))).

Definition deleteTravelLog (id userId : Z) : Db unit :=
  bound (int4 id)
    (delete travelT unreferenced
       (λ t, t_id t = id ∧ t_userId t = userId)).

(** *** Workers *)

Definition getWorkers (userId : Z) : Db (list Worker) :=
  select workersT (λ w, w_userId w = userId).

Definition getWorker (id userId : Z) : Db (option Worker) :=
  rs <- bound (int4 id)
          (select workersT (λ w, w_id w = id ∧ w_userId w = userId)) ;;
  ret (head rs).

(** [x ?? 0] *)
Definition orZero (f : Field Z) : Field Z :=
  match f with
  | Val v => Val v
  | _ => Val 0
  end.

(** [{ ...insertWorker, rating }] *)
Definition withRating (rating : Field Z) (w : WorkerJson) : WorkerJson :=
  {| dw_id := dw_id w; dw_userId := dw_userId w; dw_jobId := dw_jobId w;
     dw_name := dw_name w; dw_role := dw_role w; dw_phone := dw_phone w;
     dw_address := dw_address w; dw_documentUrl := dw_documentUrl w;
     dw_dailyWage := dw_dailyWage w; dw_isActive := dw_isActive w;
     dw_rating := rating |}.

(** The workers of [userId] called [name]: no row matches a missing or
    [null] name. *)
Definition named (name : Field string) (userId : Z) (w : Worker) : Prop :=
  Val (w_name w) = name ∧ w_userId w = userId.

#[export] Instance named_dec name userId w : Decision (named name userId w).
Proof. unfold named. apply _. Defined.

Definition createWorker {platform : Platform} (insertWorker : WorkerJson) (userId : Z)
  : Db Worker :=
  found <- bound (sent textIn (dw_name insertWorker))
             (select workersT (named (dw_name insertWorker) userId)) ;;
  match found with
  | _ :: _ => throw (Error "Worker name already exists")
  | [] =>
      let values := withRating (orZero (dw_rating insertWorker)) insertWorker in
      bound (workerParams values (dw_jobId values))
        (insert workersT fkWorkers (workerRow values userId (dw_jobId values)))
  end.

(** [if (updates.name)]: a missing, [null] or empty name is falsy. *)
Definition truthyString (f : Field string) : bool :=
  match f with
  | Val (String _ _) => true
  | _ => false
  end.

Definition updateWorker {platform : Platform} (id userId : Z) (updates : WorkerJson)
  : Db Worker :=
  (if truthyString (dw_name updates) then
     found <- bound (sent textIn (dw_name updates))
                (select workersT (named (dw_name updates) userId)) ;;
     match found with
     | existing :: _ =>
         if bool_decide (w_id existing ≠ id)
         then throw (Error "Worker name already exists")
         else ret tt
     | [] => ret tt
     end
   else ret tt) ;;;
  if workerSetEmpty updates then throw (Error "No values to set")
  else
    rs <- bound (int4 id && workerParams updates (dw_jobId updates))
            (update workersT fkWorkers (workerSet updates)
               (λ w, w_id w = id ∧ w_userId w = userId)) ;;
    match rs with
    | updated :: _ => ret updated
    | [] => throw (Error "Worker not found")
    end.

Definition deleteWorker (id userId : Z) : Db unit :=
  bound (int4 id)
    (delete workersT refdWorker (λ w, w_id w = id ∧ w_userId w = userId)).

(** *** Attendance *)

Definition getAttendance (userId : Z) : Db (list Attendance) :=
  select attendanceT (λ a, a_userId a = userId).

Definition createAttendance {platform : Platform} (insertAttendance : AttendanceJson)
    (userId : Z) : Db Attendance :=
  bound (attendanceParams insertAttendance (da_workerId insertAttendance)
           (da_jobId insertAttendance))
    (insert attendanceT fkAttendance
       (attendanceRow insertAttendance userId
          (da_workerId insertAttendance) (da_jobId insertAttendance))).

(** *** Photos and documents *)

(** [if (jobId)]: without a job id, or with the id [0], all photos of
    the owner. *)
Definition getJobImages (userId : Z) (jobId : option Z)
  : Db (list JobImage) :=
  let all := select jobImagesT (λ ji, ji_userId ji = userId) in
  match jobId with
  | Some k =>
      if k =? 0 then all
      else bound (int4 k)
             (select jobImagesT
                (λ ji, ji_userId ji = userId ∧ ji_jobId ji = k))
  | None => all
  end.

Definition createJobImage {platform : Platform} (now : Z) (insertImage : JobImageJson)
    (userId : Z) : Db JobImage :=
  bound (jobImageParams insertImage (dji_jobId insertImage))
    (insert jobImagesT fkJobImages
       (λ id, jobId <-- notNull "job_images" "job_id"
                          (dji_jobId insertImage) ;;
              jobImageRow now insertImage userId jobId id)).

Definition deleteJobImage (id userId : Z) : Db unit :=
  bound (int4 id)
    (delete jobImagesT unreferenced
       (λ ji, ji_id ji = id ∧ ji_userId ji = userId)).

Definition getWorkerDocuments (userId workerId : Z)
  : Db (list WorkerDocument) :=
  bound (int4 workerId)
    (select workerDocumentsT
       (λ wd, wd_userId wd = userId ∧ wd_workerId wd = workerId)).

Definition createWorkerDocument {platform : Platform} (now : Z)
    (doc : WorkerDocumentJson) (userId : Z) : Db WorkerDocument :=
  bound (workerDocumentParams doc (dwd_workerId doc))
    (insert workerDocumentsT fkWorkerDocuments
       (λ id, workerId <-- notNull "worker_documents" "worker_id"
                             (dwd_workerId doc) ;;
              workerDocumentRow now doc userId workerId id)).

Definition deleteWorkerDocument (id userId : Z) : Db unit :=
  bound (int4 id)
    (delete workerDocumentsT unreferenced
       (λ wd, wd_id wd = id ∧ wd_userId wd = userId)).

Definition getCustomerImages (userId customerId : Z)
  : Db (list CustomerImage) :=
  bound (int4 customerId)
    (select customerImagesT
       (λ ci, ci_userId ci = userId ∧ ci_customerId ci = customerId)).

Definition createCustomerImage {platform : Platform} (now : Z)
    (image : CustomerImageJson) (userId : Z) : Db CustomerImage :=
  bound (customerImageParams image (dci_customerId image))
    (insert customerImagesT fkCustomerImages
       (λ id, customerId <-- notNull "customer_images" "customer_id"
                               (dci_customerId image) ;;
              customerImageRow now image userId customerId id)).

Definition deleteCustomerImage (id userId : Z) : Db unit :=
  bound (int4 id)
    (delete customerImagesT unreferenced
       (λ ci, ci_id ci = id ∧ ci_userId ci = userId)).

(** The earlier revision of [createJob] builds the code from the
    primary key instead of the owner's job count. *)
Module Earlier.

Definition jobCode (id : Z) (categoryInitial : string) (now : Date)
  : string :=
  let day := padStart 2 "0" (String_ (getDate now)) in
  let month := padStart 2 "0" (String_ (getMonth now + 1)) in
  let year := String_ (getFullYear now) in
  ("#" ++ String_ id ++ categoryInitial ++ day ++ month ++ year)%string.

Definition createJob {platform : Platform} (now : Date) (insertJob : JobJson)
    (userId : Z) : Db (option Job) :=
  let agreedAmount :=
    orField (dj_agreedAmount insertJob) (dj_quotedAmount insertJob) in
  job <- bound (jobParams insertJob (dj_jobId insertJob)
                  (dj_customerId insertJob) agreedAmount)
           (insert jobsT fkJobs
              (jobRow insertJob userId (dj_jobId insertJob)
                 (dj_customerId insertJob) agreedAmount)) ;;
  let jobId := jobCode (j_id job) (categoryInitial insertJob) now in
  rs <- bound (textIn jobId)
          (update jobsT fkJobs (jobSetJobId jobId)
             (λ j, j_id j = j_id job)) ;;
  ret (head rs).

End Earlier.

(** ** Backup *)

(** What [exportData] resolves to: the owner's rows of every table. *)
Record Backup := {
  b_customers : list Customer;
  b_jobs : list Job;
  b_expenses : list Expense;
  b_inventory : list InventoryItem;
  b_notes : list Note;
  b_travel : list TravelLog;
  b_workers : list Worker;
  b_attendance : list Attendance;
  b_jobImages : list JobImage;
  b_workerDocuments : list WorkerDocument;
  b_customerImages : list CustomerImage }.

Definition exportData (userId : Z) : Db Backup :=
  cs <- select customersT (λ r, c_userId r = userId) ;;
  js <- select jobsT (λ r, j_userId r = userId) ;;
  es <- select expensesT (λ r, e_userId r = userId) ;;
  its <- select inventoryT (λ r, i_userId r = userId) ;;
  ns <- select notesT (λ r, n_userId r = userId) ;;
  ts <- select travelT (λ r, t_userId r = userId) ;;
  ws <- select workersT (λ r, w_userId r = userId) ;;
  ats <- select attendanceT (λ r, a_userId r = userId) ;;
  jis <- select jobImagesT (λ r, ji_userId r = userId) ;;
  wds <- select workerDocumentsT (λ r, wd_userId r = userId) ;;
  cis <- select customerImagesT (λ r, ci_userId r = userId) ;;
  ret {| b_customers := cs; b_jobs := js; b_expenses := es;
         b_inventory := its; b_notes := ns; b_travel := ts;
         b_workers := ws; b_attendance := ats; b_jobImages := jis;
         b_workerDocuments := wds; b_customerImages := cis |}.

(** The JSON form of the stored rows, as the backup is sent out and
    read back. *)
Definition customerJson (c : Customer) : CustomerJson :=
  {| dc_id := Val (c_id c); dc_userId := Val (c_userId c);
     dc_name := Val (c_name c); dc_phone := Val (c_phone c);
     dc_address := Val (c_address c) |}.

Definition jobJson (j : Job) : JobJson :=
  {| dj_id := Val (j_id j); dj_userId := Val (j_userId j);
     dj_jobId := ofOption (j_jobId j);
     dj_jobName := ofOption (j_jobName j);
     dj_customerId := ofOption (j_customerId j);
     dj_category := Val (j_category j);
     dj_description := Val (j_description j);
     dj_location := Val (j_location j); dj_status := Val (j_status j);
     dj_quotedAmount := Val (j_quotedAmount j);
     dj_agreedAmount := Val (j_agreedAmount j);
     dj_paidAmount := Val (j_paidAmount j);
     dj_startDate := ofOption (j_startDate j);
     dj_endDate := ofOption (j_endDate j) |}.

Definition expenseJson (e : Expense) : ExpenseJson :=
  {| de_id := Val (e_id e); de_userId := Val (e_userId e);
     de_jobId := ofOption (e_jobId e); de_category := Val (e_category e);
     de_description := Val (e_description e);
     de_amount := Val (e_amount e);
     de_paidAmount := Val (e_paidAmount e);
     de_paidFull := Val (e_paidFull e); de_date := Val (e_date e);
     de_isRequired := Val (e_isRequired e) |}.

Definition inventoryJson (i : InventoryItem) : InventoryJson :=
  {| di_id := Val (i_id i); di_userId := Val (i_userId i);
     di_jobId := ofOption (i_jobId i); di_name := Val (i_name i);
     di_category := Val (i_category i);
     di_quantity := Val (i_quantity i); di_unit := Val (i_unit i);
     di_costPerUnit := Val (i_costPerUnit i);
     di_assignedToJobId := ofOption (i_assignedToJobId i) |}.

Definition noteJson (n : Note) : NoteJson :=
  {| dn_id := Val (n_id n); dn_userId := Val (n_userId n);
     dn_type := Val (n_type n); dn_section := Val (n_section n);
     dn_referenceId := ofOption (n_referenceId n);
     dn_attribute := ofOption (n_attribute n);
     dn_content := Val (n_content n);
     dn_createdAt := Val (n_createdAt n) |}.

Definition travelJson (t : TravelLog) : TravelJson :=
  {| dt_id := Val (t_id t); dt_userId := Val (t_userId t);
     dt_jobId := ofOption (t_jobId t); dt_date := Val (t_date t);
     dt_kilometers := Val (t_kilometers t);
     dt_fuelCost := Val (t_fuelCost t) |}.

Definition workerJson (w : Worker) : WorkerJson :=
  {| dw_id := Val (w_id w); dw_userId := Val (w_userId w);
     dw_jobId := ofOption (w_jobId w); dw_name := Val (w_name w);
     dw_role := Val (w_role w); dw_phone := ofOption (w_phone w);
     dw_address := ofOption (w_address w);
     dw_documentUrl := ofOption (w_documentUrl w);
     dw_dailyWage := Val (w_dailyWage w);
     dw_isActive := Val (w_isActive w);
     dw_rating := ofOption (w_rating w) |}.

Definition attendanceJson (a : Attendance) : AttendanceJson :=
  {| da_id := Val (a_id a); da_userId := Val (a_userId a);
     da_workerId := ofOption (a_workerId a);
     da_jobId := ofOption (a_jobId a); da_date := Val (a_date a);
     da_status := Val (a_status a);
     da_extraAllowance := ofOption (a_extraAllowance a) |}.

Definition jobImageJson (ji : JobImage) : JobImageJson :=
  {| dji_id := Val (ji_id ji); dji_userId := Val (ji_userId ji);
     dji_jobId := Val (ji_jobId ji); dji_url := Val (ji_url ji);
     dji_description := ofOption (ji_description ji);
     dji_createdAt := Val (ji_createdAt ji) |}.

Definition workerDocumentJson (wd : WorkerDocument) : WorkerDocumentJson :=
  {| dwd_id := Val (wd_id wd); dwd_userId := Val (wd_userId wd);
     dwd_workerId := Val (wd_workerId wd); dwd_url := Val (wd_url wd);
     dwd_name := Val (wd_name wd);
     dwd_createdAt := Val (wd_createdAt wd) |}.

Definition customerImageJson (ci : CustomerImage) : CustomerImageJson :=
  {| dci_id := Val (ci_id ci); dci_userId := Val (ci_userId ci);
     dci_customerId := Val (ci_customerId ci); dci_url := Val (ci_url ci);
     dci_description := ofOption (ci_description ci);
     dci_createdAt := Val (ci_createdAt ci) |}.

Definition toDocument (b : Backup) : Document :=
  {| data_customers := Some (customerJson <$> b_customers b);
     data_jobs := Some (jobJson <$> b_jobs b);
     data_expenses := Some (expenseJson <$> b_expenses b);
     data_inventory := Some (inventoryJson <$> b_inventory b);
     data_notes := Some (noteJson <$> b_notes b);
     data_travel := Some (travelJson <$> b_travel b);
     data_workers := Some (workerJson <$> b_workers b);
     data_attendance := Some (attendanceJson <$> b_attendance b);
     data_jobImages := Some (jobImageJson <$> b_jobImages b);
     data_workerDocuments :=
       Some (workerDocumentJson <$> b_workerDocuments b);
     data_customerImages :=
       Some (customerImageJson <$> b_customerImages b) |}.

(** ** Restore *)

(** [fk ? idMap.get(Number(fk)) ?? null : null] *)
Definition translate (idMap : gmap Z Z) (fk : Field Z) : option Z :=
  if truthy fk then idMap !! Number fk else None.

(** [if (oldId) idMap.set(Number(oldId), newId)] *)
Definition remember (oldId : Field Z) (newId : Z) (idMap : gmap Z Z)
  : gmap Z Z :=
  if truthy oldId then <[Number oldId := newId]> idMap else idMap.

(** [if (newId)] on a translated key: [null] and [0] are falsy. *)
Definition usable (newId : option Z) : option Z :=
  match newId with
  | Some k => if k =? 0 then None else Some k
  | None => None
  end.

(** STEP 1: delete all existing data, child tables first. *)
Definition deleteOwned (userId : Z) : Db unit :=
  delete jobImagesT unreferenced (λ r, ji_userId r = userId) ;;;
  delete workerDocumentsT unreferenced (λ r, wd_userId r = userId) ;;;
  delete customerImagesT unreferenced (λ r, ci_userId r = userId) ;;;
  delete attendanceT unreferenced (λ r, a_userId r = userId) ;;;
  delete inventoryT unreferenced (λ r, i_userId r = userId) ;;;
  delete travelT unreferenced (λ r, t_userId r = userId) ;;;
  delete expensesT unreferenced (λ r, e_userId r = userId) ;;;
  delete notesT unreferenced (λ r, n_userId r = userId) ;;;
  delete workersT refdWorker (λ r, w_userId r = userId) ;;;
  delete jobsT refdJob (λ r, j_userId r = userId) ;;;
  delete customersT refdCustomer (λ r, c_userId r = userId).

(** The loop bodies of STEP 2 to STEP 12.  The first three mutate the
    id map of their own table. *)
Definition importCustomer (userId : Z) (c : CustomerJson)
    (customerIdMap : gmap Z Z) : Db (gmap Z Z) :=
  let oldId := dc_id c in
  inserted <- insert customersT noFks (customerRow c userId) ;;
  ret (remember oldId (c_id inserted) customerIdMap).

Definition importJob (userId : Z) (customerIdMap : gmap Z Z) (j : JobJson)
    (jobIdMap : gmap Z Z) : Db (gmap Z Z) :=
  let oldId := dj_id j in
  let newCustomerId := translate customerIdMap (dj_customerId j) in
  inserted <- insert jobsT fkJobs
                (jobRow j userId Absent (ofOption newCustomerId)
                   (dj_agreedAmount j)) ;;
  ret (remember oldId (j_id inserted) jobIdMap).

Definition importWorker (userId : Z) (jobIdMap : gmap Z Z) (w : WorkerJson)
    (workerIdMap : gmap Z Z) : Db (gmap Z Z) :=
  let oldId := dw_id w in
  let newJobId := translate jobIdMap (dw_jobId w) in
  inserted <- insert workersT fkWorkers
                (workerRow w userId (ofOption newJobId)) ;;
  ret (remember oldId (w_id inserted) workerIdMap).

Definition importExpense (userId : Z) (jobIdMap : gmap Z Z)
    (e : ExpenseJson) (_ : unit) : Db unit :=
  insert expensesT fkExpenses
    (expenseRow e userId (ofOption (translate jobIdMap (de_jobId e)))) ;;;
  ret tt.

Definition importInventory (userId : Z) (jobIdMap : gmap Z Z)
    (i : InventoryJson) (_ : unit) : Db unit :=
  insert inventoryT fkInventory
    (inventoryRow i userId
       (ofOption (translate jobIdMap (di_jobId i)))
       (ofOption (translate jobIdMap (di_assignedToJobId i)))) ;;;
  ret tt.

Definition importTravel (userId : Z) (jobIdMap : gmap Z Z)
    (t : TravelJson) (_ : unit) : Db unit :=
  insert travelT fkTravel
    (travelRow t userId (ofOption (translate jobIdMap (dt_jobId t)))) ;;;
  ret tt.

(** The id map a note's [section] selects, if any. *)
Definition sectionMap (customerIdMap jobIdMap workerIdMap : gmap Z Z)
    (sec : Field string) : option (gmap Z Z) :=
  match sec with
  | Val sec =>
      if bool_decide (sec = "jobs")
         || bool_decide (sec = "workers_attendance")
      then Some jobIdMap
      else if bool_decide (sec = "customers") then Some customerIdMap
      else if bool_decide (sec = "workers") then Some workerIdMap
      else None
  | _ => None
  end.

Definition newReferenceId (customerIdMap jobIdMap workerIdMap : gmap Z Z)
    (n : NoteJson) : option Z :=
  let referenceId := dn_referenceId n in
  if truthy referenceId then
    match sectionMap customerIdMap jobIdMap workerIdMap (dn_section n) with
    | Some idMap => idMap !! Number referenceId
    | None => None
    end
  else None.

Definition importNote (userId now : Z)
    (customerIdMap jobIdMap workerIdMap : gmap Z Z) (n : NoteJson)
    (_ : unit) : Db unit :=
  insert notesT noFks
    (noteRow now n userId
       (ofOption (newReferenceId customerIdMap jobIdMap workerIdMap n))) ;;;
  ret tt.

Definition importAttendance (userId : Z) (jobIdMap workerIdMap : gmap Z Z)
    (a : AttendanceJson) (_ : unit) : Db unit :=
  insert attendanceT fkAttendance
    (attendanceRow a userId
       (ofOption (translate workerIdMap (da_workerId a)))
       (ofOption (translate jobIdMap (da_jobId a)))) ;;;
  ret tt.

Definition importJobImage (userId now : Z) (jobIdMap : gmap Z Z)
    (ji : JobImageJson) (_ : unit) : Db unit :=
  match usable (translate jobIdMap (dji_jobId ji)) with
  | Some newJobId =>
      insert jobImagesT fkJobImages (jobImageRow now ji userId newJobId) ;;;
      ret tt
  | None => ret tt
  end.

Definition importWorkerDocument (userId now : Z) (workerIdMap : gmap Z Z)
    (wd : WorkerDocumentJson) (_ : unit) : Db unit :=
  match usable (translate workerIdMap (dwd_workerId wd)) with
  | Some newWorkerId =>
      insert workerDocumentsT fkWorkerDocuments
        (workerDocumentRow now wd userId newWorkerId) ;;;
      ret tt
  | None => ret tt
  end.

Definition importCustomerImage (userId now : Z) (customerIdMap : gmap Z Z)
    (ci : CustomerImageJson) (_ : unit) : Db unit :=
  match usable (translate customerIdMap (dci_customerId ci)) with
  | Some newCustomerId =>
      insert customerImagesT fkCustomerImages
        (customerImageRow now ci userId newCustomerId) ;;;
      ret tt
  | None => ret tt
  end.

(** The callback of the transaction.  It resolves to nothing in the
    source; here it hands back the three id maps it built, so that
    statements can speak about them. *)
Definition importBody (userId now : Z) (data : Document)
  : Db (gmap Z Z * gmap Z Z * gmap Z Z) :=
  deleteOwned userId ;;;
  customerIdMap <- forOf (orEmpty (data_customers data))
                     (importCustomer userId) ∅ ;;
  jobIdMap <- forOf (orEmpty (data_jobs data))
                (importJob userId customerIdMap) ∅ ;;
  workerIdMap <- forOf (orEmpty (data_workers data))
                   (importWorker userId jobIdMap) ∅ ;;
  forOf (orEmpty (data_expenses data)) (importExpense userId jobIdMap) tt ;;;
  forOf (orEmpty (data_inventory data))
    (importInventory userId jobIdMap) tt ;;;
  forOf (orEmpty (data_travel data)) (importTravel userId jobIdMap) tt ;;;
  forOf (orEmpty (data_notes data))
    (importNote userId now customerIdMap jobIdMap workerIdMap) tt ;;;
  forOf (orEmpty (data_attendance data))
    (importAttendance userId jobIdMap workerIdMap) tt ;;;
  forOf (orEmpty (data_jobImages data))
    (importJobImage userId now jobIdMap) tt ;;;
  forOf (orEmpty (data_workerDocuments data))
    (importWorkerDocument userId now workerIdMap) tt ;;;
  forOf (orEmpty (data_customerImages data))
    (importCustomerImage userId now customerIdMap) tt ;;;
  ret (customerIdMap, jobIdMap, workerIdMap).

Definition importData (userId now : Z) (data : Document) : Db unit :=
  transaction (importBody userId now data ;;; ret tt).

(** ** The attendance route

    [POST /api/attendance] of [server/routes.ts], from the parsed
    request body on: it stores the attendance row and then a log entry
    about it.  [worker] is looked up by [data.workerId!], and no row has
    a missing or [null] id; [date] and [status] are strings whenever the
    insert has gone through. *)

Definition attendanceLog {platform : Platform} (data : AttendanceJson) (worker : option Worker)
    (job : option Job) : NoteJson :=
  let name :=
    match worker with
    | Some w => template (orField (Val (w_name w)) (Val "Worker"))
    | None => "Worker"
    end in
  let where_ :=
    match job with
    | Some j =>
        (" (Job: "
         ++ template (orField (ofOption (j_jobName j)) (Val (j_description j)))
         ++ ")")%string
    | None => EmptyString
    end in
  {| dn_id := Absent; dn_userId := Absent; dn_type := Val "log";
     dn_section := Val "workers_attendance";
     dn_referenceId := da_workerId data; dn_attribute := Val "attendance";
     dn_content :=
       Val ("Attendance recorded for " ++ name ++ " on "
            ++ template (da_date data) ++ ": "
            ++ toUpperCase (template (da_status data)) ++ where_)%string;
     dn_createdAt := Absent |}.

Definition postAttendance {platform : Platform} (now : Z) (data : AttendanceJson)
    (userId : Z) : Db Attendance :=
  item <- createAttendance data userId ;;
  found <- bound (sent int4 (da_workerId data))
             (select workersT
                (λ w, Val (w_id w) = da_workerId data
                      ∧ w_userId w = userId)) ;;
  let worker := head found in
  job <- (if truthy (da_jobId data)
          then getJob (Number (da_jobId data)) userId
          else ret None) ;;
  createNote now (attendanceLog data worker job) userId ;;;
  ret item.

(** ** Request paths

    [buildUrl] of [shared/routes.ts].  [params] lists the entries of
    the object in the order [Object.entries] gives them; a number among
    the values is an integer. *)

Inductive ParamValue : Type :=
| Str (s : string)
| Num (n : Z).

(** [String(value)] *)
Definition stringOf (value : ParamValue) : string :=
  match value with
  | Str s => s
  | Num n => String_ n
  end.

(** What follows [pattern] in [s], when [s] starts with it. *)
Fixpoint stripPrefix (pattern s : string) : option string :=
  match pattern, s with
  | EmptyString, _ => Some s
  | String a pattern', String b s' =>
      if Ascii.eqb a b then stripPrefix pattern' s' else None
  | String _ _, EmptyString => None
  end.

(** What is before and after the first occurrence of [pattern] in
    [s]. *)
Fixpoint splitOnce (pattern s : string) : option (string * string) :=
  match stripPrefix pattern s with
  | Some after => Some (EmptyString, after)
  | None =>
      match s with
      | EmptyString => None
      | String c s' =>
          match splitOnce pattern s' with
          | Some (before, after) => Some (String c before, after)
          | None => None
          end
      end
  end.

(** [s.includes(pattern)] *)
Definition includes (pattern s : string) : bool :=
  match splitOnce pattern s with
  | Some _ => true
  | None => false
  end.

(** The replacement text of [replace] for a string pattern: ["$$"] is
    a dollar, ["$&"] the match, ["$`"] and ["$'"] what is before and
    after it; there are no groups, so every other dollar stands for
    itself. *)
Fixpoint substitution (matched before after replacement : string) : string :=
  match replacement with
  | String c rest =>
      if Ascii.eqb c "$" then
        match rest with
        | String d rest' =>
            if Ascii.eqb d "$"
            then String "$" (substitution matched before after rest')
            else if Ascii.eqb d "&"
            then (matched ++ substitution matched before after rest')%string
            else if Ascii.eqb d "`"
            then (before ++ substitution matched before after rest')%string
            else if Ascii.eqb d "'"
            then (after ++ substitution matched before after rest')%string
            else String c (substitution matched before after rest)
        | EmptyString => String c EmptyString
        end
      else String c (substitution matched before after rest)
  | EmptyString => EmptyString
  end.

(** [s.replace(pattern, replacement)] for a string pattern: the first
    occurrence only. *)
Definition replace (pattern replacement s : string) : string :=
  match splitOnce pattern s with
  | Some (before, after) =>
      (before ++ substitution pattern before after replacement ++ after)%string
  | None => s
  end.

Definition buildUrl (path : string)
    (params : option (list (string * ParamValue))) : string :=
  match params with
  | Some entries =>
      foldl (λ url entry,
               let pattern := (":" ++ entry.1)%string in
               if includes pattern url
               then replace pattern (stringOf entry.2) url
               else url)
        path entries
  | None => path
  end.

(** * The vocabulary of the statements *)

(** The owner's rows of a table, and everybody else's. *)
Definition owned {R} `{Row R} (userId : Z) (t : Table R) : list R :=
  filter (λ r, rowUser r = userId) (rows t).

Definition others {R} `{Row R} (userId : Z) (t : Table R) : list R :=
  filter (λ r, ¬ rowUser r = userId) (rows t).

Class LensOk {R} (L : Lens R) : Prop := {
  get_set : ∀ t s, lget L (lset L t s) = t;
  set_set : ∀ t t' s, lset L t (lset L t' s) = lset L t s;
  set_get : ∀ s, lset L (lget L s) s = s }.

(** One iteration of an insert loop: [values x] is the row builder of
    the insert the iteration performs, if it performs one, and [upd]
    the mutation that follows it. *)
Definition insertStep {X R St} `{Row R} (L : Lens R)
    (fks : Store → R → bool) (values : X → option (Z → Err + R))
    (upd : X → R → St → St) (x : X) (st : St) : Db St :=
  match values x with
  | Some v => r <- insert L fks v ;; ret (upd x r st)
  | None => ret st
  end.

(** [Inserted values upd n st xs rs st']: taking ids from [n] on, the
    loop over [xs] stores the rows [rs], in this order, and takes the
    loop state from [st] to [st']. *)
Inductive Inserted {X R St} (values : X → option (Z → Err + R))
    (upd : X → R → St → St) : Z → St → list X → list R → St → Prop :=
| Inserted_nil n st : Inserted values upd n st [] [] st
| Inserted_skip n st x xs rs st' :
    values x = None →
    Inserted values upd n st xs rs st' →
    Inserted values upd n st (x :: xs) rs st'
| Inserted_cons n st x xs v r rs st' :
    values x = Some v →
    v n = inr r →
    Inserted values upd (n + 1) (upd x r st) xs rs st' →
    Inserted values upd n st (x :: xs) (r :: rs) st'.

(** The store after a loop has appended the rows [rs] to a table. *)
Definition appended {R} (L : Lens R) (rs : list R) (s : Store) : Store :=
  lset L {| rows := rows (lget L s) ++ rs;
            nextId := nextId (lget L s) + Z.of_nat (length rs) |} s.

(** The elements of a loop that insert a row. *)
Definition kept {X R} (values : X → option (Z → Err + R)) (xs : list X)
  : list X :=
  filter (λ x, is_Some (values x)) xs.

(** A loop that inserts on every iteration, *)
Definition always {X R} (mk : X → Z → Err + R)
  : X → option (Z → Err + R) := λ x, Some (mk x).

(** one that records the new id under the old one, *)
Definition remembering {X R} `{Row R} (oid : X → Field Z)
  : X → R → gmap Z Z → gmap Z Z := λ x r, remember (oid x) (rowId r).

(** and one that mutates nothing. *)
Definition stateless {X R} : X → R → unit → unit := λ _ _ _, tt.

Definition without {R} `{Row R} (userId : Z) (t : Table R) : Table R :=
  {| rows := others userId t; nextId := nextId t |}.

(** The store once every row of [userId] is gone. *)
Definition cleared (userId : Z) (s : Store) : Store :=
  {| customers := without userId (customers s);
     jobs := without userId (jobs s);
     expenses := without userId (expenses s);
     inventory := without userId (inventory s);
     notes := without userId (notes s);
     travel := without userId (travel s);
     workers := without userId (workers s);
     attendance := without userId (attendance s);
     jobImages := without userId (jobImages s);
     workerDocuments := without userId (workerDocuments s);
     customerImages := without userId (customerImages s) |}.

(** No row of another owner references a worker, a job or a customer
    of [userId]. *)
Definition unreferencedByOthers (userId : Z) (s : Store) : bool :=
  forallb (λ w, negb (refdWorker (cleared userId s) (w_id w)))
    (owned userId (workers s))
  && forallb (λ j, negb (refdJob (cleared userId s) (j_id j)))
       (owned userId (jobs s))
  && forallb (λ c, negb (refdCustomer (cleared userId s) (c_id c)))
       (owned userId (customers s)).

Definition customerValues (userId : Z) :=
  always (λ c, customerRow c userId).

Definition jobValues (userId : Z) (customerIdMap : gmap Z Z) :=
  always (λ j, jobRow j userId Absent
                 (ofOption (translate customerIdMap (dj_customerId j)))
                 (dj_agreedAmount j)).

Definition workerValues (userId : Z) (jobIdMap : gmap Z Z) :=
  always (λ w, workerRow w userId
                 (ofOption (translate jobIdMap (dw_jobId w)))).

Definition expenseValues (userId : Z) (jobIdMap : gmap Z Z) :=
  always (λ e, expenseRow e userId
                 (ofOption (translate jobIdMap (de_jobId e)))).

Definition inventoryValues (userId : Z) (jobIdMap : gmap Z Z) :=
  always (λ i, inventoryRow i userId
                 (ofOption (translate jobIdMap (di_jobId i)))
                 (ofOption (translate jobIdMap (di_assignedToJobId i)))).

Definition travelValues (userId : Z) (jobIdMap : gmap Z Z) :=
  always (λ t, travelRow t userId
                 (ofOption (translate jobIdMap (dt_jobId t)))).

Definition noteValues (userId now : Z)
    (customerIdMap jobIdMap workerIdMap : gmap Z Z) :=
  always (λ n, noteRow now n userId
                 (ofOption
                    (newReferenceId customerIdMap jobIdMap workerIdMap n))).

Definition attendanceValues (userId : Z) (jobIdMap workerIdMap : gmap Z Z) :=
  always (λ a, attendanceRow a userId
                 (ofOption (translate workerIdMap (da_workerId a)))
                 (ofOption (translate jobIdMap (da_jobId a)))).

Definition jobImageValues (userId now : Z) (jobIdMap : gmap Z Z)
  : JobImageJson → option (Z → Err + JobImage) :=
  λ ji, jobImageRow now ji userId
          <$> usable (translate jobIdMap (dji_jobId ji)).

Definition workerDocumentValues (userId now : Z) (workerIdMap : gmap Z Z)
  : WorkerDocumentJson → option (Z → Err + WorkerDocument) :=
  λ wd, workerDocumentRow now wd userId
          <$> usable (translate workerIdMap (dwd_workerId wd)).

Definition customerImageValues (userId now : Z) (customerIdMap : gmap Z Z)
  : CustomerImageJson → option (Z → Err + CustomerImage) :=
  λ ci, customerImageRow now ci userId
          <$> usable (translate customerIdMap (dci_customerId ci)).

(** What a table looks like after the restore: the rows of the other
    owners, then the rows the loop inserted, which are all the rows of
    [userId]. *)
Definition restored {X R St} `{Row R} (userId : Z)
    (values : X → option (Z → Err + R)) (upd : X → R → St → St)
    (xs : list X) (st st' : St) (t t' : Table R) : Prop :=
  rows t' = others userId t ++ owned userId t'
  ∧ nextId t' = nextId t + Z.of_nat (length (owned userId t'))
  ∧ Inserted values upd (nextId t) st xs (owned userId t') st'.

Record ImportResult (userId now : Z) (data : Document) (s s' : Store)
    (customerIdMap jobIdMap workerIdMap : gmap Z Z) : Prop := {
  ir_customers :
    restored userId (customerValues userId) (remembering dc_id)
      (orEmpty (data_customers data)) ∅ customerIdMap
      (customers s) (customers s');
  ir_jobs :
    restored userId (jobValues userId customerIdMap) (remembering dj_id)
      (orEmpty (data_jobs data)) ∅ jobIdMap (jobs s) (jobs s');
  ir_workers :
    restored userId (workerValues userId jobIdMap) (remembering dw_id)
      (orEmpty (data_workers data)) ∅ workerIdMap
      (workers s) (workers s');
  ir_expenses :
    restored userId (expenseValues userId jobIdMap) stateless
      (orEmpty (data_expenses data)) tt tt (expenses s) (expenses s');
  ir_inventory :
    restored userId (inventoryValues userId jobIdMap) stateless
      (orEmpty (data_inventory data)) tt tt (inventory s) (inventory s');
  ir_travel :
    restored userId (travelValues userId jobIdMap) stateless
      (orEmpty (data_travel data)) tt tt (travel s) (travel s');
  ir_notes :
    restored userId
      (noteValues userId now customerIdMap jobIdMap workerIdMap) stateless
      (orEmpty (data_notes data)) tt tt (notes s) (notes s');
  ir_attendance :
    restored userId (attendanceValues userId jobIdMap workerIdMap)
      stateless (orEmpty (data_attendance data)) tt tt
      (attendance s) (attendance s');
  ir_jobImages :
    restored userId (jobImageValues userId now jobIdMap) stateless
      (orEmpty (data_jobImages data)) tt tt (jobImages s) (jobImages s');
  ir_workerDocuments :
    restored userId (workerDocumentValues userId now workerIdMap)
      stateless (orEmpty (data_workerDocuments data)) tt tt
      (workerDocuments s) (workerDocuments s');
  ir_customerImages :
    restored userId (customerImageValues userId now customerIdMap)
      stateless (orEmpty (data_customerImages data)) tt tt
      (customerImages s) (customerImages s') }.

(** Ids come from the sequence: every stored id is positive, below the
    next value of the sequence, and used once. *)
Definition wfTable {R} `{Row R} (t : Table R) : Prop :=
  0 < nextId t
  ∧ Forall (λ r, 0 < rowId r < nextId t) (rows t)
  ∧ NoDup (rowId <$> rows t).

Definition wfStore (s : Store) : Prop :=
  wfTable (customers s) ∧ wfTable (jobs s) ∧ wfTable (expenses s)
  ∧ wfTable (inventory s) ∧ wfTable (notes s) ∧ wfTable (travel s)
  ∧ wfTable (workers s) ∧ wfTable (attendance s) ∧ wfTable (jobImages s)
  ∧ wfTable (workerDocuments s) ∧ wfTable (customerImages s).

Definition accepted {R} (r : Err + R) : bool :=
  match r with
  | inr _ => true
  | inl _ => false
  end.

(** Every row of the document has the columns its table requires: a
    value for a [notNull] column without default, no [null] for one
    with a default.  This is all a row builder looks at; nothing is
    asked of the values themselves. *)
Definition hasColumns (data : Document) : bool :=
  forallb (λ c, accepted (customerRow c 0 0))
    (orEmpty (data_customers data))
  && forallb (λ j, accepted (jobRow j 0 Absent Null (dj_agreedAmount j) 0))
       (orEmpty (data_jobs data))
  && forallb (λ w, accepted (workerRow w 0 Null 0))
       (orEmpty (data_workers data))
  && forallb (λ e, accepted (expenseRow e 0 Null 0))
       (orEmpty (data_expenses data))
  && forallb (λ i, accepted (inventoryRow i 0 Null Null 0))
       (orEmpty (data_inventory data))
  && forallb (λ t, accepted (travelRow t 0 Null 0))
       (orEmpty (data_travel data))
  && forallb (λ n, accepted (noteRow 0 n 0 Null 0))
       (orEmpty (data_notes data))
  && forallb (λ a, accepted (attendanceRow a 0 Null Null 0))
       (orEmpty (data_attendance data))
  && forallb (λ ji, accepted (jobImageRow 0 ji 0 0 0))
       (orEmpty (data_jobImages data))
  && forallb (λ wd, accepted (workerDocumentRow 0 wd 0 0 0))
       (orEmpty (data_workerDocuments data))
  && forallb (λ ci, accepted (customerImageRow 0 ci 0 0 0))
       (orEmpty (data_customerImages data)).

(** The new ids an id map hands out are ids of stored rows. *)
Definition mapsInto {R} `{Row R} (m : gmap Z Z) (t : Table R) : Prop :=
  ∀ k v, m !! k = Some v → hasId t v = true.

(** The two stores hold the same rows in every table. *)
Definition sameRows (s s' : Store) : Prop :=
  rows (customers s') = rows (customers s)
  ∧ rows (jobs s') = rows (jobs s)
  ∧ rows (expenses s') = rows (expenses s)
  ∧ rows (inventory s') = rows (inventory s)
  ∧ rows (notes s') = rows (notes s)
  ∧ rows (travel s') = rows (travel s)
  ∧ rows (workers s') = rows (workers s)
  ∧ rows (attendance s') = rows (attendance s)
  ∧ rows (jobImages s') = rows (jobImages s)
  ∧ rows (workerDocuments s') = rows (workerDocuments s)
  ∧ rows (customerImages s') = rows (customerImages s).

(** What [exportData] hands to [userId] in store [s]. *)
Definition backupOf (userId : Z) (s : Store) : Err + Backup :=
  snd (exportData userId s).

(** [remapped good children fk stored newFk parents oldId storedParents
    newId]: whenever the [i]-th child of the document refers, through
    [fk], to the old id of the [p]-th parent of the document, and
    [good] holds of that id and [p], the [i]-th stored child refers to
    the new id of the [p]-th stored parent. *)
Definition remapped {X P R RP : Type} (good : Z → nat → Prop)
    (children : list X) (fk : X → Field Z)
    (stored : list R) (newFk : R → option Z)
    (parents : list P) (oldId : P → Field Z)
    (storedParents : list RP) (newId : RP → Z) : Prop :=
  ∀ i x p c k,
    children !! i = Some x → parents !! p = Some c →
    fk x = Val k → oldId c = Val k → good k p →
    ∃ r rp, stored !! i = Some r ∧ storedParents !! p = Some rp
            ∧ newFk r = Some (newId rp).

(** No condition on the parent: the claim as the specification words
    it. *)
Definition anyParent : Z → nat → Prop := λ _ _, True.

(** The old id is not [0] and [p] is the last parent that carries it. *)
Definition lastParent {P} (parents : list P) (oldId : P → Field Z)
  : Z → nat → Prop :=
  λ k p, k ≠ 0 ∧ ∀ q c, parents !! q = Some c → oldId c = Val k → (q ≤ p)%nat.

(** [nulled idMap children fk stored newFk]: a child of the document
    whose foreign key has no entry in [idMap] is stored, at its place,
    with that key null. *)
Definition nulled {X R : Type} (idMap : gmap Z Z)
    (children : list X) (fk : X → Field Z)
    (stored : list R) (newFk : R → option Z) : Prop :=
  ∀ i x k, children !! i = Some x → fk x = Val k → idMap !! k = None →
    ∃ r, stored !! i = Some r ∧ newFk r = None.

(** The entry an id map holds for a key of the document, when the key
    holds an old id and the map has an entry for it. *)
Definition entry (idMap : gmap Z Z) (fk : Field Z) : option Z :=
  nullable fk ≫= (idMap !!.).

(** [dropped idMap children fk builtFrom parent stored]: the stored
    rows are built, one for one and in order, from the rows of the
    document whose key has an entry in [idMap], all of them and no
    other, each under the new id that [idMap] holds for its key. *)
Definition dropped {X R : Type} (idMap : gmap Z Z)
    (children : list X) (fk : X → Field Z)
    (builtFrom : X → Z → R → Prop) (parent : R → Z) (stored : list R)
  : Prop :=
  Forall2 (λ x r, ∃ newId, entry idMap (fk x) = Some newId
                           ∧ builtFrom x newId r ∧ parent r = newId)
    (filter (λ x, is_Some (entry idMap (fk x))) children) stored.

(** [unmapped parents oldId idMap]: the old ids without an entry in
    [idMap] are [0] and those that no parent row of the document
    carries. *)
Definition unmapped {P : Type} (parents : list P) (oldId : P → Field Z)
    (idMap : gmap Z Z) : Prop :=
  ∀ k, idMap !! k = None ↔ k = 0 ∨ ∀ c, c ∈ parents → oldId c ≠ Val k.

(** Some parent row of the document carries the old id [k], and [k] is
    not [0]. *)
Definition carried {P : Type} (parents : option (list P))
    (oldId : P → Field Z) (k : Z) : bool :=
  negb (k =? 0)
  && existsb (λ c, bool_decide (oldId c = Val k)) (orEmpty parents).

(** A key that names no parent row, replaced by [null]. *)
Definition orNull (known : Z → bool) (fk : Field Z) : Field Z :=
  match fk with
  | Val k => if known k then fk else Null
  | _ => fk
  end.

(** The key names a parent row. *)
Definition hasParent (known : Z → bool) (fk : Field Z) : bool :=
  match fk with
  | Val k => known k
  | _ => false
  end.

(** A row of the document with other foreign keys. *)
Definition jobWith (customerId : Field Z) (j : JobJson) : JobJson :=
  {| dj_id := dj_id j; dj_userId := dj_userId j; dj_jobId := dj_jobId j;
     dj_jobName := dj_jobName j; dj_customerId := customerId;
     dj_category := dj_category j; dj_description := dj_description j;
     dj_location := dj_location j; dj_status := dj_status j;
     dj_quotedAmount := dj_quotedAmount j;
     dj_agreedAmount := dj_agreedAmount j;
     dj_paidAmount := dj_paidAmount j; dj_startDate := dj_startDate j;
     dj_endDate := dj_endDate j |}.

Definition workerWith (jobId : Field Z) (w : WorkerJson) : WorkerJson :=
  {| dw_id := dw_id w; dw_userId := dw_userId w; dw_jobId := jobId;
     dw_name := dw_name w; dw_role := dw_role w; dw_phone := dw_phone w;
     dw_address := dw_address w; dw_documentUrl := dw_documentUrl w;
     dw_dailyWage := dw_dailyWage w; dw_isActive := dw_isActive w;
     dw_rating := dw_rating w |}.

Definition expenseWith (jobId : Field Z) (e : ExpenseJson) : ExpenseJson :=
  {| de_id := de_id e; de_userId := de_userId e; de_jobId := jobId;
     de_category := de_category e; de_description := de_description e;
     de_amount := de_amount e; de_paidAmount := de_paidAmount e;
     de_paidFull := de_paidFull e; de_date := de_date e;
     de_isRequired := de_isRequired e |}.

Definition inventoryWith (jobId assignedToJobId : Field Z)
    (i : InventoryJson) : InventoryJson :=
  {| di_id := di_id i; di_userId := di_userId i; di_jobId := jobId;
     di_name := di_name i; di_category := di_category i;
     di_quantity := di_quantity i; di_unit := di_unit i;
     di_costPerUnit := di_costPerUnit i;
     di_assignedToJobId := assignedToJobId |}.

Definition travelWith (jobId : Field Z) (t : TravelJson) : TravelJson :=
  {| dt_id := dt_id t; dt_userId := dt_userId t; dt_jobId := jobId;
     dt_date := dt_date t; dt_kilometers := dt_kilometers t;
     dt_fuelCost := dt_fuelCost t |}.

Definition attendanceWith (workerId jobId : Field Z) (a : AttendanceJson)
  : AttendanceJson :=
  {| da_id := da_id a; da_userId := da_userId a; da_workerId := workerId;
     da_jobId := jobId; da_date := da_date a; da_status := da_status a;
     da_extraAllowance := da_extraAllowance a |}.

(** A list of the document, missing or not, with every row changed,
    or with some rows only. *)
Definition each {X : Type} (f : X → X) (xs : option (list X))
  : option (list X) :=
  match xs with
  | Some l => Some (f <$> l)
  | None => None
  end.

Definition only {X : Type} (keep : X → bool) (xs : option (list X))
  : option (list X) :=
  match xs with
  | Some l => Some (filter (λ x, keep x = true) l)
  | None => None
  end.

(** The document without its orphans: a foreign key that names no
    customer, job or worker row of the document is [null] where the
    column is optional, and a job photo, a worker document or a
    customer photo whose key names none is left out. *)
Definition withoutOrphans (data : Document) : Document :=
  let customer := carried (data_customers data) dc_id in
  let job := carried (data_jobs data) dj_id in
  let worker := carried (data_workers data) dw_id in
  {| data_customers := data_customers data;
     data_jobs :=
       each (λ j, jobWith (orNull customer (dj_customerId j)) j)
         (data_jobs data);
     data_expenses :=
       each (λ e, expenseWith (orNull job (de_jobId e)) e)
         (data_expenses data);
     data_inventory :=
       each (λ i, inventoryWith (orNull job (di_jobId i))
                    (orNull job (di_assignedToJobId i)) i)
         (data_inventory data);
     data_notes := data_notes data;
     data_travel :=
       each (λ t, travelWith (orNull job (dt_jobId t)) t) (data_travel data);
     data_workers :=
       each (λ w, workerWith (orNull job (dw_jobId w)) w)
         (data_workers data);
     data_attendance :=
       each (λ a, attendanceWith (orNull worker (da_workerId a))
                    (orNull job (da_jobId a)) a)
         (data_attendance data);
     data_jobImages :=
       only (λ ji, hasParent job (dji_jobId ji)) (data_jobImages data);
     data_workerDocuments :=
       only (λ wd, hasParent worker (dwd_workerId wd))
         (data_workerDocuments data);
     data_customerImages :=
       only (λ ci, hasParent customer (dci_customerId ci))
         (data_customerImages data) |}.

(** The document has no row at all: every list is missing or empty. *)
Definition noRows (data : Document) : Prop :=
  orEmpty (data_customers data) = []
  ∧ orEmpty (data_jobs data) = []
  ∧ orEmpty (data_expenses data) = []
  ∧ orEmpty (data_inventory data) = []
  ∧ orEmpty (data_notes data) = []
  ∧ orEmpty (data_travel data) = []
  ∧ orEmpty (data_workers data) = []
  ∧ orEmpty (data_attendance data) = []
  ∧ orEmpty (data_jobImages data) = []
  ∧ orEmpty (data_workerDocuments data) = []
  ∧ orEmpty (data_customerImages data) = [].

Definition emptyBackup : Backup :=
  {| b_customers := []; b_jobs := []; b_expenses := []; b_inventory := [];
     b_notes := []; b_travel := []; b_workers := []; b_attendance := [];
     b_jobImages := []; b_workerDocuments := [];
     b_customerImages := [] |}.

(** Owner [userId] has the same rows in both stores. *)
Definition ownedAlike (userId : Z) (s s' : Store) : Prop :=
  owned userId (customers s') = owned userId (customers s)
  ∧ owned userId (jobs s') = owned userId (jobs s)
  ∧ owned userId (expenses s') = owned userId (expenses s)
  ∧ owned userId (inventory s') = owned userId (inventory s)
  ∧ owned userId (notes s') = owned userId (notes s)
  ∧ owned userId (travel s') = owned userId (travel s)
  ∧ owned userId (workers s') = owned userId (workers s)
  ∧ owned userId (attendance s') = owned userId (attendance s)
  ∧ owned userId (jobImages s') = owned userId (jobImages s)
  ∧ owned userId (workerDocuments s') = owned userId (workerDocuments s)
  ∧ owned userId (customerImages s') = owned userId (customerImages s).

(** Both stores are at the same point of every sequence. *)
Definition sameSequences (s s' : Store) : Prop :=
  nextId (customers s') = nextId (customers s)
  ∧ nextId (jobs s') = nextId (jobs s)
  ∧ nextId (expenses s') = nextId (expenses s)
  ∧ nextId (inventory s') = nextId (inventory s)
  ∧ nextId (notes s') = nextId (notes s)
  ∧ nextId (travel s') = nextId (travel s)
  ∧ nextId (workers s') = nextId (workers s)
  ∧ nextId (attendance s') = nextId (attendance s)
  ∧ nextId (jobImages s') = nextId (jobImages s)
  ∧ nextId (workerDocuments s') = nextId (workerDocuments s)
  ∧ nextId (customerImages s') = nextId (customerImages s).

(** [l] renumbered from [n] on, each element copied by [f] under its
    new id. *)
Definition numbered {A B} (f : Z → A → B) (n : Z) (l : list A) : list B :=
  imap (λ i a, f (n + Z.of_nat i) a) l.

(** [m] sends the id of the [p]-th row of [olds] to [n + p], and holds
    nothing else. *)
Definition renumbered {R} `{Row R} (olds : list R) (n : Z) (m : gmap Z Z)
  : Prop :=
  (∀ p r, olds !! p = Some r → m !! rowId r = Some (n + Z.of_nat p))
  ∧ (∀ k, (∀ r, r ∈ olds → rowId r ≠ k) → m !! k = None).

(** The copy of a row that a round trip leaves: new id, references
    looked up in the id maps, no job code, creation time [now]. *)
Definition customerCopy (id : Z) (c : Customer) : Customer :=
  {| c_id := id; c_userId := c_userId c; c_name := c_name c;
     c_phone := c_phone c; c_address := c_address c |}.

Definition jobCopy (cm : gmap Z Z) (id : Z) (j : Job) : Job :=
  {| j_id := id; j_userId := j_userId j; j_jobId := None;
     j_jobName := j_jobName j;
     j_customerId := j_customerId j ≫= (cm !!.);
     j_category := j_category j; j_description := j_description j;
     j_location := j_location j; j_status := j_status j;
     j_quotedAmount := j_quotedAmount j;
     j_agreedAmount := j_agreedAmount j; j_paidAmount := j_paidAmount j;
     j_startDate := j_startDate j; j_endDate := j_endDate j |}.

Definition workerCopy (jm : gmap Z Z) (id : Z) (w : Worker) : Worker :=
  {| w_id := id; w_userId := w_userId w;
     w_jobId := w_jobId w ≫= (jm !!.); w_name := w_name w;
     w_role := w_role w; w_phone := w_phone w; w_address := w_address w;
     w_documentUrl := w_documentUrl w; w_dailyWage := w_dailyWage w;
     w_isActive := w_isActive w; w_rating := w_rating w |}.

Definition expenseCopy (jm : gmap Z Z) (id : Z) (e : Expense) : Expense :=
  {| e_id := id; e_userId := e_userId e;
     e_jobId := e_jobId e ≫= (jm !!.); e_category := e_category e;
     e_description := e_description e; e_amount := e_amount e;
     e_paidAmount := e_paidAmount e; e_paidFull := e_paidFull e;
     e_date := e_date e; e_isRequired := e_isRequired e |}.

Definition inventoryCopy (jm : gmap Z Z) (id : Z) (i : InventoryItem)
  : InventoryItem :=
  {| i_id := id; i_userId := i_userId i;
     i_jobId := i_jobId i ≫= (jm !!.); i_name := i_name i;
     i_category := i_category i; i_quantity := i_quantity i;
     i_unit := i_unit i; i_costPerUnit := i_costPerUnit i;
     i_assignedToJobId := i_assignedToJobId i ≫= (jm !!.) |}.

Definition travelCopy (jm : gmap Z Z) (id : Z) (t : TravelLog) : TravelLog :=
  {| t_id := id; t_userId := t_userId t;
     t_jobId := t_jobId t ≫= (jm !!.); t_date := t_date t;
     t_kilometers := t_kilometers t; t_fuelCost := t_fuelCost t |}.

Definition noteCopy (now : Z) (cm jm wm : gmap Z Z) (id : Z) (n : Note)
  : Note :=
  {| n_id := id; n_userId := n_userId n; n_type := n_type n;
     n_section := n_section n;
     n_referenceId :=
       k ← n_referenceId n;
       m ← sectionMap cm jm wm (Val (n_section n));
       m !! k;
     n_attribute := n_attribute n; n_content := n_content n;
     n_createdAt := now |}.

Definition attendanceCopy (jm wm : gmap Z Z) (id : Z) (a : Attendance)
  : Attendance :=
  {| a_id := id; a_userId := a_userId a;
     a_workerId := a_workerId a ≫= (wm !!.);
     a_jobId := a_jobId a ≫= (jm !!.); a_date := a_date a;
     a_status := a_status a; a_extraAllowance := a_extraAllowance a |}.

(** Photos and documents come with the new id of their parent. *)
Definition jobImageCopy (now id : Z) (x : JobImage * Z) : JobImage :=
  {| ji_id := id; ji_userId := ji_userId x.1; ji_jobId := x.2;
     ji_url := ji_url x.1; ji_description := ji_description x.1;
     ji_createdAt := now |}.

Definition workerDocumentCopy (now id : Z) (x : WorkerDocument * Z)
  : WorkerDocument :=
  {| wd_id := id; wd_userId := wd_userId x.1; wd_workerId := x.2;
     wd_url := wd_url x.1; wd_name := wd_name x.1; wd_createdAt := now |}.

Definition customerImageCopy (now id : Z) (x : CustomerImage * Z)
  : CustomerImage :=
  {| ci_id := id; ci_userId := ci_userId x.1; ci_customerId := x.2;
     ci_url := ci_url x.1; ci_description := ci_description x.1;
     ci_createdAt := now |}.

(** The rows whose parent has a copy, paired with the id of that
    copy. *)
Definition withParent {R} (m : gmap Z Z) (parent : R → Z) (l : list R)
  : list (R * Z) :=
  omap (λ r, (r,.) <$> m !! parent r) l.

(** The document [exportData] yields for [userId] in store [s]. *)
Definition exported (userId : Z) (s : Store) : Document :=
  match backupOf userId s with
  | inr b => toDocument b
  | inl _ => toDocument emptyBackup
  end.

Record RoundTrip (userId now : Z) (s s' : Store) (cm jm wm : gmap Z Z)
  : Prop := {
  rt_customerIdMap :
    renumbered (owned userId (customers s)) (nextId (customers s)) cm;
  rt_jobIdMap : renumbered (owned userId (jobs s)) (nextId (jobs s)) jm;
  rt_workerIdMap :
    renumbered (owned userId (workers s)) (nextId (workers s)) wm;
  rt_customers :
    owned userId (customers s')
    = numbered customerCopy (nextId (customers s))
        (owned userId (customers s));
  rt_jobs :
    owned userId (jobs s')
    = numbered (jobCopy cm) (nextId (jobs s)) (owned userId (jobs s));
  rt_workers :
    owned userId (workers s')
    = numbered (workerCopy jm) (nextId (workers s))
        (owned userId (workers s));
  rt_expenses :
    owned userId (expenses s')
    = numbered (expenseCopy jm) (nextId (expenses s))
        (owned userId (expenses s));
  rt_inventory :
    owned userId (inventory s')
    = numbered (inventoryCopy jm) (nextId (inventory s))
        (owned userId (inventory s));
  rt_travel :
    owned userId (travel s')
    = numbered (travelCopy jm) (nextId (travel s))
        (owned userId (travel s));
  rt_notes :
    owned userId (notes s')
    = numbered (noteCopy now cm jm wm) (nextId (notes s))
        (owned userId (notes s));
  rt_attendance :
    owned userId (attendance s')
    = numbered (attendanceCopy jm wm) (nextId (attendance s))
        (owned userId (attendance s));
  rt_jobImages :
    owned userId (jobImages s')
    = numbered (jobImageCopy now) (nextId (jobImages s))
        (withParent jm ji_jobId (owned userId (jobImages s)));
  rt_workerDocuments :
    owned userId (workerDocuments s')
    = numbered (workerDocumentCopy now) (nextId (workerDocuments s))
        (withParent wm wd_workerId (owned userId (workerDocuments s)));
  rt_customerImages :
    owned userId (customerImages s')
    = numbered (customerImageCopy now) (nextId (customerImages s))
        (withParent cm ci_customerId (owned userId (customerImages s))) }.

(** A note and what a round trip made of it agree on every field but
    the id, and the second refers to something if the first did: what
    the specification asks of a round trip, for notes. *)
Definition noteKept (n n' : Note) : Prop :=
  n_userId n' = n_userId n ∧ n_type n' = n_type n
  ∧ n_section n' = n_section n ∧ n_attribute n' = n_attribute n
  ∧ n_content n' = n_content n ∧ n_createdAt n' = n_createdAt n
  ∧ (is_Some (n_referenceId n) → is_Some (n_referenceId n')).

(** The promise was rejected. *)
Definition rejected {A} (r : Err + A) : Prop := ∃ e, r = inl e.


(** No row of the table has the id [id] and the owner [userId]. *)
Definition missing {R} `{Row R} (id userId : Z) (t : Table R) : Prop :=
  ∀ r, r ∈ rows t → ¬ (rowId r = id ∧ rowUser r = userId).

(** The call rejects with [e] and leaves the store as it was. *)
Definition refuses {A} (call : Db A) (e : Err) (s : Store) : Prop :=
  call s = (s, inl e).

(** Some worker of [userId] is called [name]. *)
Definition nameTaken (name : Field string) (userId : Z) (s : Store) : bool :=
  bool_decide (Exists (named name userId) (rows (workers s))).

(** * Sample data *)

Definition emptyTable {R} : Table R := {| rows := []; nextId := 1 |}.

Definition emptyStore : Store :=
  {| customers := emptyTable; jobs := emptyTable; expenses := emptyTable;
     inventory := emptyTable; notes := emptyTable; travel := emptyTable;
     workers := emptyTable; attendance := emptyTable;
     jobImages := emptyTable; workerDocuments := emptyTable;
     customerImages := emptyTable |}.

Definition emptyDocument : Document :=
  {| data_customers := None; data_jobs := None; data_expenses := None;
     data_inventory := None; data_notes := None; data_travel := None;
     data_workers := None; data_attendance := None;
     data_jobImages := None; data_workerDocuments := None;
     data_customerImages := None |}.

Definition aCustomer (id : Z) (name : string) : CustomerJson :=
  {| dc_id := Val id; dc_userId := Val 3; dc_name := Val name;
     dc_phone := Val "555"; dc_address := Val "1 Rd" |}.

Definition aJob (id : Field Z) (customerId : Field Z) : JobJson :=
  {| dj_id := id; dj_userId := Val 3; dj_jobId := Val "4I01012024";
     dj_jobName := Null; dj_customerId := customerId;
     dj_category := Val "Interior painting";
     dj_description := Val "Paint hall"; dj_location := Val "1 Rd";
     dj_status := Val "quoted"; dj_quotedAmount := Val "100";
     dj_agreedAmount := Val "100"; dj_paidAmount := Val "0";
     dj_startDate := Null; dj_endDate := Null |}.

Definition aWorker (id : Z) (name : Field string) (jobId : Field Z)
  : WorkerJson :=
  {| dw_id := Val id; dw_userId := Val 3; dw_jobId := jobId;
     dw_name := name; dw_role := Val "Painter"; dw_phone := Null;
     dw_address := Null; dw_documentUrl := Null; dw_dailyWage := Val "500";
     dw_isActive := Val true; dw_rating := Val 4 |}.

Definition anExpense (jobId : Field Z) : ExpenseJson :=
  {| de_id := Val 1; de_userId := Val 3; de_jobId := jobId;
     de_category := Val "Paint"; de_description := Val "White, 20 l";
     de_amount := Val "40"; de_paidAmount := Val "40";
     de_paidFull := Val true; de_date := Val "2024-01-02";
     de_isRequired := Val true |}.

Definition anItem (jobId assignedToJobId : Field Z) : InventoryJson :=
  {| di_id := Val 3; di_userId := Val 3; di_jobId := jobId;
     di_name := Val "Brushes"; di_category := Val "Tools";
     di_quantity := Val "12"; di_unit := Val "pcs";
     di_costPerUnit := Val "2"; di_assignedToJobId := assignedToJobId |}.

Definition aTrip (jobId : Field Z) : TravelJson :=
  {| dt_id := Val 1; dt_userId := Val 3; dt_jobId := jobId;
     dt_date := Val "2024-01-03"; dt_kilometers := Val "12";
     dt_fuelCost := Val "3" |}.

Definition aNote (section : string) (referenceId : Field Z) : NoteJson :=
  {| dn_id := Val 1; dn_userId := Val 3; dn_type := Val "note";
     dn_section := Val section; dn_referenceId := referenceId;
     dn_attribute := Null; dn_content := Val "Call back";
     dn_createdAt := Val 50 |}.

Definition aDay (workerId jobId : Field Z) : AttendanceJson :=
  {| da_id := Val 1; da_userId := Val 3; da_workerId := workerId;
     da_jobId := jobId; da_date := Val "2024-01-04";
     da_status := Val "full"; da_extraAllowance := Null |}.

Definition aJobPhoto (jobId : Field Z) : JobImageJson :=
  {| dji_id := Val 1; dji_userId := Val 3; dji_jobId := jobId;
     dji_url := Val "/uploads/hall.jpg"; dji_description := Null;
     dji_createdAt := Val 50 |}.

Definition aWorkerDocument (workerId : Field Z) : WorkerDocumentJson :=
  {| dwd_id := Val 1; dwd_userId := Val 3; dwd_workerId := workerId;
     dwd_url := Val "/uploads/id.pdf"; dwd_name := Val "ID card";
     dwd_createdAt := Val 50 |}.

Definition aCustomerPhoto (customerId : Field Z) : CustomerImageJson :=
  {| dci_id := Val 1; dci_userId := Val 3; dci_customerId := customerId;
     dci_url := Val "/uploads/house.jpg"; dci_description := Null;
     dci_createdAt := Val 50 |}.

(** A backup with two customers, jobs that refer to customer 1 and to
    a customer 99 that is not in it, and children of every kind, some
    of them with a parent that is not in it. *)
Definition sampleDocument : Document :=
  {| data_customers := Some [aCustomer 1 "Alice"; aCustomer 2 "Bob"];
     data_jobs := Some [aJob (Val 10) (Val 1); aJob (Val 11) (Val 99)];
     data_expenses := Some [anExpense (Val 10); anExpense (Val 77)];
     data_inventory := Some [anItem (Val 10) (Val 11); anItem Null (Val 77)];
     data_notes :=
       Some [aNote "jobs" (Val 10); aNote "customers" (Val 2);
             aNote "workers" (Val 5); aNote "workers_attendance" (Val 11);
             aNote "inventory" (Val 3)];
     data_travel := Some [aTrip (Val 10); aTrip (Val 77)];
     data_workers :=
       Some [aWorker 5 (Val "Ravi") (Val 10);
             aWorker 6 (Val "Sam") (Val 77)];
     data_attendance := Some [aDay (Val 5) (Val 10); aDay (Val 9) (Val 77)];
     data_jobImages := Some [aJobPhoto (Val 77); aJobPhoto (Val 10)];
     data_workerDocuments :=
       Some [aWorkerDocument (Val 5); aWorkerDocument (Val 9)];
     data_customerImages :=
       Some [aCustomerPhoto (Val 99); aCustomerPhoto (Val 1)] |}.

(** The store of owner 7 after restoring the sample, and then owner 8
    restoring the same backup: the ids of the two owners interleave. *)
Definition shop7 : Store :=
  Eval vm_compute in fst (importData 7 100 sampleDocument emptyStore).

Definition twoShops : Store :=
  Eval vm_compute in fst (importData 8 200 sampleDocument shop7).

(** A backup whose third worker has no name. *)
Definition brokenDocument : Document :=
  {| data_customers := data_customers sampleDocument;
     data_jobs := data_jobs sampleDocument;
     data_expenses := data_expenses sampleDocument;
     data_inventory := data_inventory sampleDocument;
     data_notes := data_notes sampleDocument;
     data_travel := data_travel sampleDocument;
     data_workers :=
       Some [aWorker 5 (Val "Ravi") (Val 10); aWorker 6 (Val "Sam") Null;
             aWorker 7 Absent (Val 10)];
     data_attendance := data_attendance sampleDocument;
     data_jobImages := data_jobImages sampleDocument;
     data_workerDocuments := data_workerDocuments sampleDocument;
     data_customerImages := data_customerImages sampleDocument |}.

(** A backup whose customer has the id [0]. *)
Definition zeroDocument : Document :=
  {| data_customers := Some [aCustomer 0 "Zed"];
     data_jobs := Some [aJob (Val 10) (Val 0)];
     data_expenses := None; data_inventory := None; data_notes := None;
     data_travel := None; data_workers := None; data_attendance := None;
     data_jobImages := None; data_workerDocuments := None;
     data_customerImages := None |}.

Definition zeroShop : Store :=
  Eval vm_compute in fst (importData 7 100 zeroDocument emptyStore).

(** The store and the id maps of the restore of the sample over the
    two shops. *)
Definition restoredShops : Store :=
  Eval vm_compute in fst (importBody 7 300 sampleDocument twoShops).

Definition sampleCustomerIdMap : gmap Z Z := <[1:=5]> (<[2:=6]> ∅).
Definition sampleJobIdMap : gmap Z Z := <[10:=5]> (<[11:=6]> ∅).
Definition sampleWorkerIdMap : gmap Z Z := <[5:=5]> (<[6:=6]> ∅).

(** The platform on plain text: ASCII letters and decimal numbers.
    On such strings [plain] does what the engine and the store do; the
    samples hold no other. *)
Definition upperAscii (c : ascii) : ascii :=
  let n := Ascii.nat_of_ascii c in
  if ((97 <=? n) && (n <=? 122))%nat then Ascii.ascii_of_nat (n - 32)
  else c.

Fixpoint upperCase (s : string) : string :=
  match s with
  | EmptyString => EmptyString
  | String c s' => String (upperAscii c) (upperCase s')
  end.

Definition firstChar (s : string) : option string :=
  match s with
  | String c _ => Some (String c EmptyString)
  | EmptyString => None
  end.

Fixpoint noNul (s : string) : bool :=
  match s with
  | EmptyString => true
  | String c s' => negb (Nat.eqb (Ascii.nat_of_ascii c) 0) && noNul s'
  end.

Definition digit (c : ascii) : bool :=
  let n := Ascii.nat_of_ascii c in ((48 <=? n) && (n <=? 57))%nat.

Fixpoint digits (s : string) : bool :=
  match s with
  | EmptyString => true
  | String c s' => digit c && digits s'
  end.

(** Digits, and at most one point after the first of them. *)
Fixpoint decimalFrom (s : string) : bool :=
  match s with
  | EmptyString => true
  | String c s' =>
      if Ascii.eqb c "." then digits s' else digit c && decimalFrom s'
  end.

Definition decimal (s : string) : bool :=
  match s with
  | String c s' => digit c && decimalFrom s'
  | EmptyString => false
  end.

Definition plain : Platform :=
  {| charAt0 := firstChar; toUpperCase := upperCase; textIn := noNul;
     numericIn := decimal |}.

(** Owner 7 has a job; owner 8 books an expense on it. *)
Definition newYear : Date :=
  {| getDate := 1; getMonth := 0; getFullYear := 2024 |}.

Definition sharedJob : Store :=
  Eval vm_compute in
    fst (createExpense (platform := plain) (anExpense (Val 1)) 8
           (fst (createJob (platform := plain) newYear (aJob Absent Null) 7
                   emptyStore))).

(** Owner 7 has one inventory item, and the log entry that came with
    it. *)
Definition inventoryShop : Store :=
  Eval vm_compute in
    fst (createInventory (platform := plain) 50 (anItem Null Null) 7
           emptyStore).

Definition inventoryShopRestored : Store :=
  Eval vm_compute in
    fst (importData 7 60 (exported 7 inventoryShop) inventoryShop).

(** An update object that sets nothing, and one that sets the job
    code. *)
Definition noUpdates : JobJson :=
  {| dj_id := Absent; dj_userId := Absent; dj_jobId := Absent;
     dj_jobName := Absent; dj_customerId := Absent; dj_category := Absent;
     dj_description := Absent; dj_location := Absent; dj_status := Absent;
     dj_quotedAmount := Absent; dj_agreedAmount := Absent;
     dj_paidAmount := Absent; dj_startDate := Absent;
     dj_endDate := Absent |}.

(** A job without a category. *)
Definition plainJob : JobJson :=
  {| dj_id := Absent; dj_userId := Absent; dj_jobId := Absent;
     dj_jobName := Absent; dj_customerId := Absent; dj_category := Absent;
     dj_description := Val "Paint fence"; dj_location := Val "2 Rd";
     dj_status := Absent; dj_quotedAmount := Val "80";
     dj_agreedAmount := Absent; dj_paidAmount := Absent;
     dj_startDate := Absent; dj_endDate := Absent |}.


Definition statusUpdate : JobJson :=
  {| dj_id := Absent; dj_userId := Absent; dj_jobId := Absent;
     dj_jobName := Val "Hall"; dj_customerId := Absent;
     dj_category := Val "Exterior painting"; dj_description := Absent;
     dj_location := Absent; dj_status := Val "completed";
     dj_quotedAmount := Absent; dj_agreedAmount := Absent;
     dj_paidAmount := Val "100"; dj_startDate := Absent;
     dj_endDate := Val "2024-02-01" |}.

(** Owner 7 after creating one job on new year's day. *)
Definition oneJob : Store :=
  Eval vm_compute in
    fst (createJob (platform := plain) newYear (aJob Absent Null) 7
           emptyStore).

(** More update objects: a quoted amount that is no number, the
    assignment and the quantity of an item, the payment of an expense,
    the text of a note, the name of a worker. *)
Definition badAmount : JobJson :=
  {| dj_id := Absent; dj_userId := Absent; dj_jobId := Absent;
     dj_jobName := Absent; dj_customerId := Absent; dj_category := Absent;
     dj_description := Absent; dj_location := Absent; dj_status := Absent;
     dj_quotedAmount := Val "abc"; dj_agreedAmount := Absent;
     dj_paidAmount := Absent; dj_startDate := Absent;
     dj_endDate := Absent |}.

Definition moveItem (assignedToJobId : Field Z) (quantity : Field string)
  : InventoryJson :=
  {| di_id := Absent; di_userId := Absent; di_jobId := Absent;
     di_name := Absent; di_category := Absent; di_quantity := quantity;
     di_unit := Absent; di_costPerUnit := Absent;
     di_assignedToJobId := assignedToJobId |}.

Definition paidUpdate : ExpenseJson :=
  {| de_id := Absent; de_userId := Absent; de_jobId := Absent;
     de_category := Absent; de_description := Absent; de_amount := Absent;
     de_paidAmount := Val "40"; de_paidFull := Val true; de_date := Absent;
     de_isRequired := Absent |}.

Definition noteEdit : NoteJson :=
  {| dn_id := Absent; dn_userId := Absent; dn_type := Absent;
     dn_section := Absent; dn_referenceId := Absent; dn_attribute := Absent;
     dn_content := Val "Called back"; dn_createdAt := Absent |}.

Definition rename (name : Field string) : WorkerJson :=
  {| dw_id := Absent; dw_userId := Absent; dw_jobId := Absent;
     dw_name := name; dw_role := Absent; dw_phone := Absent;
     dw_address := Absent; dw_documentUrl := Absent; dw_dailyWage := Absent;
     dw_isActive := Absent; dw_rating := Absent |}.

(** * Proofs *)

(** ** The store and its loops *)

Ltac lens_ok := constructor; [ done | done | by intros [] ].

#[export] Instance customersT_ok : LensOk customersT. Proof. lens_ok. Qed.
#[export] Instance jobsT_ok : LensOk jobsT. Proof. lens_ok. Qed.
#[export] Instance expensesT_ok : LensOk expensesT. Proof. lens_ok. Qed.
#[export] Instance inventoryT_ok : LensOk inventoryT. Proof. lens_ok. Qed.
#[export] Instance notesT_ok : LensOk notesT. Proof. lens_ok. Qed.
#[export] Instance travelT_ok : LensOk travelT. Proof. lens_ok. Qed.
#[export] Instance workersT_ok : LensOk workersT. Proof. lens_ok. Qed.
#[export] Instance attendanceT_ok : LensOk attendanceT. Proof. lens_ok. Qed.
#[export] Instance jobImagesT_ok : LensOk jobImagesT. Proof. lens_ok. Qed.
#[export] Instance workerDocumentsT_ok : LensOk workerDocumentsT. Proof. lens_ok. Qed.
#[export] Instance customerImagesT_ok : LensOk customerImagesT. Proof. lens_ok. Qed.

(** [owned] is what the storage getters return. *)
Lemma getCustomers_owned userId s :
  getCustomers userId s = (s, inr (owned userId (customers s))).
Proof. reflexivity. Qed.

Lemma getJobs_owned userId s :
  getJobs userId s = (s, inr (owned userId (jobs s))).
Proof. reflexivity. Qed.

Lemma forOf_ext {X St} (xs : list X) (f g : X → St → Db St) st s :
  (∀ x st s, f x st s = g x st s) → forOf xs f st s = forOf xs g st s.
Proof.
  intros Hfg. revert st s.
  induction xs as [|x xs IH]; intros st s; [done|].
  simpl. unfold bind. rewrite Hfg.
  destruct (g x st s) as [s1 [e|st1]]; [done|]. apply IH.
Qed.

Lemma bind_inv {A B} (m : Db A) (k : A → Db B) s s' b :
  bind m k s = (s', inr b) →
  ∃ s1 a, m s = (s1, inr a) ∧ k a s1 = (s', inr b).
Proof.
  unfold bind. destruct (m s) as [s1 [e|a]]; [done|]. by exists s1, a.
Qed.

Lemma bind_ok {A B} (m : Db A) (k : A → Db B) s s1 a :
  m s = (s1, inr a) → bind m k s = k a s1.
Proof. unfold bind. by intros ->. Qed.

Lemma insert_inv {R} `{Row R} (L : Lens R) fks values s s' r :
  insert L fks values s = (s', inr r) →
  values (nextId (lget L s)) = inr r
  ∧ hasId (lget L s) (rowId r) = false
  ∧ fks s r = true
  ∧ s' = lset L {| rows := rows (lget L s) ++ [r];
                   nextId := nextId (lget L s) + 1 |} s.
Proof.
  unfold insert. cbv zeta.
  destruct (values (nextId (lget L s))) as [e|r0]; [done|].
  destruct (hasId (lget L s) (rowId r0)) eqn:Hid; [done|].
  destruct (fks s r0) eqn:Hfk; [|done].
  intros [= <- <-]. by rewrite Hid, Hfk.
Qed.

Lemma insert_ok {R} `{Row R} (L : Lens R) fks values s r :
  values (nextId (lget L s)) = inr r →
  hasId (lget L s) (rowId r) = false →
  fks s r = true →
  insert L fks values s
  = (lset L {| rows := rows (lget L s) ++ [r];
               nextId := nextId (lget L s) + 1 |} s, inr r).
Proof. unfold insert. cbv zeta. by intros -> -> ->. Qed.

Lemma hasId_fresh {R} `{Row R} (t : Table R) k :
  (∀ r, r ∈ rows t → rowId r < nextId t) → nextId t ≤ k →
  hasId t k = false.
Proof.
  intros Hwf Hk. unfold hasId. apply not_true_is_false. intros Hex.
  apply existsb_exists in Hex as (r & Hin & Heq).
  apply bool_decide_eq_true in Heq.
  apply list_elem_of_In, Hwf in Hin. lia.
Qed.

Lemma hasId_elem {R} `{Row R} (t : Table R) r :
  r ∈ rows t → hasId t (rowId r) = true.
Proof.
  intros Hin. unfold hasId. apply existsb_exists. exists r.
  split; [by apply list_elem_of_In|by apply bool_decide_eq_true].
Qed.

Section insert_loop.
Context {X R St : Type} `{Row R} (L : Lens R) `{!LensOk L}.
Context (fks : Store → R → bool).
Context (values : X → option (Z → Err + R)) (upd : X → R → St → St).

Lemma appended_nil s : appended L [] s = s.
Proof.
  unfold appended. simpl. rewrite app_nil_r, Z.add_0_r.
  transitivity (lset L (lget L s) s); [|apply set_get].
  f_equal. by destruct (lget L s).
Qed.

Lemma appended_cons r rs s :
  appended L rs (lset L {| rows := rows (lget L s) ++ [r];
                         nextId := nextId (lget L s) + 1 |} s)
  = appended L (r :: rs) s.
Proof.
  unfold appended. rewrite set_set, get_set. simpl.
  rewrite <- app_assoc. simpl. do 2 f_equal. lia.
Qed.

(** What a loop that resolved has done. *)
Lemma forOf_insertStep_inv xs : ∀ st s s' st',
  forOf xs (insertStep L fks values upd) st s = (s', inr st') →
  ∃ rs, Inserted values upd (nextId (lget L s)) st xs rs st'
        ∧ s' = appended L rs s.
Proof.
  induction xs as [|x xs IH]; intros st s s' st' Hrun.
  - simpl in Hrun. injection Hrun as <- <-. exists [].
    split; [constructor|]. by rewrite appended_nil.
  - simpl in Hrun. apply bind_inv in Hrun as (s1 & st1 & Hstep & Hrun).
    unfold insertStep in Hstep. destruct (values x) as [v|] eqn:Hv.
    + apply bind_inv in Hstep as (s2 & r & Hi & Hret).
      injection Hret as <- <-.
      apply insert_inv in Hi as (Hr & _ & _ & ->).
      apply IH in Hrun as (rs & Hins & ->).
      rewrite get_set in Hins. simpl in Hins.
      exists (r :: rs). split; [by econstructor|].
      apply appended_cons.
    + injection Hstep as <- <-. apply IH in Hrun as (rs & Hins & ->).
      exists rs. split; [by constructor|done].
Qed.

(** A loop resolves when every row it builds is accepted: the
    builder succeeds, numbers the row with the id it is given, and
    the row's foreign keys have targets, whatever this table holds. *)
Lemma forOf_insertStep_ok xs : ∀ st s,
  (∀ r, r ∈ rows (lget L s) → rowId r < nextId (lget L s)) →
  (∀ x v n, x ∈ xs → values x = Some v →
     ∃ r, v n = inr r ∧ rowId r = n ∧ ∀ t, fks (lset L t s) r = true) →
  ∃ rs st', forOf xs (insertStep L fks values upd) st s
            = (appended L rs s, inr st').
Proof.
  induction xs as [|x xs IH]; intros st s Hwf Hok.
  - exists [], st. simpl. by rewrite appended_nil.
  - simpl. unfold insertStep at 1.
    destruct (values x) as [v|] eqn:Hv.
    + destruct (Hok x v (nextId (lget L s))) as (r & Hr & Hid & Hfk);
        [by left|done|].
      specialize (Hfk (lget L s)). rewrite set_get in Hfk.
      set (s1 := lset L {| rows := rows (lget L s) ++ [r];
                           nextId := nextId (lget L s) + 1 |} s).
      destruct (IH (upd x r st) s1) as (rs & st' & Hrun).
      * unfold s1. rewrite get_set. simpl. intros r' Hin.
        apply elem_of_app in Hin as [Hin|Hin].
        -- apply Hwf in Hin. lia.
        -- apply list_elem_of_singleton in Hin as ->. lia.
      * intros x' v' n Hin Hv'.
        destruct (Hok x' v' n) as (r' & Hr' & Hid' & Hfk');
          [by right|done|].
        exists r'. split_and!; [done|done|].
        intros t. unfold s1. by rewrite set_set.
      * exists (r :: rs), st'.
        erewrite bind_ok; [|erewrite bind_ok; [reflexivity|]].
        -- rewrite Hrun. f_equal. apply appended_cons.
        -- apply insert_ok; [done| |done].
           apply hasId_fresh; [done|lia].
    + destruct (IH st s) as (rs & st' & Hrun); [done| |].
      * intros x' v' n Hin. apply Hok. by right.
      * exists rs, st'. by erewrite bind_ok.
Qed.

Lemma appended_inj rs rs' s : appended L rs s = appended L rs' s → rs = rs'.
Proof.
  intros Heq. apply (f_equal (λ s, rows (lget L s))) in Heq.
  unfold appended in Heq. rewrite !get_set in Heq. simpl in Heq.
  by apply app_inv_head in Heq.
Qed.

Lemma forOf_insertStep_run xs st s :
  (∀ r, r ∈ rows (lget L s) → rowId r < nextId (lget L s)) →
  (∀ x v n, x ∈ xs → values x = Some v →
     ∃ r, v n = inr r ∧ rowId r = n ∧ ∀ t, fks (lset L t s) r = true) →
  ∃ rs st', forOf xs (insertStep L fks values upd) st s
            = (appended L rs s, inr st')
            ∧ Inserted values upd (nextId (lget L s)) st xs rs st'.
Proof.
  intros Hwf Hok.
  destruct (forOf_insertStep_ok xs st s Hwf Hok) as (rs & st' & Hrun).
  exists rs, st'. split; [done|].
  apply forOf_insertStep_inv in Hrun as (rs' & Hins & Heq).
  by rewrite (appended_inj _ _ _ Heq).
Qed.
End insert_loop.

(** ** What the rows of a loop look like *)

Section inserted.
Context {X R St : Type} `{Row R}.
Context (values : X → option (Z → Err + R)) (upd : X → R → St → St).

Lemma kept_all xs : (∀ x, x ∈ xs → is_Some (values x)) → kept values xs = xs.
Proof.
  intros Hall. unfold kept. induction xs as [|x xs IH]; [done|].
  rewrite filter_cons_True by (apply Hall; by left).
  f_equal. apply IH. intros x' Hin. apply Hall. by right.
Qed.

Lemma Inserted_length n st xs rs st' :
  Inserted values upd n st xs rs st' → length rs = length (kept values xs).
Proof.
  unfold kept. induction 1 as [| n st x xs rs st' Hv _ IH
                               | n st x xs v r rs st' Hv Hr _ IH].
  - done.
  - rewrite filter_cons_False; [done|]. rewrite Hv. by intros [? ?].
  - rewrite filter_cons_True by (by rewrite Hv). simpl. by rewrite IH.
Qed.

(** The [i]-th inserting element is stored as the [i]-th row, under
    the [i]-th id. *)
Lemma Inserted_lookup n st xs rs st' :
  Inserted values upd n st xs rs st' →
  ∀ i x, kept values xs !! i = Some x →
    ∃ v r, values x = Some v ∧ rs !! i = Some r
           ∧ v (n + Z.of_nat i) = inr r.
Proof.
  unfold kept. induction 1 as [| n st x xs rs st' Hv _ IH
                               | n st x xs v r rs st' Hv Hr _ IH];
    intros i y Hy.
  - done.
  - rewrite filter_cons_False in Hy; [by apply IH|].
    rewrite Hv. by intros [? ?].
  - rewrite filter_cons_True in Hy by (by rewrite Hv).
    destruct i as [|i]; simpl in Hy.
    + injection Hy as <-. exists v, r. by rewrite Z.add_0_r.
    + destruct (IH i y Hy) as (v' & r' & Hv' & Hr' & Hb).
      exists v', r'. split_and!; [done|done|].
      by replace (n + Z.of_nat (S i)) with (n + 1 + Z.of_nat i) by lia.
Qed.

Lemma Inserted_lookup_row n st xs rs st' :
  Inserted values upd n st xs rs st' →
  ∀ i r, rs !! i = Some r →
    ∃ x v, kept values xs !! i = Some x ∧ values x = Some v
           ∧ v (n + Z.of_nat i) = inr r.
Proof.
  intros Hins i r Hr.
  assert (is_Some (kept values xs !! i)) as [x Hx].
  { apply lookup_lt_is_Some. rewrite <- (Inserted_length _ _ _ _ _ Hins).
    by eapply lookup_lt_Some. }
  destruct (Inserted_lookup _ _ _ _ _ Hins i x Hx) as (v & r' & ? & ? & ?).
  exists x, v. naive_solver.
Qed.

(** Every row of the loop belongs to [userId] when the builders say
    so. *)
Lemma Inserted_owner userId n st xs rs st' :
  (∀ x v k r, values x = Some v → v k = inr r → rowUser r = userId) →
  Inserted values upd n st xs rs st' →
  Forall (λ r, rowUser r = userId) rs.
Proof.
  intros Hu Hins. apply Forall_lookup. intros i r Hr.
  destruct (Inserted_lookup_row _ _ _ _ _ Hins i r Hr) as (x & v & _ & ? & ?).
  by eapply Hu.
Qed.
End inserted.

(** ** The id maps *)

Section id_map.
Context {X R : Type} `{Row R}.
Context (oid : X → Field Z) (mk : X → Z → Err + R).
Context (Hid : ∀ x n r, mk x n = inr r → rowId r = n).

(** An old id no element carries, and [0], keep what they had. *)
Lemma idmap_miss n (m0 : gmap Z Z) xs rs m k :
  Inserted (always mk) (remembering oid) n m0 xs rs m →
  k = 0 ∨ (∀ x, x ∈ xs → oid x ≠ Val k) →
  m !! k = m0 !! k.
Proof.
  induction 1 as [| n st x xs rs st' Hv _ IH
                  | n st x xs v r rs st' Hv Hr _ IH]; intros Hk.
  - done.
  - done.
  - rewrite IH.
    + unfold remembering, remember. destruct (truthy (oid x)) eqn:Ht; [|done].
      apply lookup_insert_ne.
      destruct (oid x) as [| |z] eqn:Hoid; try done.
      simpl in *. intros Heq. subst z. destruct Hk as [->|Hk].
      * by rewrite Z.eqb_refl in Ht.
      * apply (Hk x); [by left|done].
    + destruct Hk as [?|Hk]; [by left|right].
      intros x' Hin. apply Hk. by right.
Qed.

(** An old id is mapped to the new id of the last element that carries
    it. *)
Lemma idmap_hit n (m0 : gmap Z Z) xs rs m :
  Inserted (always mk) (remembering oid) n m0 xs rs m →
  ∀ p x k, xs !! p = Some x → oid x = Val k → k ≠ 0 →
    (∀ q x', xs !! q = Some x' → oid x' = Val k → (q ≤ p)%nat) →
    m !! k = Some (n + Z.of_nat p).
Proof.
  induction 1 as [| n st x xs rs st' Hv _ IH
                  | n st x xs v r rs st' Hv Hr Hins IH];
    intros p y k Hy Hoid Hk Hlast.
  - done.
  - done.
  - unfold always in Hv. injection Hv as <-.
    destruct p as [|p]; simpl in Hy.
    + injection Hy as <-.
      rewrite (idmap_miss _ _ _ _ _ k Hins).
      * unfold remembering, remember. rewrite Hoid. simpl.
        destruct (Z.eqb_spec k 0) as [|_]; [done|]. simpl.
        rewrite lookup_insert_eq. f_equal.
        rewrite (Hid _ _ _ Hr). lia.
      * right. intros x' Hin Hx'.
        apply list_elem_of_lookup in Hin as [q Hq].
        specialize (Hlast (S q) x' Hq Hx'). lia.
    + rewrite (IH p y k Hy Hoid Hk).
      * f_equal. lia.
      * intros q x' Hq Hx'. specialize (Hlast (S q) x' Hq Hx'). lia.
Qed.

(** Whatever the map holds was there before or is the new id of an
    element carrying that old id. *)
Lemma idmap_range n (m0 : gmap Z Z) xs rs m :
  Inserted (always mk) (remembering oid) n m0 xs rs m →
  ∀ k v, m !! k = Some v →
    m0 !! k = Some v
    ∨ ∃ p x, xs !! p = Some x ∧ oid x = Val k ∧ k ≠ 0
             ∧ v = n + Z.of_nat p.
Proof.
  induction 1 as [| n st x xs rs st' Hv _ IH
                  | n st x xs v r rs st' Hv Hr Hins IH];
    intros k w Hw.
  - by left.
  - done.
  - unfold always in Hv. injection Hv as <-.
    destruct (IH k w Hw) as [Hold|Hnew].
    + unfold remembering, remember in Hold.
      destruct (truthy (oid x)) eqn:Ht; [|by left].
      destruct (oid x) as [| |z] eqn:Hoid; try done. simpl in *.
      destruct (decide (z = k)) as [->|Hne].
      * rewrite lookup_insert_eq in Hold. injection Hold as <-.
        right. exists 0%nat, x. split_and!; [done|done| |].
        -- intros ->. by rewrite Z.eqb_refl in Ht.
        -- rewrite (Hid _ _ _ Hr). lia.
      * rewrite lookup_insert_ne in Hold by done. by left.
    + destruct Hnew as (p & y & Hy & Hoid & Hk & ->).
      right. exists (S p), y. split_and!; [done|done|done|lia].
Qed.
End id_map.

(** ** Deleting *)

Lemma delete_inv {R} `{Row R} (L : Lens R) refd (cond : R → Prop)
    `{∀ r, Decision (cond r)} s s' :
  delete L refd cond s = (s', inr tt) →
  s' = lset L {| rows := filter (λ r, ¬ cond r) (rows (lget L s));
                 nextId := nextId (lget L s) |} s.
Proof.
  unfold delete. cbv zeta. destruct (existsb _ _); [done|]. by intros [= <-].
Qed.

Lemma delete_ok {R} `{Row R} (L : Lens R) refd (cond : R → Prop)
    `{∀ r, Decision (cond r)} s :
  let s1 := lset L {| rows := filter (λ r, ¬ cond r) (rows (lget L s));
                      nextId := nextId (lget L s) |} s in
  (∀ r, r ∈ rows (lget L s) → cond r → refd s1 (rowId r) = false) →
  delete L refd cond s = (s1, inr tt).
Proof.
  intros s1 Hfree. unfold delete. cbv zeta. fold s1.
  destruct (existsb _ _) eqn:Hex; [|done].
  apply existsb_exists in Hex as (r & Hin & Hr).
  apply andb_true_iff in Hr as [Hc Hrefd].
  apply bool_decide_eq_true in Hc. apply list_elem_of_In in Hin.
  by rewrite (Hfree r Hin Hc) in Hrefd.
Qed.

(** ** The row builders *)

Lemma ebind_inr {A B} (r : Err + A) (k : A → Err + B) b :
  ebind r k = inr b → ∃ a, r = inr a ∧ k a = inr b.
Proof. destruct r as [e|a]; [done|]. by exists a. Qed.

Ltac row_builder :=
  let H := fresh in
  intros H;
  repeat (apply ebind_inr in H as (? & _ & H));
  injection H as <-; done.

Lemma customerRow_keys rest u k r :
  customerRow rest u k = inr r → c_id r = k ∧ c_userId r = u.
Proof. unfold customerRow. row_builder. Qed.

Lemma jobRow_keys rest u code fk agreed k r :
  jobRow rest u code fk agreed k = inr r →
  j_id r = k ∧ j_userId r = u ∧ j_jobId r = nullable code
  ∧ j_customerId r = nullable fk.
Proof. unfold jobRow. row_builder. Qed.

Lemma expenseRow_keys rest u fk k r :
  expenseRow rest u fk k = inr r →
  e_id r = k ∧ e_userId r = u ∧ e_jobId r = nullable fk.
Proof. unfold expenseRow. row_builder. Qed.

Lemma inventoryRow_keys rest u fk fk' k r :
  inventoryRow rest u fk fk' k = inr r →
  i_id r = k ∧ i_userId r = u ∧ i_jobId r = nullable fk
  ∧ i_assignedToJobId r = nullable fk'.
Proof. unfold inventoryRow. row_builder. Qed.

Lemma noteRow_keys now rest u fk k r :
  noteRow now rest u fk k = inr r →
  n_id r = k ∧ n_userId r = u ∧ n_referenceId r = nullable fk
  ∧ n_createdAt r = now ∧ dn_section rest = Val (n_section r).
Proof.
  unfold noteRow. intros Hr.
  apply ebind_inr in Hr as (? & _ & Hr).
  apply ebind_inr in Hr as (sec & Hsec & Hr).
  apply ebind_inr in Hr as (? & _ & Hr).
  injection Hr as <-. simpl. split_and!; try done.
  destruct (dn_section rest); simpl in Hsec; congruence.
Qed.

Lemma travelRow_keys rest u fk k r :
  travelRow rest u fk k = inr r →
  t_id r = k ∧ t_userId r = u ∧ t_jobId r = nullable fk.
Proof. unfold travelRow. row_builder. Qed.

Lemma workerRow_keys rest u fk k r :
  workerRow rest u fk k = inr r →
  w_id r = k ∧ w_userId r = u ∧ w_jobId r = nullable fk.
Proof. unfold workerRow. row_builder. Qed.

Lemma attendanceRow_keys rest u fk fk' k r :
  attendanceRow rest u fk fk' k = inr r →
  a_id r = k ∧ a_userId r = u ∧ a_workerId r = nullable fk
  ∧ a_jobId r = nullable fk'.
Proof. unfold attendanceRow. row_builder. Qed.

Lemma jobImageRow_keys now rest u fk k r :
  jobImageRow now rest u fk k = inr r →
  ji_id r = k ∧ ji_userId r = u ∧ ji_jobId r = fk ∧ ji_createdAt r = now.
Proof. unfold jobImageRow. row_builder. Qed.

Lemma workerDocumentRow_keys now rest u fk k r :
  workerDocumentRow now rest u fk k = inr r →
  wd_id r = k ∧ wd_userId r = u ∧ wd_workerId r = fk
  ∧ wd_createdAt r = now.
Proof. unfold workerDocumentRow. row_builder. Qed.

Lemma customerImageRow_keys now rest u fk k r :
  customerImageRow now rest u fk k = inr r →
  ci_id r = k ∧ ci_userId r = u ∧ ci_customerId r = fk
  ∧ ci_createdAt r = now.
Proof. unfold customerImageRow. row_builder. Qed.

Lemma nullable_ofOption {A} (o : option A) : nullable (ofOption o) = o.
Proof. by destruct o. Qed.

(** ** The delete phase *)

Ltac store_simpl :=
  cbn [lget lset customersT jobsT expensesT inventoryT notesT travelT
       workersT attendanceT jobImagesT workerDocumentsT customerImagesT
       set_customers set_jobs set_expenses set_inventory set_notes
       set_travel set_workers set_attendance set_jobImages
       set_workerDocuments set_customerImages
       customers jobs expenses inventory notes travel workers attendance
       jobImages workerDocuments customerImages rows nextId].

Ltac store_simpl_in H :=
  cbn [lget lset customersT jobsT expensesT inventoryT notesT travelT
       workersT attendanceT jobImagesT workerDocumentsT customerImagesT
       set_customers set_jobs set_expenses set_inventory set_notes
       set_travel set_workers set_attendance set_jobImages
       set_workerDocuments set_customerImages
       customers jobs expenses inventory notes travel workers attendance
       jobImages workerDocuments customerImages rows nextId] in H.

Lemma deleteOwned_inv userId s s' :
  deleteOwned userId s = (s', inr tt) → s' = cleared userId s.
Proof.
  unfold deleteOwned. intros Hrun. destruct s.
  do 10 (let s1 := fresh "s" in let H1 := fresh in
         apply bind_inv in Hrun as (s1 & [] & H1%delete_inv & Hrun);
         store_simpl_in H1; subst s1).
  apply delete_inv in Hrun. store_simpl_in Hrun. by subst.
Qed.

Lemma forallb_owned {R} `{Row R} (f : R → bool) userId (t : Table R) r :
  forallb f (owned userId t) = true → r ∈ rows t → rowUser r = userId →
  f r = true.
Proof.
  intros Hall Hin Hu. rewrite forallb_forall in Hall. apply Hall.
  apply list_elem_of_In, list_elem_of_filter. done.
Qed.

Lemma deleteOwned_ok userId s :
  unreferencedByOthers userId s = true →
  deleteOwned userId s = (cleared userId s, inr tt).
Proof.
  unfold unreferencedByOthers. intros Hfree.
  apply andb_true_iff in Hfree as [Hfree Hc].
  apply andb_true_iff in Hfree as [Hw Hj].
  unfold deleteOwned. destruct s.
  do 8 (erewrite bind_ok; [|by apply delete_ok]; store_simpl).
  erewrite bind_ok.
  2:{ apply delete_ok. store_simpl. intros r Hin Hu.
      apply negb_true_iff.
      apply (forallb_owned _ _ _ _ Hw Hin Hu). }
  store_simpl.
  erewrite bind_ok.
  2:{ apply delete_ok. store_simpl. intros r Hin Hu.
      apply negb_true_iff.
      apply (forallb_owned _ _ _ _ Hj Hin Hu). }
  store_simpl.
  erewrite delete_ok; [reflexivity|].
  store_simpl. intros r Hin Hu. apply negb_true_iff.
  apply (forallb_owned _ _ _ _ Hc Hin Hu).
Qed.

(** ** The insert phase, loop by loop *)

Lemma importCustomer_step userId c st s :
  importCustomer userId c st s
  = insertStep customersT noFks (customerValues userId)
      (remembering dc_id) c st s.
Proof. reflexivity. Qed.

Lemma importJob_step userId customerIdMap j st s :
  importJob userId customerIdMap j st s
  = insertStep jobsT fkJobs (jobValues userId customerIdMap)
      (remembering dj_id) j st s.
Proof. reflexivity. Qed.

Lemma importWorker_step userId jobIdMap w st s :
  importWorker userId jobIdMap w st s
  = insertStep workersT fkWorkers (workerValues userId jobIdMap)
      (remembering dw_id) w st s.
Proof. reflexivity. Qed.

Lemma importExpense_step userId jobIdMap e st s :
  importExpense userId jobIdMap e st s
  = insertStep expensesT fkExpenses (expenseValues userId jobIdMap)
      stateless e st s.
Proof. reflexivity. Qed.

Lemma importInventory_step userId jobIdMap i st s :
  importInventory userId jobIdMap i st s
  = insertStep inventoryT fkInventory (inventoryValues userId jobIdMap)
      stateless i st s.
Proof. reflexivity. Qed.

Lemma importTravel_step userId jobIdMap t st s :
  importTravel userId jobIdMap t st s
  = insertStep travelT fkTravel (travelValues userId jobIdMap)
      stateless t st s.
Proof. reflexivity. Qed.

Lemma importNote_step userId now cm jm wm n st s :
  importNote userId now cm jm wm n st s
  = insertStep notesT noFks (noteValues userId now cm jm wm)
      stateless n st s.
Proof. reflexivity. Qed.

Lemma importAttendance_step userId jobIdMap workerIdMap a st s :
  importAttendance userId jobIdMap workerIdMap a st s
  = insertStep attendanceT fkAttendance
      (attendanceValues userId jobIdMap workerIdMap) stateless a st s.
Proof. reflexivity. Qed.

Lemma importJobImage_step userId now jobIdMap ji st s :
  importJobImage userId now jobIdMap ji st s
  = insertStep jobImagesT fkJobImages (jobImageValues userId now jobIdMap)
      stateless ji st s.
Proof.
  unfold importJobImage, insertStep, jobImageValues.
  destruct st. by destruct (usable _).
Qed.

Lemma importWorkerDocument_step userId now workerIdMap wd st s :
  importWorkerDocument userId now workerIdMap wd st s
  = insertStep workerDocumentsT fkWorkerDocuments
      (workerDocumentValues userId now workerIdMap) stateless wd st s.
Proof.
  unfold importWorkerDocument, insertStep, workerDocumentValues.
  destruct st. by destruct (usable _).
Qed.

Lemma importCustomerImage_step userId now customerIdMap ci st s :
  importCustomerImage userId now customerIdMap ci st s
  = insertStep customerImagesT fkCustomerImages
      (customerImageValues userId now customerIdMap) stateless ci st s.
Proof.
  unfold importCustomerImage, insertStep, customerImageValues.
  destruct st. by destruct (usable _).
Qed.

Lemma filter_all {A} (P : A → Prop) `{∀ x, Decision (P x)} (l : list A) :
  Forall P l → filter P l = l.
Proof.
  induction 1 as [|x l Hx _ IH]; [done|]. by rewrite filter_cons_True, IH.
Qed.

Lemma filter_none {A} (P : A → Prop) `{∀ x, Decision (P x)} (l : list A) :
  Forall (λ x, ¬ P x) l → filter P l = [].
Proof.
  induction 1 as [|x l Hx _ IH]; [done|]. by rewrite filter_cons_False.
Qed.

Lemma owned_others {R} `{Row R} userId (t : Table R) rs :
  Forall (λ r, rowUser r = userId) rs →
  filter (λ r, rowUser r = userId) (others userId t ++ rs) = rs.
Proof.
  intros Hrs. rewrite filter_app, (filter_all _ rs Hrs), filter_none; [done|].
  apply Forall_forall. intros r Hin.
  unfold others in Hin. apply list_elem_of_filter in Hin. tauto.
Qed.

Lemma restored_intro {X R St} `{Row R} userId
    (values : X → option (Z → Err + R)) (upd : X → R → St → St)
    xs st st' (t t' : Table R) rs :
  (∀ x v k r, values x = Some v → v k = inr r → rowUser r = userId) →
  Inserted values upd (nextId t) st xs rs st' →
  rows t' = others userId t ++ rs →
  nextId t' = nextId t + Z.of_nat (length rs) →
  restored userId values upd xs st st' t t'.
Proof.
  intros Hu Hins Hrows Hnext.
  assert (owned userId t' = rs) as Ho.
  { unfold owned. rewrite Hrows. apply owned_others.
    by eapply Inserted_owner. }
  unfold restored. by rewrite Ho.
Qed.

Ltac owner_of_row :=
  let Hv := fresh in let Hr := fresh in
  intros ? ? ? ? Hv Hr;
  first [ injection Hv as <-
        | apply fmap_Some in Hv as (? & _ & ->) ];
  first [ apply customerRow_keys in Hr
        | apply jobRow_keys in Hr
        | apply workerRow_keys in Hr
        | apply expenseRow_keys in Hr
        | apply inventoryRow_keys in Hr
        | apply travelRow_keys in Hr
        | apply noteRow_keys in Hr
        | apply attendanceRow_keys in Hr
        | apply jobImageRow_keys in Hr
        | apply workerDocumentRow_keys in Hr
        | apply customerImageRow_keys in Hr ];
  tauto.

(** The restore, when its callback resolves. *)
Lemma importBody_inv userId now data s s' cm jm wm :
  importBody userId now data s = (s', inr (cm, jm, wm)) →
  ImportResult userId now data s s' cm jm wm.
Proof.
  unfold importBody. intros Hrun.
  apply bind_inv in Hrun as (s0 & [] & ->%deleteOwned_inv & Hrun).
  apply bind_inv in Hrun as (s1 & cm' & Hc & Hrun).
  apply bind_inv in Hrun as (s2 & jm' & Hj & Hrun).
  apply bind_inv in Hrun as (s3 & wm' & Hw & Hrun).
  apply bind_inv in Hrun as (s4 & [] & He & Hrun).
  apply bind_inv in Hrun as (s5 & [] & Hi & Hrun).
  apply bind_inv in Hrun as (s6 & [] & Ht & Hrun).
  apply bind_inv in Hrun as (s7 & [] & Hn & Hrun).
  apply bind_inv in Hrun as (s8 & [] & Ha & Hrun).
  apply bind_inv in Hrun as (s9 & [] & Hji & Hrun).
  apply bind_inv in Hrun as (s10 & [] & Hwd & Hrun).
  apply bind_inv in Hrun as (s11 & [] & Hci & Hrun).
  injection Hrun as <- <- <- <-.
  rewrite (forOf_ext _ _ _ _ _ (importCustomer_step userId)) in Hc.
  rewrite (forOf_ext _ _ _ _ _ (importJob_step userId cm')) in Hj.
  rewrite (forOf_ext _ _ _ _ _ (importWorker_step userId jm')) in Hw.
  rewrite (forOf_ext _ _ _ _ _ (importExpense_step userId jm')) in He.
  rewrite (forOf_ext _ _ _ _ _ (importInventory_step userId jm')) in Hi.
  rewrite (forOf_ext _ _ _ _ _ (importTravel_step userId jm')) in Ht.
  rewrite (forOf_ext _ _ _ _ _ (importNote_step userId now cm' jm' wm'))
    in Hn.
  rewrite (forOf_ext _ _ _ _ _ (importAttendance_step userId jm' wm'))
    in Ha.
  rewrite (forOf_ext _ _ _ _ _ (importJobImage_step userId now jm')) in Hji.
  rewrite (forOf_ext _ _ _ _ _ (importWorkerDocument_step userId now wm'))
    in Hwd.
  rewrite (forOf_ext _ _ _ _ _ (importCustomerImage_step userId now cm'))
    in Hci.
  apply forOf_insertStep_inv in Hc as (rc & Hrc & ->); [|apply _].
  apply forOf_insertStep_inv in Hj as (rj & Hrj & ->); [|apply _].
  apply forOf_insertStep_inv in Hw as (rw & Hrw & ->); [|apply _].
  apply forOf_insertStep_inv in He as (re & Hre & ->); [|apply _].
  apply forOf_insertStep_inv in Hi as (ri & Hri & ->); [|apply _].
  apply forOf_insertStep_inv in Ht as (rt & Hrt & ->); [|apply _].
  apply forOf_insertStep_inv in Hn as (rn & Hrn & ->); [|apply _].
  apply forOf_insertStep_inv in Ha as (ra & Hra & ->); [|apply _].
  apply forOf_insertStep_inv in Hji as (rji & Hrji & ->); [|apply _].
  apply forOf_insertStep_inv in Hwd as (rwd & Hrwd & ->); [|apply _].
  apply forOf_insertStep_inv in Hci as (rci & Hrci & ->); [|apply _].
  split; (eapply restored_intro; [owner_of_row|eassumption|done|done]).
Qed.

(** ** When the restore resolves *)

#[export] Instance wfTable_dec {R} `{Row R} (t : Table R)
  : Decision (wfTable t).
Proof. unfold wfTable. apply _. Defined.

#[export] Instance wfStore_dec (s : Store) : Decision (wfStore s).
Proof. unfold wfStore. apply _. Defined.

Lemma wfTable_below {R} `{Row R} userId (t : Table R) :
  wfTable t → ∀ r, r ∈ rows (without userId t) →
  rowId r < nextId (without userId t).
Proof.
  intros (_ & Hwf & _) r Hin. simpl in *. unfold others in Hin.
  apply list_elem_of_filter in Hin as [_ Hin].
  rewrite Forall_forall in Hwf. apply Hwf in Hin. lia.
Qed.

Lemma accepted_ebind {A B} (r : Err + A) (k : A → Err + B) :
  accepted (ebind r k) = true → ∃ a, r = inr a ∧ accepted (k a) = true.
Proof. destruct r as [e|a]; [done|]. by exists a. Qed.

Ltac row_accepted :=
  let H := fresh in let Heq := fresh in
  intros H;
  repeat (apply accepted_ebind in H as (? & Heq & H);
          rewrite Heq; clear Heq; unfold ebind at 1);
  by eexists.

Lemma customerRow_accepted c u k :
  accepted (customerRow c 0 0) = true → ∃ r, customerRow c u k = inr r.
Proof. unfold customerRow. row_accepted. Qed.

Lemma jobRow_accepted j u fk k :
  accepted (jobRow j 0 Absent Null (dj_agreedAmount j) 0) = true →
  ∃ r, jobRow j u Absent fk (dj_agreedAmount j) k = inr r.
Proof. unfold jobRow. row_accepted. Qed.

Lemma workerRow_accepted w u fk k :
  accepted (workerRow w 0 Null 0) = true → ∃ r, workerRow w u fk k = inr r.
Proof. unfold workerRow. row_accepted. Qed.

Lemma expenseRow_accepted e u fk k :
  accepted (expenseRow e 0 Null 0) = true →
  ∃ r, expenseRow e u fk k = inr r.
Proof. unfold expenseRow. row_accepted. Qed.

Lemma inventoryRow_accepted i u fk fk' k :
  accepted (inventoryRow i 0 Null Null 0) = true →
  ∃ r, inventoryRow i u fk fk' k = inr r.
Proof. unfold inventoryRow. row_accepted. Qed.

Lemma travelRow_accepted t u fk k :
  accepted (travelRow t 0 Null 0) = true → ∃ r, travelRow t u fk k = inr r.
Proof. unfold travelRow. row_accepted. Qed.

Lemma noteRow_accepted n now u fk k :
  accepted (noteRow 0 n 0 Null 0) = true → ∃ r, noteRow now n u fk k = inr r.
Proof. unfold noteRow. row_accepted. Qed.

Lemma attendanceRow_accepted a u fk fk' k :
  accepted (attendanceRow a 0 Null Null 0) = true →
  ∃ r, attendanceRow a u fk fk' k = inr r.
Proof. unfold attendanceRow. row_accepted. Qed.

Lemma jobImageRow_accepted ji now u fk k :
  accepted (jobImageRow 0 ji 0 0 0) = true →
  ∃ r, jobImageRow now ji u fk k = inr r.
Proof. unfold jobImageRow. row_accepted. Qed.

Lemma workerDocumentRow_accepted wd now u fk k :
  accepted (workerDocumentRow 0 wd 0 0 0) = true →
  ∃ r, workerDocumentRow now wd u fk k = inr r.
Proof. unfold workerDocumentRow. row_accepted. Qed.

Lemma customerImageRow_accepted ci now u fk k :
  accepted (customerImageRow 0 ci 0 0 0) = true →
  ∃ r, customerImageRow now ci u fk k = inr r.
Proof. unfold customerImageRow. row_accepted. Qed.

Lemma refOk_translate {R} `{Row R} (t : Table R) m fk :
  mapsInto m t → refOk t (translate m fk) = true.
Proof.
  intros Hm. unfold translate. destruct (truthy fk); [|done].
  destruct (m !! Number fk) as [v|] eqn:Hv; [|done]. simpl. eauto.
Qed.

Lemma hasId_usable {R} `{Row R} (t : Table R) m fk v :
  mapsInto m t → usable (translate m fk) = Some v → hasId t v = true.
Proof.
  intros Hm. unfold translate, usable. destruct (truthy fk); [|done].
  destruct (m !! Number fk) as [w|] eqn:Hw; [|done].
  destruct (w =? 0); [done|]. intros [= <-]. eauto.
Qed.

Lemma Inserted_always_lookup {X R St} `{Row R} (mk : X → Z → Err + R)
    (upd : X → R → St → St) n st xs rs st' :
  Inserted (always mk) upd n st xs rs st' →
  ∀ i x, xs !! i = Some x →
    ∃ r, rs !! i = Some r ∧ mk x (n + Z.of_nat i) = inr r.
Proof.
  intros Hins i x Hx.
  rewrite <- (kept_all (always mk) xs) in Hx by (intros; by eexists).
  destruct (Inserted_lookup _ _ _ _ _ _ _ Hins i x Hx)
    as (v & r & [= <-] & Hr & Hv).
  by exists r.
Qed.

Lemma idmap_mapsInto {X R} `{Row R} (oid : X → Field Z)
    (mk : X → Z → Err + R) n xs rs m (t : Table R) :
  (∀ x k r, mk x k = inr r → rowId r = k) →
  Inserted (always mk) (remembering oid) n ∅ xs rs m →
  (∀ r, r ∈ rs → r ∈ rows t) →
  mapsInto m t.
Proof.
  intros Hid Hins Hsub k v Hv.
  destruct (idmap_range oid mk Hid _ _ _ _ _ Hins k v Hv)
    as [Hempty|(p & x & Hx & _ & _ & ->)]; [done|].
  destruct (Inserted_always_lookup _ _ _ _ _ _ _ Hins p x Hx)
    as (r & Hr & Hb).
  rewrite <- (Hid _ _ _ Hb). apply hasId_elem, Hsub.
  by eapply list_elem_of_lookup_2.
Qed.

Lemma forallb_elem {A} (f : A → bool) (l : list A) x :
  forallb f l = true → x ∈ l → f x = true.
Proof.
  intros Hall Hin. rewrite forallb_forall in Hall.
  by apply Hall, list_elem_of_In.
Qed.

Lemma elem_of_appended_rows {R} (l rs : list R) r : r ∈ rs → r ∈ l ++ rs.
Proof. intros. apply elem_of_app. by right. Qed.

Lemma importBody_ok userId now data s :
  wfStore s →
  unreferencedByOthers userId s = true →
  hasColumns data = true →
  ∃ s' maps, importBody userId now data s = (s', inr maps).
Proof.
  intros (?&?&?&?&?&?&?&?&?&?&?) Hfree Hacc. unfold hasColumns in Hacc.
  apply andb_true_iff in Hacc as [Hacc Aci].
  apply andb_true_iff in Hacc as [Hacc Awd].
  apply andb_true_iff in Hacc as [Hacc Aji].
  apply andb_true_iff in Hacc as [Hacc Aa].
  apply andb_true_iff in Hacc as [Hacc An].
  apply andb_true_iff in Hacc as [Hacc At].
  apply andb_true_iff in Hacc as [Hacc Ai].
  apply andb_true_iff in Hacc as [Hacc Ae].
  apply andb_true_iff in Hacc as [Hacc Aw].
  apply andb_true_iff in Hacc as [Ac Aj].
  unfold importBody.
  erewrite bind_ok; [|by apply deleteOwned_ok].
  set (s0 := cleared userId s).
  (* customers *)
  destruct (forOf_insertStep_run customersT noFks (customerValues userId)
              (remembering dc_id) (orEmpty (data_customers data)) ∅ s0)
    as (rc & cm & Hc & Hcm).
  { by apply wfTable_below. }
  { intros x v n Hin [= <-].
    destruct (customerRow_accepted x userId n) as [r Hr];
      [by apply (forallb_elem _ _ _ Ac)|].
    exists r. split_and!; [done| |done].
    by apply customerRow_keys in Hr as [? _]. }
  erewrite bind_ok;
    [|by rewrite (forOf_ext _ _ _ _ _ (importCustomer_step userId))].
  set (s1 := appended customersT rc s0).
  assert (mapsInto cm (customers s1)) as Mc.
  { eapply idmap_mapsInto; [|exact Hcm|].
    - intros x k r Hr. by apply customerRow_keys in Hr as [? _].
    - intros r Hin. by apply elem_of_appended_rows. }
  clear Hc Hcm.
  (* jobs *)
  destruct (forOf_insertStep_run jobsT fkJobs (jobValues userId cm)
              (remembering dj_id) (orEmpty (data_jobs data)) ∅ s1)
    as (rj & jm & Hj & Hjm).
  { by apply wfTable_below. }
  { intros x v n Hin [= <-].
    destruct (jobRow_accepted x userId
                (ofOption (translate cm (dj_customerId x))) n) as [r Hr];
      [by apply (forallb_elem _ _ _ Aj)|].
    exists r. apply jobRow_keys in Hr as Hk. destruct Hk as (? & _ & _ & Hfk).
    split_and!; [done|done|].
    intros t. unfold fkJobs. rewrite Hfk, nullable_ofOption.
    apply refOk_translate. exact Mc. }
  erewrite bind_ok;
    [|by rewrite (forOf_ext _ _ _ _ _ (importJob_step userId cm))].
  set (s2 := appended jobsT rj s1).
  assert (mapsInto jm (jobs s2)) as Mj.
  { eapply idmap_mapsInto; [|exact Hjm|].
    - intros x k r Hr. by apply jobRow_keys in Hr as [? _].
    - intros r Hin. by apply elem_of_appended_rows. }
  clear Hj Hjm.
  (* workers *)
  destruct (forOf_insertStep_run workersT fkWorkers (workerValues userId jm)
              (remembering dw_id) (orEmpty (data_workers data)) ∅ s2)
    as (rw & wm & Hw & Hwm).
  { by apply wfTable_below. }
  { intros x v n Hin [= <-].
    destruct (workerRow_accepted x userId
                (ofOption (translate jm (dw_jobId x))) n) as [r Hr];
      [by apply (forallb_elem _ _ _ Aw)|].
    exists r. apply workerRow_keys in Hr as Hk. destruct Hk as (? & _ & Hfk).
    split_and!; [done|done|].
    intros t. unfold fkWorkers. rewrite Hfk, nullable_ofOption.
    apply refOk_translate. exact Mj. }
  erewrite bind_ok;
    [|by rewrite (forOf_ext _ _ _ _ _ (importWorker_step userId jm))].
  set (s3 := appended workersT rw s2).
  assert (mapsInto wm (workers s3)) as Mw.
  { eapply idmap_mapsInto; [|exact Hwm|].
    - intros x k r Hr. by apply workerRow_keys in Hr as [? _].
    - intros r Hin. by apply elem_of_appended_rows. }
  clear Hw Hwm.
  (* expenses *)
  destruct (forOf_insertStep_run expensesT fkExpenses
              (expenseValues userId jm) stateless
              (orEmpty (data_expenses data)) tt s3)
    as (re & [] & He & _).
  { by apply wfTable_below. }
  { intros x v n Hin [= <-].
    destruct (expenseRow_accepted x userId
                (ofOption (translate jm (de_jobId x))) n) as [r Hr];
      [by apply (forallb_elem _ _ _ Ae)|].
    exists r. apply expenseRow_keys in Hr as Hk. destruct Hk as (? & _ & Hfk).
    split_and!; [done|done|].
    intros t. unfold fkExpenses. rewrite Hfk, nullable_ofOption.
    apply refOk_translate. exact Mj. }
  erewrite bind_ok;
    [|by rewrite (forOf_ext _ _ _ _ _ (importExpense_step userId jm))].
  clear He. set (s4 := appended expensesT re s3).
  (* inventory *)
  destruct (forOf_insertStep_run inventoryT fkInventory
              (inventoryValues userId jm) stateless
              (orEmpty (data_inventory data)) tt s4)
    as (ri & [] & Hi & _).
  { by apply wfTable_below. }
  { intros x v n Hin [= <-].
    destruct (inventoryRow_accepted x userId
                (ofOption (translate jm (di_jobId x)))
                (ofOption (translate jm (di_assignedToJobId x))) n)
      as [r Hr]; [by apply (forallb_elem _ _ _ Ai)|].
    exists r. apply inventoryRow_keys in Hr as Hk.
    destruct Hk as (? & _ & Hfk & Hfk').
    split_and!; [done|done|].
    intros t. unfold fkInventory. rewrite Hfk, Hfk', !nullable_ofOption.
    apply andb_true_iff. split; apply refOk_translate; exact Mj. }
  erewrite bind_ok;
    [|by rewrite (forOf_ext _ _ _ _ _ (importInventory_step userId jm))].
  clear Hi. set (s5 := appended inventoryT ri s4).
  (* travel *)
  destruct (forOf_insertStep_run travelT fkTravel
              (travelValues userId jm) stateless
              (orEmpty (data_travel data)) tt s5)
    as (rt & [] & Ht & _).
  { by apply wfTable_below. }
  { intros x v n Hin [= <-].
    destruct (travelRow_accepted x userId
                (ofOption (translate jm (dt_jobId x))) n) as [r Hr];
      [by apply (forallb_elem _ _ _ At)|].
    exists r. apply travelRow_keys in Hr as Hk. destruct Hk as (? & _ & Hfk).
    split_and!; [done|done|].
    intros t. unfold fkTravel. rewrite Hfk, nullable_ofOption.
    apply refOk_translate. exact Mj. }
  erewrite bind_ok;
    [|by rewrite (forOf_ext _ _ _ _ _ (importTravel_step userId jm))].
  clear Ht. set (s6 := appended travelT rt s5).
  (* notes *)
  destruct (forOf_insertStep_run notesT noFks
              (noteValues userId now cm jm wm) stateless
              (orEmpty (data_notes data)) tt s6)
    as (rn & [] & Hn & _).
  { by apply wfTable_below. }
  { intros x v n Hin [= <-].
    destruct (noteRow_accepted x now userId
                (ofOption (newReferenceId cm jm wm x)) n) as [r Hr];
      [by apply (forallb_elem _ _ _ An)|].
    exists r. apply noteRow_keys in Hr as Hk. destruct Hk as (? & _).
    by split_and!. }
  erewrite bind_ok;
    [|by rewrite (forOf_ext _ _ _ _ _ (importNote_step userId now cm jm wm))].
  clear Hn. set (s7 := appended notesT rn s6).
  (* attendance *)
  destruct (forOf_insertStep_run attendanceT fkAttendance
              (attendanceValues userId jm wm) stateless
              (orEmpty (data_attendance data)) tt s7)
    as (ra & [] & Ha & _).
  { by apply wfTable_below. }
  { intros x v n Hin [= <-].
    destruct (attendanceRow_accepted x userId
                (ofOption (translate wm (da_workerId x)))
                (ofOption (translate jm (da_jobId x))) n)
      as [r Hr]; [by apply (forallb_elem _ _ _ Aa)|].
    exists r. apply attendanceRow_keys in Hr as Hk.
    destruct Hk as (? & _ & Hfk & Hfk').
    split_and!; [done|done|].
    intros t. unfold fkAttendance. rewrite Hfk, Hfk', !nullable_ofOption.
    apply andb_true_iff. split; apply refOk_translate; [exact Mw|exact Mj]. }
  erewrite bind_ok;
    [|by rewrite (forOf_ext _ _ _ _ _ (importAttendance_step userId jm wm))].
  clear Ha. set (s8 := appended attendanceT ra s7).
  (* job images *)
  destruct (forOf_insertStep_run jobImagesT fkJobImages
              (jobImageValues userId now jm) stateless
              (orEmpty (data_jobImages data)) tt s8)
    as (rji & [] & Hji & _).
  { by apply wfTable_below. }
  { intros x v n Hin Hv. apply fmap_Some in Hv as (k & Hk & ->).
    destruct (jobImageRow_accepted x now userId k n) as [r Hr];
      [by apply (forallb_elem _ _ _ Aji)|].
    exists r. apply jobImageRow_keys in Hr as Hkeys.
    destruct Hkeys as (? & _ & Hfk & _).
    split_and!; [done|done|].
    intros t. unfold fkJobImages. rewrite Hfk.
    eapply hasId_usable; [exact Mj|exact Hk]. }
  erewrite bind_ok;
    [|by rewrite (forOf_ext _ _ _ _ _ (importJobImage_step userId now jm))].
  clear Hji. set (s9 := appended jobImagesT rji s8).
  (* worker documents *)
  destruct (forOf_insertStep_run workerDocumentsT fkWorkerDocuments
              (workerDocumentValues userId now wm) stateless
              (orEmpty (data_workerDocuments data)) tt s9)
    as (rwd & [] & Hwd & _).
  { by apply wfTable_below. }
  { intros x v n Hin Hv. apply fmap_Some in Hv as (k & Hk & ->).
    destruct (workerDocumentRow_accepted x now userId k n) as [r Hr];
      [by apply (forallb_elem _ _ _ Awd)|].
    exists r. apply workerDocumentRow_keys in Hr as Hkeys.
    destruct Hkeys as (? & _ & Hfk & _).
    split_and!; [done|done|].
    intros t. unfold fkWorkerDocuments. rewrite Hfk.
    eapply hasId_usable; [exact Mw|exact Hk]. }
  erewrite bind_ok;
    [|by rewrite (forOf_ext _ _ _ _ _
                    (importWorkerDocument_step userId now wm))].
  clear Hwd. set (s10 := appended workerDocumentsT rwd s9).
  (* customer images *)
  destruct (forOf_insertStep_run customerImagesT fkCustomerImages
              (customerImageValues userId now cm) stateless
              (orEmpty (data_customerImages data)) tt s10)
    as (rci & [] & Hci & _).
  { by apply wfTable_below. }
  { intros x v n Hin Hv. apply fmap_Some in Hv as (k & Hk & ->).
    destruct (customerImageRow_accepted x now userId k n) as [r Hr];
      [by apply (forallb_elem _ _ _ Aci)|].
    exists r. apply customerImageRow_keys in Hr as Hkeys.
    destruct Hkeys as (? & _ & Hfk & _).
    split_and!; [done|done|].
    intros t. unfold fkCustomerImages. rewrite Hfk.
    eapply hasId_usable; [exact Mc|exact Hk]. }
  erewrite bind_ok;
    [|by rewrite (forOf_ext _ _ _ _ _
                    (importCustomerImage_step userId now cm))].
  by eexists _, _.
Qed.

(** ** All or nothing *)

Lemma importData_resolves userId now data s s' maps :
  importBody userId now data s = (s', inr maps) →
  importData userId now data s = (s', inr tt).
Proof.
  intros Hb. unfold importData, transaction.
  by rewrite (bind_ok _ _ _ _ _ Hb).
Qed.

Lemma importData_inv userId now data s s' :
  importData userId now data s = (s', inr tt) →
  ∃ cm jm wm, importBody userId now data s = (s', inr (cm, jm, wm)).
Proof.
  unfold importData, transaction, bind.
  destruct (importBody userId now data s) as [s1 [e|[[cm jm] wm]]];
    [done|].
  intros [= <-]. by exists cm, jm, wm.
Qed.

Lemma importData_rejects userId now data s s' e :
  importData userId now data s = (s', inl e) →
  ∃ s1, importBody userId now data s = (s1, inl e) ∧ s' = rollback s s1.
Proof.
  unfold importData, transaction, bind.
  destruct (importBody userId now data s) as [s1 [e'|maps]]; [|done].
  intros [= <- <-]. by exists s1.
Qed.

Lemma sameRows_rollback s s1 : sameRows s (rollback s s1).
Proof. by repeat split. Qed.

Lemma backupOf_sameRows userId s s' :
  sameRows s s' → backupOf userId s' = backupOf userId s.
Proof.
  intros (Hc & Hj & He & Hi & Hn & Ht & Hw & Ha & Hji & Hwd & Hci).
  unfold backupOf, exportData, select, bind, ret. simpl.
  by rewrite Hc, Hj, He, Hi, Hn, Ht, Hw, Ha, Hji, Hwd, Hci.
Qed.

(** C1. When [importData] rejects, whichever delete or insert failed,
    every table holds exactly the rows it held before the call, and
    exporting the owner's data gives the backup it gave before: the
    whole restore runs in one transaction, which is rolled back. *)
Theorem importData_all_or_nothing userId now data s s' e :
  importData userId now data s = (s', inl e) →
  sameRows s s' ∧ backupOf userId s' = backupOf userId s.
Proof.
  intros Hrej. apply importData_rejects in Hrej as (s1 & _ & ->).
  split; [apply sameRows_rollback|].
  apply backupOf_sameRows, sameRows_rollback.
Qed.

(** The restore of the broken backup over the store of two owners
    rejects on the third worker, after the callback had deleted the
    rows of owner 7 and inserted customers, jobs and two workers; the
    store is as it was. *)
Lemma importData_all_or_nothing_witness :
  snd (importData 7 300 brokenDocument twoShops)
    = inl (NotNullViolation "workers" "name")
  ∧ length (owned 7 (workers (fst (importBody 7 300 brokenDocument twoShops))))
    = 2%nat
  ∧ owned 7 (expenses (fst (importBody 7 300 brokenDocument twoShops))) = []
  ∧ sameRows twoShops (fst (importData 7 300 brokenDocument twoShops))
  ∧ backupOf 7 (fst (importData 7 300 brokenDocument twoShops))
    = backupOf 7 twoShops.
Proof.
  split; [by vm_compute|]. split; [by vm_compute|]. split; [by vm_compute|].
  apply (importData_all_or_nothing 7 300 brokenDocument twoShops _
           (NotNullViolation "workers" "name")).
  by vm_compute.
Defined.

(** ** Foreign keys of the document *)

Lemma translate_Val m k : k ≠ 0 → translate m (Val k) = m !! k.
Proof.
  intros Hk. unfold translate. simpl.
  by destruct (Z.eqb_spec k 0).
Qed.

Lemma remapped_intro {X P R RP St : Type} `{Row R} `{Row RP}
    (mkP : P → Z → Err + RP) (oldId : P → Field Z) (newId : RP → Z)
    (mkC : X → Z → Err + R) (upd : X → R → St → St)
    (fk : X → Field Z) (newFk : R → option Z)
    n0 parents rps m n1 st children rs st' :
  (∀ x k r, mkP x k = inr r → rowId r = k) →
  (∀ r, newId r = rowId r) →
  (∀ x k r, mkC x k = inr r → newFk r = translate m (fk x)) →
  Inserted (always mkP) (remembering oldId) n0 ∅ parents rps m →
  Inserted (always mkC) upd n1 st children rs st' →
  remapped (lastParent parents oldId) children fk rs newFk
    parents oldId rps newId.
Proof.
  intros Hid Hnew Hfk HP HC i x p c k Hx Hc Hk Hoid [Hk0 Hlast].
  destruct (Inserted_always_lookup _ _ _ _ _ _ _ HC i x Hx) as (r & Hr & Hb).
  destruct (Inserted_always_lookup _ _ _ _ _ _ _ HP p c Hc)
    as (rp & Hrp & Hbp).
  exists r, rp. split_and!; [done|done|].
  rewrite (Hfk _ _ _ Hb), Hk, translate_Val by done.
  rewrite (idmap_hit oldId mkP Hid _ _ _ _ _ HP p c k Hc Hoid Hk0 Hlast).
  by rewrite Hnew, (Hid _ _ _ Hbp).
Qed.

Ltac row_key :=
  let Hr := fresh in
  intros ? ? ? Hr;
  first [ apply customerRow_keys in Hr
        | apply jobRow_keys in Hr
        | apply workerRow_keys in Hr
        | apply expenseRow_keys in Hr
        | apply inventoryRow_keys in Hr
        | apply travelRow_keys in Hr
        | apply attendanceRow_keys in Hr ];
  destruct_and?; rewrite ?nullable_ofOption in *; done.

(** C2, amended.  After a successful [importData], every foreign key
    of the document that refers to an old id other than [0] carried by
    a parent row of the document is stored as the fresh id of the copy
    of the last parent row carrying that old id: a job's [customerId]
    through the customers, a worker's [jobId], an expense's, an
    inventory item's (and its [assignedToJobId], independently) and a
    travel log's [jobId] through the jobs, an attendance row's
    [workerId] through the workers and its [jobId] through the jobs. *)
Theorem importData_remaps_foreign_keys userId now data s s' :
  importData userId now data s = (s', inr tt) →
  let cs := orEmpty (data_customers data) in
  let js := orEmpty (data_jobs data) in
  let ws := orEmpty (data_workers data) in
  remapped (lastParent cs dc_id) js dj_customerId
    (owned userId (jobs s')) j_customerId
    cs dc_id (owned userId (customers s')) c_id
  ∧ remapped (lastParent js dj_id) ws dw_jobId
      (owned userId (workers s')) w_jobId
      js dj_id (owned userId (jobs s')) j_id
  ∧ remapped (lastParent js dj_id) (orEmpty (data_expenses data)) de_jobId
      (owned userId (expenses s')) e_jobId
      js dj_id (owned userId (jobs s')) j_id
  ∧ remapped (lastParent js dj_id) (orEmpty (data_inventory data)) di_jobId
      (owned userId (inventory s')) i_jobId
      js dj_id (owned userId (jobs s')) j_id
  ∧ remapped (lastParent js dj_id) (orEmpty (data_inventory data))
      di_assignedToJobId
      (owned userId (inventory s')) i_assignedToJobId
      js dj_id (owned userId (jobs s')) j_id
  ∧ remapped (lastParent js dj_id) (orEmpty (data_travel data)) dt_jobId
      (owned userId (travel s')) t_jobId
      js dj_id (owned userId (jobs s')) j_id
  ∧ remapped (lastParent ws dw_id) (orEmpty (data_attendance data))
      da_workerId
      (owned userId (attendance s')) a_workerId
      ws dw_id (owned userId (workers s')) w_id
  ∧ remapped (lastParent js dj_id) (orEmpty (data_attendance data))
      da_jobId
      (owned userId (attendance s')) a_jobId
      js dj_id (owned userId (jobs s')) j_id.
Proof.
  intros Hok cs js ws.
  apply importData_inv in Hok as (cm & jm & wm & Hb).
  apply importBody_inv in Hb as [Rc Rj Rw Re Ri Rt Rn Ra Rji Rwd Rci].
  destruct Rc as (_ & _ & Hc). destruct Rj as (_ & _ & Hj).
  destruct Rw as (_ & _ & Hw).
  destruct Re as (_ & _ & He).
  destruct Ri as (_ & _ & Hi).
  destruct Rt as (_ & _ & Ht).
  destruct Ra as (_ & _ & Ha).
  split_and!.
  - eapply remapped_intro; [| | |exact Hc|exact Hj]; [row_key|done|row_key].
  - eapply remapped_intro; [| | |exact Hj|exact Hw]; [row_key|done|row_key].
  - eapply remapped_intro; [| | |exact Hj|exact He]; [row_key|done|row_key].
  - eapply remapped_intro; [| | |exact Hj|exact Hi]; [row_key|done|row_key].
  - eapply remapped_intro; [| | |exact Hj|exact Hi]; [row_key|done|row_key].
  - eapply remapped_intro; [| | |exact Hj|exact Ht]; [row_key|done|row_key].
  - eapply remapped_intro; [| | |exact Hw|exact Ha]; [row_key|done|row_key].
  - eapply remapped_intro; [| | |exact Hj|exact Ha]; [row_key|done|row_key].
Qed.

(** In the restore of the sample, the first job refers to the copy of
    the first customer. *)
Lemma importData_remaps_foreign_keys_witness :
  importData 7 100 sampleDocument emptyStore = (shop7, inr tt)
  ∧ ∃ r rp, owned 7 (jobs shop7) !! 0%nat = Some r
            ∧ owned 7 (customers shop7) !! 0%nat = Some rp
            ∧ j_customerId r = Some (c_id rp).
Proof.
  split; [by vm_compute|].
  destruct (importData_remaps_foreign_keys 7 100 sampleDocument emptyStore
              shop7) as [Hjobs _]; [by vm_compute|].
  apply (Hjobs 0%nat (aJob (Val 10) (Val 1)) 0%nat (aCustomer 1 "Alice") 1);
    [done|done|done|done|].
  split; [lia|]. intros [|[|q]] c Hq Hc; simpl in Hq; simplify_eq; lia.
Defined.

(** Counterexample to C2 as the specification words it, on the old
    id [0]: the customer of [zeroDocument] is restored, under the id 1,
    and the job that refers to it is stored without a customer. *)
Lemma importData_remaps_foreign_keys_counterexample :
  importData 7 100 zeroDocument emptyStore = (zeroShop, inr tt)
  ∧ (c_id <$> owned 7 (customers zeroShop)) = [1]
  ∧ (j_customerId <$> owned 7 (jobs zeroShop)) = [None]
  ∧ ¬ remapped anyParent
        (orEmpty (data_jobs zeroDocument)) dj_customerId
        (owned 7 (jobs zeroShop)) j_customerId
        (orEmpty (data_customers zeroDocument)) dc_id
        (owned 7 (customers zeroShop)) c_id.
Proof.
  split; [by vm_compute|]. split; [by vm_compute|].
  split; [by vm_compute|]. intros Hclaim.
  destruct (Hclaim 0%nat (aJob (Val 10) (Val 0)) 0%nat (aCustomer 0 "Zed") 0)
    as (r & rp & Hr & _ & Hfk); [done|done|done|done|done|].
  vm_compute in Hr. by simplify_eq.
Qed.

(** ** Foreign keys without a parent *)

Lemma translate_None m k : m !! k = None → translate m (Val k) = None.
Proof. intros Hk. unfold translate. simpl. by destruct (k =? 0). Qed.

Lemma translate_Some m f v :
  translate m f = Some v → ∃ k, f = Val k ∧ m !! k = Some v.
Proof.
  unfold translate. destruct f as [| |k]; simpl; try done.
  destruct (k =? 0); [done|]. intros Hk. by exists k.
Qed.

Lemma nulled_intro {X R St : Type} `{Row R}
    (mk : X → Z → Err + R) (upd : X → R → St → St)
    (fk : X → Field Z) (newFk : R → option Z) m n st xs rs st' :
  (∀ x k r, mk x k = inr r → newFk r = translate m (fk x)) →
  Inserted (always mk) upd n st xs rs st' →
  nulled m xs fk rs newFk.
Proof.
  intros Hfk Hins i x k Hx Hk Hm.
  destruct (Inserted_always_lookup _ _ _ _ _ _ _ Hins i x Hx) as (r & Hr & Hb).
  exists r. split; [done|].
  by rewrite (Hfk _ _ _ Hb), Hk, translate_None.
Qed.

Lemma Inserted_Forall2 {X R St : Type} `{Row R}
    (values : X → option (Z → Err + R)) (upd : X → R → St → St)
    n st xs rs st' :
  Inserted values upd n st xs rs st' →
  Forall2 (λ x r, ∃ v k, values x = Some v ∧ v k = inr r)
    (kept values xs) rs.
Proof.
  unfold kept. induction 1 as [| n st x xs rs st' Hv _ IH
                               | n st x xs v r rs st' Hv Hr _ IH].
  - constructor.
  - rewrite filter_cons_False; [done|]. rewrite Hv. by intros [? ?].
  - rewrite filter_cons_True by (by rewrite Hv).
    constructor; [by exists v, n|done].
Qed.

(** An id map never loses an entry, and has one for every old id,
    other than [0], that an element of the loop carries. *)
Lemma idmap_keeps {X R} `{Row R} (oid : X → Field Z) (mk : X → Z → Err + R)
    n (m0 : gmap Z Z) xs rs m k :
  Inserted (always mk) (remembering oid) n m0 xs rs m →
  is_Some (m0 !! k) → is_Some (m !! k).
Proof.
  induction 1 as [| n st x xs rs st' Hv _ IH
                  | n st x xs v r rs st' Hv Hr _ IH]; intros Hk; [done..|].
  apply IH. unfold remembering, remember.
  destruct (truthy (oid x)); [|done].
  apply lookup_insert_is_Some.
  destruct (decide (Number (oid x) = k)); [by left|by right].
Qed.

Lemma idmap_entry {X R} `{Row R} (oid : X → Field Z) (mk : X → Z → Err + R)
    n (m0 : gmap Z Z) xs rs m x k :
  Inserted (always mk) (remembering oid) n m0 xs rs m →
  x ∈ xs → oid x = Val k → k ≠ 0 → is_Some (m !! k).
Proof.
  induction 1 as [| n st y xs rs st' Hv _ IH
                  | n st y xs v r rs st' Hv Hr Hins IH];
    intros Hin Hoid Hk.
  - by apply elem_of_nil in Hin.
  - done.
  - apply elem_of_cons in Hin as [<-|Hin]; [|by apply IH].
    eapply idmap_keeps; [exact Hins|].
    unfold remembering, remember. rewrite Hoid. simpl.
    destruct (Z.eqb_spec k 0) as [|_]; [done|]. simpl.
    by rewrite lookup_insert_eq.
Qed.

Lemma idmap_unmapped {X R} `{Row R} (oid : X → Field Z)
    (mk : X → Z → Err + R) n xs rs (m : gmap Z Z) :
  Inserted (always mk) (remembering oid) n ∅ xs rs m →
  unmapped xs oid m.
Proof.
  intros Hins k. split.
  - intros Hnone. destruct (decide (k = 0)) as [|Hk]; [by left|right].
    intros c Hin Hoid.
    destruct (idmap_entry oid mk _ _ _ _ _ c k Hins Hin Hoid Hk) as [v Hv].
    congruence.
  - intros Hk. by rewrite (idmap_miss oid mk _ _ _ _ _ k Hins Hk).
Qed.

(** The new ids of an id map are positive when the sequence is. *)
Lemma idmap_positive {X R} `{Row R} (oid : X → Field Z)
    (mk : X → Z → Err + R) n xs rs (m : gmap Z Z) :
  (∀ x k r, mk x k = inr r → rowId r = k) →
  Inserted (always mk) (remembering oid) n ∅ xs rs m →
  0 < n → ∀ k v, m !! k = Some v → v ≠ 0.
Proof.
  intros Hid Hins Hn k v Hv.
  destruct (idmap_range oid mk Hid _ _ _ _ _ Hins k v Hv)
    as [Hempty|(p & x & _ & _ & _ & ->)]; [done|lia].
Qed.

Lemma usable_entry (m : gmap Z Z) fk :
  m !! 0 = None → (∀ k v, m !! k = Some v → v ≠ 0) →
  usable (translate m fk) = entry m fk.
Proof.
  intros Hzero Hpos. unfold translate, entry.
  destruct fk as [| |k]; simpl; [done..|].
  destruct (Z.eqb_spec k 0) as [->|_]; simpl; [by rewrite Hzero|].
  destruct (m !! k) as [v|] eqn:Hv; [|done]. simpl.
  destruct (Z.eqb_spec v 0) as [->|_]; [|done]. by apply Hpos in Hv.
Qed.

Lemma dropped_intro {X R St : Type} `{Row R}
    (mk : X → Z → Z → Err + R) (upd : X → R → St → St)
    (fk : X → Field Z) (parent : R → Z) m n st xs rs st' :
  m !! 0 = None → (∀ k v, m !! k = Some v → v ≠ 0) →
  (∀ x newId id r, mk x newId id = inr r → parent r = newId) →
  Inserted (λ x, mk x <$> usable (translate m (fk x))) upd n st xs rs st' →
  dropped m xs fk (λ x newId r, ∃ id, mk x newId id = inr r) parent rs.
Proof.
  intros Hzero Hpos Hparent Hins. unfold dropped.
  apply Inserted_Forall2 in Hins. unfold kept in Hins.
  rewrite (list_filter_iff _ (λ x, is_Some (entry m (fk x)))) in Hins.
  2:{ intros x. rewrite fmap_is_Some. by rewrite usable_entry. }
  eapply Forall2_impl; [exact Hins|].
  intros x r (v & k & Hv & Hr). simpl in Hv.
  apply fmap_Some in Hv as (newId & Hu & ->).
  rewrite usable_entry in Hu by done.
  exists newId. split_and!; [done|by exists k|by eapply Hparent].
Qed.

(** *** The document without its orphans *)

Lemma bind_cong {A B} (m m' : Db A) (k k' : A → Db B) s :
  m s = m' s →
  (∀ s1 a, m' s = (s1, inr a) → k a s1 = k' a s1) →
  bind m k s = bind m' k' s.
Proof.
  intros Hm Hk. unfold bind. rewrite Hm.
  destruct (m' s) as [s1 [e|a]]; [done|]. by apply Hk.
Qed.

Lemma forOf_fmap {X St} (f : X → X) (xs : list X) (body : X → St → Db St)
    st s :
  forOf (f <$> xs) body st s = forOf xs (λ x, body (f x)) st s.
Proof.
  revert st s. induction xs as [|x xs IH]; intros st s; [done|].
  simpl. unfold bind. destruct (body (f x) st s) as [s1 [e|st1]]; [done|].
  apply IH.
Qed.

Lemma forOf_filter {X} (keep : X → Prop) `{∀ x, Decision (keep x)}
    (xs : list X) (body : X → unit → Db unit) s :
  (∀ x s, ¬ keep x → body x tt s = (s, inr tt)) →
  forOf (filter keep xs) body tt s = forOf xs body tt s.
Proof.
  intros Hskip. revert s. induction xs as [|x xs IH]; intros s; [done|].
  destruct (decide (keep x)) as [Hx|Hx].
  - rewrite filter_cons_True by done. simpl. unfold bind.
    destruct (body x tt s) as [s1 [e|[]]]; [done|]. apply IH.
  - rewrite filter_cons_False by done. simpl. unfold bind.
    rewrite (Hskip x s Hx). apply IH.
Qed.

Lemma orEmpty_each {X} (f : X → X) xs :
  orEmpty (each f xs) = f <$> orEmpty xs.
Proof. by destruct xs. Qed.

Lemma orEmpty_only {X} (keep : X → bool) xs :
  orEmpty (only keep xs) = filter (λ x, keep x = true) (orEmpty xs).
Proof. by destruct xs. Qed.

Lemma carried_false {P} (parents : option (list P)) (oldId : P → Field Z) k :
  carried parents oldId k = false →
  k = 0 ∨ ∀ c, c ∈ orEmpty parents → oldId c ≠ Val k.
Proof.
  unfold carried. intros Hc. apply andb_false_iff in Hc as [Hz|Hex].
  - left. apply negb_false_iff in Hz. lia.
  - right. intros c Hin Hoid.
    apply not_true_iff_false in Hex. apply Hex, existsb_exists.
    exists c. split; [by apply list_elem_of_In|by apply bool_decide_eq_true].
Qed.

(** A map without entry for the ids that are not known translates an
    orphan key as it translates [null]. *)
Lemma translate_orNull (known : Z → bool) (m : gmap Z Z) fk :
  (∀ k, known k = false → m !! k = None) →
  translate m (orNull known fk) = translate m fk.
Proof.
  intros Hm. destruct fk as [| |k]; simpl; [done..|].
  destruct (known k) eqn:Hk; [done|].
  by rewrite translate_None by (by apply Hm).
Qed.

Lemma translate_noParent (known : Z → bool) (m : gmap Z Z) fk :
  (∀ k, known k = false → m !! k = None) →
  ¬ (hasParent known fk = true) →
  usable (translate m fk) = None.
Proof.
  intros Hm Hno. destruct fk as [| |k]; simpl in *; [done..|].
  apply not_true_is_false in Hno.
  by rewrite translate_None by (by apply Hm).
Qed.

Lemma loop_carried {X R} `{Row R} (L : Lens R) `{!LensOk L} fks
    (oid : X → Field Z) (mk : X → Z → Err + R)
    (parents : option (list X)) s s' m :
  forOf (orEmpty parents)
    (insertStep L fks (always mk) (remembering oid)) ∅ s = (s', inr m) →
  ∀ k, carried parents oid k = false → m !! k = None.
Proof.
  intros Hrun k Hk.
  apply forOf_insertStep_inv in Hrun as (rs & Hins & _); [|done].
  rewrite (idmap_miss oid mk _ _ _ _ _ k Hins); [done|].
  by apply carried_false.
Qed.

(** Restoring a document and restoring it without its orphans is the
    same run. *)
Lemma importBody_withoutOrphans userId now data s :
  importBody userId now (withoutOrphans data) s
  = importBody userId now data s.
Proof.
  unfold importBody, withoutOrphans.
  cbn [data_customers data_jobs data_expenses data_inventory data_notes
       data_travel data_workers data_attendance data_jobImages
       data_workerDocuments data_customerImages].
  rewrite !orEmpty_each, !orEmpty_only.
  apply bind_cong; [done|]. intros s0 [] _.
  apply bind_cong; [done|]. intros s1 cm Hc.
  rewrite (forOf_ext _ _ _ _ _ (importCustomer_step userId)) in Hc.
  pose proof (loop_carried customersT _ _ _ _ _ _ _ Hc) as Kc.
  clear Hc; rename Kc into Hc.
  assert (∀ s, forOf ((λ j, jobWith (orNull (carried (data_customers data)
                                               dc_id) (dj_customerId j)) j)
                        <$> orEmpty (data_jobs data))
                 (importJob userId cm) ∅ s
               = forOf (orEmpty (data_jobs data)) (importJob userId cm) ∅ s)
    as Hjobs.
  { intros s2. rewrite forOf_fmap. apply forOf_ext. intros j st s3.
    unfold importJob. cbn [dj_id dj_customerId dj_agreedAmount jobWith].
    by rewrite (translate_orNull _ _ _ Hc). }
  apply bind_cong; [apply Hjobs|]. intros s2 jm Hj.
  rewrite (forOf_ext _ _ _ _ _ (importJob_step userId cm)) in Hj.
  pose proof (loop_carried jobsT _ _ _ _ _ _ _ Hj) as Kj.
  clear Hj; rename Kj into Hj.
  assert (∀ s, forOf ((λ w, workerWith (orNull (carried (data_jobs data)
                                                  dj_id) (dw_jobId w)) w)
                        <$> orEmpty (data_workers data))
                 (importWorker userId jm) ∅ s
               = forOf (orEmpty (data_workers data))
                   (importWorker userId jm) ∅ s)
    as Hworkers.
  { intros s3. rewrite forOf_fmap. apply forOf_ext. intros w st s4.
    unfold importWorker. cbn [dw_id dw_jobId workerWith].
    by rewrite (translate_orNull _ _ _ Hj). }
  apply bind_cong; [apply Hworkers|]. intros s3 wm Hw.
  rewrite (forOf_ext _ _ _ _ _ (importWorker_step userId jm)) in Hw.
  pose proof (loop_carried workersT _ _ _ _ _ _ _ Hw) as Kw.
  clear Hw; rename Kw into Hw.
  apply bind_cong.
  { rewrite forOf_fmap. apply forOf_ext. intros e st s4.
    unfold importExpense. cbn [de_jobId expenseWith].
    by rewrite (translate_orNull _ _ _ Hj). }
  intros s4 [] _. apply bind_cong.
  { rewrite forOf_fmap. apply forOf_ext. intros i st s5.
    unfold importInventory. cbn [di_jobId di_assignedToJobId inventoryWith].
    by rewrite !(translate_orNull _ _ _ Hj). }
  intros s5 [] _. apply bind_cong.
  { rewrite forOf_fmap. apply forOf_ext. intros t st s6.
    unfold importTravel. cbn [dt_jobId travelWith].
    by rewrite (translate_orNull _ _ _ Hj). }
  intros s6 [] _. apply bind_cong; [done|].
  intros s7 [] _. apply bind_cong.
  { rewrite forOf_fmap. apply forOf_ext. intros a st s8.
    unfold importAttendance. cbn [da_workerId da_jobId attendanceWith].
    by rewrite (translate_orNull _ _ _ Hj), (translate_orNull _ _ _ Hw). }
  intros s8 [] _. apply bind_cong.
  { apply forOf_filter. intros ji s9 Hno. unfold importJobImage.
    by rewrite (translate_noParent _ _ _ Hj Hno). }
  intros s9 [] _. apply bind_cong.
  { apply forOf_filter. intros wd s10 Hno. unfold importWorkerDocument.
    by rewrite (translate_noParent _ _ _ Hw Hno). }
  intros s10 [] _. apply bind_cong; [|done].
  apply forOf_filter. intros ci s11 Hno. unfold importCustomerImage.
  by rewrite (translate_noParent _ _ _ Hc Hno).
Qed.

Lemma jobImageRow_parent now u ji newJobId id r :
  jobImageRow now ji u newJobId id = inr r → ji_jobId r = newJobId.
Proof. intros Hr. by apply jobImageRow_keys in Hr as (_ & _ & ? & _). Qed.

Lemma workerDocumentRow_parent now u wd newWorkerId id r :
  workerDocumentRow now wd u newWorkerId id = inr r →
  wd_workerId r = newWorkerId.
Proof.
  intros Hr. by apply workerDocumentRow_keys in Hr as (_ & _ & ? & _).
Qed.

Lemma customerImageRow_parent now u ci newCustomerId id r :
  customerImageRow now ci u newCustomerId id = inr r →
  ci_customerId r = newCustomerId.
Proof.
  intros Hr. by apply customerImageRow_keys in Hr as (_ & _ & ? & _).
Qed.

(** C4.  Restoring a document is the same run, with the same outcome
    and the same store, as restoring the document without its orphans:
    a foreign key that names no parent row of the document counts as
    [null], a photo or document whose key names none as absent, and
    neither can make the restore fail.  In detail, whenever the
    callback of [importData] resolves, with the id maps [cm], [jm] and
    [wm], so does [importData]; an id map has no entry for an old id
    exactly when that id is [0] or no parent row of the document
    carries it; a row whose foreign key has no entry in the id map of
    its parent table is stored with that key null where the column is
    optional ([customerId] of a job; [jobId] of a worker, an expense,
    an inventory item or a travel log; [assignedToJobId]; [workerId]
    and [jobId] of an attendance row); and, the ids of the store coming
    from its sequences, the job photos, worker documents and customer
    photos stored are those of the document whose key has an entry, one
    for one and in order, under the new id of their parent: all the
    others are left out. *)
Theorem importData_unmapped_foreign_keys userId now data s :
  importData userId now data s
  = importData userId now (withoutOrphans data) s
  ∧ ∀ s' cm jm wm,
      importBody userId now data s = (s', inr (cm, jm, wm)) →
      importData userId now data s = (s', inr tt)
      ∧ unmapped (orEmpty (data_customers data)) dc_id cm
      ∧ unmapped (orEmpty (data_jobs data)) dj_id jm
      ∧ unmapped (orEmpty (data_workers data)) dw_id wm
      ∧ nulled cm (orEmpty (data_jobs data)) dj_customerId
          (owned userId (jobs s')) j_customerId
      ∧ nulled jm (orEmpty (data_workers data)) dw_jobId
          (owned userId (workers s')) w_jobId
      ∧ nulled jm (orEmpty (data_expenses data)) de_jobId
          (owned userId (expenses s')) e_jobId
      ∧ nulled jm (orEmpty (data_inventory data)) di_jobId
          (owned userId (inventory s')) i_jobId
      ∧ nulled jm (orEmpty (data_inventory data)) di_assignedToJobId
          (owned userId (inventory s')) i_assignedToJobId
      ∧ nulled jm (orEmpty (data_travel data)) dt_jobId
          (owned userId (travel s')) t_jobId
      ∧ nulled wm (orEmpty (data_attendance data)) da_workerId
          (owned userId (attendance s')) a_workerId
      ∧ nulled jm (orEmpty (data_attendance data)) da_jobId
          (owned userId (attendance s')) a_jobId
      ∧ (wfStore s →
         dropped jm (orEmpty (data_jobImages data)) dji_jobId
           (λ ji newJobId r,
              ∃ id, jobImageRow now ji userId newJobId id = inr r)
           ji_jobId (owned userId (jobImages s'))
         ∧ dropped wm (orEmpty (data_workerDocuments data)) dwd_workerId
             (λ wd newWorkerId r,
                ∃ id, workerDocumentRow now wd userId newWorkerId id = inr r)
             wd_workerId (owned userId (workerDocuments s'))
         ∧ dropped cm (orEmpty (data_customerImages data)) dci_customerId
             (λ ci newCustomerId r,
                ∃ id,
                  customerImageRow now ci userId newCustomerId id = inr r)
             ci_customerId (owned userId (customerImages s'))).
Proof.
  split.
  { unfold importData, transaction, bind.
    by rewrite importBody_withoutOrphans. }
  intros s' cm jm wm Hb. split; [by eapply importData_resolves|].
  apply importBody_inv in Hb as [Rc Rj Rw Re Ri Rt Rn Ra Rji Rwd Rci].
  destruct Rc as (_ & _ & Hc).
  destruct Rj as (_ & _ & Hj). destruct Rw as (_ & _ & Hw).
  destruct Re as (_ & _ & He).
  destruct Ri as (_ & _ & Hi).
  destruct Rt as (_ & _ & Ht).
  destruct Ra as (_ & _ & Ha).
  destruct Rji as (_ & _ & Hji).
  destruct Rwd as (_ & _ & Hwd).
  destruct Rci as (_ & _ & Hci).
  split_and!.
  - exact (idmap_unmapped dc_id (λ c, customerRow c userId) _ _ _ _ Hc).
  - exact (idmap_unmapped dj_id _ _ _ _ _ Hj).
  - exact (idmap_unmapped dw_id _ _ _ _ _ Hw).
  - eapply nulled_intro; [|exact Hj]. row_key.
  - eapply nulled_intro; [|exact Hw]. row_key.
  - eapply nulled_intro; [|exact He]. row_key.
  - eapply nulled_intro; [|exact Hi]. row_key.
  - eapply nulled_intro; [|exact Hi]. row_key.
  - eapply nulled_intro; [|exact Ht]. row_key.
  - eapply nulled_intro; [|exact Ha]. row_key.
  - eapply nulled_intro; [|exact Ha]. row_key.
  - intros (Wc & Wj & _ & _ & _ & _ & Ww & _).
    destruct Wc as (Nc & _). destruct Wj as (Nj & _).
    destruct Ww as (Nw & _).
    assert (∀ k v, cm !! k = Some v → v ≠ 0) as Pc.
    { refine (idmap_positive dc_id (λ c, customerRow c userId) _ _ _ _ _
                Hc Nc).
      intros x k r Hr. by apply customerRow_keys in Hr as [? _]. }
    assert (∀ k v, jm !! k = Some v → v ≠ 0) as Pj.
    { refine (idmap_positive dj_id _ _ _ _ _ _ Hj Nj).
      intros x k r Hr. by apply jobRow_keys in Hr as [? _]. }
    assert (∀ k v, wm !! k = Some v → v ≠ 0) as Pw.
    { refine (idmap_positive dw_id _ _ _ _ _ _ Hw Nw).
      intros x k r Hr. by apply workerRow_keys in Hr as [? _]. }
    pose proof (idmap_miss _ _ _ _ _ _ _ 0 Hc (or_introl eq_refl)) as Zc.
    pose proof (idmap_miss _ _ _ _ _ _ _ 0 Hj (or_introl eq_refl)) as Zj.
    pose proof (idmap_miss _ _ _ _ _ _ _ 0 Hw (or_introl eq_refl)) as Zw.
    rewrite lookup_empty in Zc, Zj, Zw.
    split_and!.
    + exact (dropped_intro (λ ji k, jobImageRow now ji userId k) _ _ _ _
               _ _ _ _ _ Zj Pj (jobImageRow_parent now userId) Hji).
    + exact (dropped_intro (λ wd k, workerDocumentRow now wd userId k)
               _ _ _ _ _ _ _ _ _ Zw Pw
               (workerDocumentRow_parent now userId) Hwd).
    + exact (dropped_intro (λ ci k, customerImageRow now ci userId k)
               _ _ _ _ _ _ _ _ _ Zc Pc
               (customerImageRow_parent now userId) Hci).
Qed.

(** The sample restores over the two shops.  Job 77 is not in the
    document: the job id map has no entry for it, the second expense
    is stored without a job, and of the two job photos, worker
    documents and customer photos only the one whose parent is in the
    document is stored, under the new id of that parent. *)
Lemma importData_unmapped_foreign_keys_witness :
  importData 7 300 sampleDocument twoShops = (restoredShops, inr tt)
  ∧ importData 7 300 (withoutOrphans sampleDocument) twoShops
    = (restoredShops, inr tt)
  ∧ sampleJobIdMap !! 77 = None
  ∧ (∃ r, owned 7 (expenses restoredShops) !! 1%nat = Some r
          ∧ e_jobId r = None)
  ∧ (∃ r, owned 7 (jobImages restoredShops) = [r] ∧ ji_jobId r = 5)
  ∧ (∃ r, owned 7 (workerDocuments restoredShops) = [r]
          ∧ wd_workerId r = 5)
  ∧ (∃ r, owned 7 (customerImages restoredShops) = [r]
          ∧ ci_customerId r = 5).
Proof.
  destruct (importData_unmapped_foreign_keys 7 300 sampleDocument twoShops)
    as [Hsame Hrows].
  destruct (Hrows restoredShops sampleCustomerIdMap sampleJobIdMap
              sampleWorkerIdMap)
    as (Hdata & _ & Hjm & _ & _ & _ & He & _ & _ & _ & _ & _ & Hphotos);
    [by vm_compute|].
  destruct Hphotos as (Hji & Hwd & Hci).
  { apply (bool_decide_unpack _). by vm_compute. }
  split; [exact Hdata|]. split; [by rewrite <- Hsame|]. split.
  { apply Hjm. right. intros c Hin.
    apply (bool_decide_unpack _). revert c Hin. apply Forall_forall.
    by vm_compute; repeat constructor. }
  split; [apply (He 1%nat (anExpense (Val 77)) 77); by vm_compute|].
  unfold dropped in Hji, Hwd, Hci.
  split_and!.
  - assert (filter (λ x, is_Some (entry sampleJobIdMap (dji_jobId x)))
              (orEmpty (data_jobImages sampleDocument))
            = [aJobPhoto (Val 10)]) as Hkept by (by vm_compute).
    rewrite Hkept in Hji.
    apply Forall2_cons_inv_l in Hji as (r & rs & (k & Hk & _ & Hp) & Hnil & ->).
    apply Forall2_nil_inv_l in Hnil as ->.
    exists r. split; [done|]. rewrite Hp.
    vm_compute in Hk. by injection Hk as <-.
  - assert (filter (λ x, is_Some (entry sampleWorkerIdMap (dwd_workerId x)))
              (orEmpty (data_workerDocuments sampleDocument))
            = [aWorkerDocument (Val 5)]) as Hkept by (by vm_compute).
    rewrite Hkept in Hwd.
    apply Forall2_cons_inv_l in Hwd as (r & rs & (k & Hk & _ & Hp) & Hnil & ->).
    apply Forall2_nil_inv_l in Hnil as ->.
    exists r. split; [done|]. rewrite Hp.
    vm_compute in Hk. by injection Hk as <-.
  - assert (filter (λ x, is_Some (entry sampleCustomerIdMap
                                    (dci_customerId x)))
              (orEmpty (data_customerImages sampleDocument))
            = [aCustomerPhoto (Val 1)]) as Hkept by (by vm_compute).
    rewrite Hkept in Hci.
    apply Forall2_cons_inv_l in Hci as (r & rs & (k & Hk & _ & Hp) & Hnil & ->).
    apply Forall2_nil_inv_l in Hnil as ->.
    exists r. split; [done|]. rewrite Hp.
    vm_compute in Hk. by injection Hk as <-.
Defined.

(** ** Notes *)

Lemma idmap_zero {X R} `{Row R} (oid : X → Field Z) (mk : X → Z → Err + R)
    n xs rs (m : gmap Z Z) :
  Inserted (always mk) (remembering oid) n ∅ xs rs m → m !! 0 = None.
Proof.
  intros Hins. rewrite (idmap_miss oid mk _ _ _ _ _ 0 Hins); [done|by left].
Qed.

Lemma lookup_nullable (m : gmap Z Z) f :
  m !! 0 = None → (if truthy f then m !! Number f else None)
                  = nullable f ≫= (m !!.).
Proof.
  intros Hz. destruct f as [| |k]; simpl; try done.
  destruct (Z.eqb_spec k 0) as [->|_]; simpl; [by rewrite Hz|done].
Qed.

(** C5.  Whenever the callback of [importData] resolves, with the id
    maps [cm], [jm] and [wm], every note of the document is stored, at
    its place, with its [referenceId] looked up in the id map its
    [section] selects: the job id map for ["jobs"] and
    ["workers_attendance"], the customer id map for ["customers"], the
    worker id map for ["workers"]; for every other section the stored
    [referenceId] is null. *)
Theorem importData_translates_note_references
    userId now data s s' cm jm wm :
  importBody userId now data s = (s', inr (cm, jm, wm)) →
  importData userId now data s = (s', inr tt)
  ∧ ∀ i n, orEmpty (data_notes data) !! i = Some n →
      ∃ r, owned userId (notes s') !! i = Some r
           ∧ dn_section n = Val (n_section r)
           ∧ (n_section r = "jobs" ∨ n_section r = "workers_attendance" →
              n_referenceId r = nullable (dn_referenceId n) ≫= (jm !!.))
           ∧ (n_section r = "customers" →
              n_referenceId r = nullable (dn_referenceId n) ≫= (cm !!.))
           ∧ (n_section r = "workers" →
              n_referenceId r = nullable (dn_referenceId n) ≫= (wm !!.))
           ∧ (n_section r ≠ "jobs" → n_section r ≠ "workers_attendance" →
              n_section r ≠ "customers" → n_section r ≠ "workers" →
              n_referenceId r = None).
Proof.
  intros Hb. split; [by eapply importData_resolves|].
  apply importBody_inv in Hb as [Rc Rj Rw Re Ri Rt Rn Ra Rji Rwd Rci].
  destruct Rc as (_ & _ & Hc). destruct Rj as (_ & _ & Hj).
  destruct Rw as (_ & _ & Hw). destruct Rn as (_ & _ & Hn).
  apply idmap_zero in Hc, Hj, Hw.
  intros i n Hi.
  destruct (Inserted_always_lookup _ _ _ _ _ _ _ Hn i n Hi) as (r & Hr & Hb).
  exists r. split; [done|].
  apply noteRow_keys in Hb as (_ & _ & Href & _ & Hsec).
  split; [done|]. rewrite Href, nullable_ofOption.
  unfold newReferenceId, sectionMap. rewrite Hsec.
  split_and!.
  - intros [->| ->]; simpl; by apply lookup_nullable.
  - intros ->. simpl. by apply lookup_nullable.
  - intros ->. simpl. by apply lookup_nullable.
  - intros H1 H2 H3 H4.
    rewrite !bool_decide_eq_false_2 by done. simpl.
    by destruct (truthy _).
Qed.

(** The references of the five notes of the sample. *)
Lemma importData_translates_note_references_witness :
  importData 7 300 sampleDocument twoShops = (restoredShops, inr tt)
  ∧ (n_referenceId <$> owned 7 (notes restoredShops))
    = [Some 5; Some 6; Some 5; Some 6; None].
Proof.
  destruct (importData_translates_note_references 7 300 sampleDocument
              twoShops restoredShops sampleCustomerIdMap sampleJobIdMap
              sampleWorkerIdMap) as [Hdata _]; [by vm_compute|].
  split; [exact Hdata|by vm_compute].
Defined.

(** ** Job codes after a restore *)

(** C10.  After a successful [importData] every job of the owner has a
    null job code (the [jobId] text column), whatever code the document
    carried: the code is stripped on insert and not derived again. *)
Theorem importData_strips_job_codes userId now data s s' :
  importData userId now data s = (s', inr tt) →
  ∀ j, j ∈ rows (jobs s') → j_userId j = userId → j_jobId j = None.
Proof.
  intros Hok j Hin Hu.
  apply importData_inv in Hok as (cm & jm & wm & Hb).
  apply importBody_inv in Hb as [Rc Rj Rw Re Ri Rt Rn Ra Rji Rwd Rci].
  destruct Rj as (_ & _ & Hj).
  assert (j ∈ owned userId (jobs s')) as Hown
    by (by apply list_elem_of_filter).
  apply list_elem_of_lookup in Hown as [i Hi].
  destruct (Inserted_lookup_row _ _ _ _ _ _ _ Hj i j Hi)
    as (x & v & _ & [= <-] & Hr).
  by apply jobRow_keys in Hr as (_ & _ & -> & _).
Qed.

(** The jobs of the sample carry a code; the restored jobs do not. *)
Lemma importData_strips_job_codes_witness :
  (dj_jobId <$> orEmpty (data_jobs sampleDocument))
    = [Val "4I01012024"; Val "4I01012024"]
  ∧ ∀ j, j ∈ rows (jobs restoredShops) → j_userId j = 7 → j_jobId j = None.
Proof.
  split; [done|].
  apply (importData_strips_job_codes 7 300 sampleDocument twoShops).
  by vm_compute.
Defined.

(** ** Restoring an empty document *)

Lemma owned_without_same {R} `{Row R} userId (t : Table R) :
  owned userId (without userId t) = [].
Proof.
  unfold owned, without, others. simpl. apply filter_none, Forall_forall.
  intros r Hin. apply list_elem_of_filter in Hin. tauto.
Qed.

Lemma owned_others_ne {R} `{Row R} userId v (l : list R) :
  v ≠ userId →
  filter (λ r, rowUser r = v) (filter (λ r, ¬ rowUser r = userId) l)
  = filter (λ r, rowUser r = v) l.
Proof.
  intros Hne. induction l as [|r l IH]; [done|].
  destruct (decide (rowUser r = userId)) as [Hu|Hu].
  - rewrite (filter_cons_False (λ r, ¬ rowUser r = userId)) by tauto.
    rewrite (filter_cons_False (λ r, rowUser r = v)) by congruence. done.
  - rewrite (filter_cons_True (λ r, ¬ rowUser r = userId)) by done.
    destruct (decide (rowUser r = v)) as [Hv|Hv].
    + rewrite !(filter_cons_True (λ r, rowUser r = v)) by done.
      by rewrite IH.
    + rewrite !(filter_cons_False (λ r, rowUser r = v)) by done. done.
Qed.

Lemma owned_without_ne {R} `{Row R} userId v (t : Table R) :
  v ≠ userId → owned v (without userId t) = owned v t.
Proof. intros. by apply owned_others_ne. Qed.

Lemma ownedAlike_cleared userId v s :
  v ≠ userId → ownedAlike v s (cleared userId s).
Proof.
  intros Hne. unfold ownedAlike, cleared. simpl.
  by rewrite !owned_without_ne.
Qed.

Lemma backupOf_owned userId s :
  backupOf userId s
  = inr {| b_customers := owned userId (customers s);
           b_jobs := owned userId (jobs s);
           b_expenses := owned userId (expenses s);
           b_inventory := owned userId (inventory s);
           b_notes := owned userId (notes s);
           b_travel := owned userId (travel s);
           b_workers := owned userId (workers s);
           b_attendance := owned userId (attendance s);
           b_jobImages := owned userId (jobImages s);
           b_workerDocuments := owned userId (workerDocuments s);
           b_customerImages := owned userId (customerImages s) |}.
Proof. reflexivity. Qed.

Lemma backupOf_ownedAlike userId s s' :
  ownedAlike userId s s' → backupOf userId s' = backupOf userId s.
Proof.
  intros (Hc & Hj & He & Hi & Hn & Ht & Hw & Ha & Hji & Hwd & Hci).
  rewrite !backupOf_owned.
  by rewrite Hc, Hj, He, Hi, Hn, Ht, Hw, Ha, Hji, Hwd, Hci.
Qed.

Lemma importBody_noRows userId now data s :
  noRows data → unreferencedByOthers userId s = true →
  importBody userId now data s = (cleared userId s, inr (∅, ∅, ∅)).
Proof.
  intros (Hc & Hj & He & Hi & Hn & Ht & Hw & Ha & Hji & Hwd & Hci) Hfree.
  unfold importBody.
  rewrite Hc, Hj, He, Hi, Hn, Ht, Hw, Ha, Hji, Hwd, Hci.
  by erewrite bind_ok; [|by apply deleteOwned_ok].
Qed.

(** C6, amended.  When no row of another owner references a worker, a
    job or a customer of the owner, restoring a document without rows
    (an empty object, or every list missing or empty) succeeds, leaves
    the owner no row in any table, and leaves every other owner's rows
    as they were. *)
Theorem importData_empty_document userId now data s :
  noRows data →
  unreferencedByOthers userId s = true →
  ∃ s', importData userId now data s = (s', inr tt)
        ∧ backupOf userId s' = inr emptyBackup
        ∧ ∀ v, v ≠ userId →
            ownedAlike v s s' ∧ backupOf v s' = backupOf v s.
Proof.
  intros Hno Hfree. exists (cleared userId s).
  split; [eapply importData_resolves; by apply importBody_noRows|].
  split.
  - rewrite backupOf_owned. unfold cleared. simpl.
    by rewrite !owned_without_same.
  - intros v Hne. pose proof (ownedAlike_cleared userId v s Hne) as Ha.
    split; [done|]. by apply backupOf_ownedAlike.
Qed.

(** Owner 7 of the two shops restores an empty document. *)
Lemma importData_empty_document_witness :
  ∃ s', importData 7 300 emptyDocument twoShops = (s', inr tt)
        ∧ backupOf 7 s' = inr emptyBackup
        ∧ ∀ v, v ≠ 7 → ownedAlike v twoShops s'
                       ∧ backupOf v s' = backupOf v twoShops.
Proof.
  apply (importData_empty_document 7 300 emptyDocument twoShops).
  - by vm_compute.
  - by vm_compute.
Defined.

(** Counterexample to C6 as the specification words it: another
    owner's row references a job of the owner, deleting the job is
    refused, the restore rejects and the job stays. *)
Lemma importData_empty_document_counterexample :
  unreferencedByOthers 7 sharedJob = false
  ∧ snd (importData 7 300 emptyDocument sharedJob)
    = inl (ForeignKeyViolation "jobs")
  ∧ (j_id <$> owned 7 (jobs (fst (importData 7 300 emptyDocument sharedJob))))
    = [1]
  ∧ (e_jobId <$> owned 8 (expenses sharedJob)) = [Some 1].
Proof. by vm_compute. Qed.

(** ** Other owners *)

Lemma Inserted_fun {X R St : Type}
    (values : X → option (Z → Err + R)) (upd : X → R → St → St)
    n st xs rs st' :
  Inserted values upd n st xs rs st' →
  ∀ rs2 st2, Inserted values upd n st xs rs2 st2 → rs2 = rs ∧ st2 = st'.
Proof.
  induction 1 as [| n st x xs rs st' Hv _ IH
                  | n st x xs v r rs st' Hv Hr _ IH]; intros rs2 st2 H2.
  - by inversion H2.
  - inversion H2; subst; [by apply IH|congruence].
  - inversion H2 as [| |? ? ? ? v2 r2 rs3 ? Hv2 Hr2 H3]; subst;
      [congruence|].
    rewrite Hv in Hv2. injection Hv2 as <-.
    rewrite Hr in Hr2. injection Hr2 as <-.
    destruct (IH _ _ H3) as [-> ->]. done.
Qed.

Lemma ownedAlike_sameRows userId s s' :
  sameRows s s' → ownedAlike userId s s'.
Proof.
  intros (Hc & Hj & He & Hi & Hn & Ht & Hw & Ha & Hji & Hwd & Hci).
  unfold ownedAlike, owned.
  by rewrite Hc, Hj, He, Hi, Hn, Ht, Hw, Ha, Hji, Hwd, Hci.
Qed.

Lemma restored_others {X R St} `{Row R} userId v
    (values : X → option (Z → Err + R)) (upd : X → R → St → St)
    xs st st' (t t' : Table R) :
  v ≠ userId → restored userId values upd xs st st' t t' →
  owned v t' = owned v t.
Proof.
  intros Hne (Hrows & _ & _). unfold owned at 1. rewrite Hrows.
  rewrite filter_app. unfold others. rewrite owned_others_ne by done.
  rewrite (filter_none _ (owned userId t')); [by rewrite app_nil_r|].
  apply Forall_forall. intros r Hin. unfold owned in Hin.
  apply list_elem_of_filter in Hin as [Hu _]. congruence.
Qed.

Lemma ImportResult_others userId now data s s' cm jm wm v :
  v ≠ userId → ImportResult userId now data s s' cm jm wm →
  ownedAlike v s s'.
Proof.
  intros Hne []. unfold ownedAlike.
  split_and!; by eapply restored_others.
Qed.

(** The rows a restore stores are fixed by the document and the
    sequences. *)
Lemma ImportResult_fun userId now data s1 s1' cm1 jm1 wm1
    s2 s2' cm2 jm2 wm2 :
  sameSequences s1 s2 →
  ImportResult userId now data s1 s1' cm1 jm1 wm1 →
  ImportResult userId now data s2 s2' cm2 jm2 wm2 →
  ownedAlike userId s1' s2'.
Proof.
  intros (Sc & Sj & Se & Si & Sn & St & Sw & Sa & Sji & Swd & Sci) [] [].
  repeat match goal with
         | H : restored _ _ _ _ _ _ _ _ |- _ =>
             let Hi := fresh "I" in destruct H as (_ & _ & Hi)
         end.
  rewrite ?Sc, ?Sj, ?Se, ?Si, ?Sn, ?St, ?Sw, ?Sa, ?Sji, ?Swd, ?Sci in *.
  repeat match goal with
         | H1 : Inserted ?v ?u ?n ?st ?xs _ _,
           H2 : Inserted ?v ?u ?n ?st ?xs _ _ |- _ =>
             destruct (Inserted_fun _ _ _ _ _ _ _ H1 _ _ H2) as [? ?];
             clear H2; subst
         end.
  unfold ownedAlike. split_and!; congruence.
Qed.

(** *** What the restore reads of the other owners *)

Lemma bind_rejects {A B} (m : Db A) (k : A → Db B) s s1 e :
  m s = (s1, inl e) → bind m k s = (s1, inl e).
Proof. unfold bind. by intros ->. Qed.

Lemma forallb_false {A} (f : A → bool) (l : list A) :
  forallb f l = false → ∃ x, x ∈ l ∧ f x = false.
Proof.
  induction l as [|x l IH]; [done|]. simpl. intros Hf.
  apply andb_false_iff in Hf as [Hx|Hl].
  - exists x. split; [by left|done].
  - destruct (IH Hl) as (y & Hy & Hfy). exists y. split; [by right|done].
Qed.

Lemma delete_refused {R} `{Row R} (L : Lens R) refd (cond : R → Prop)
    `{∀ r, Decision (cond r)} s r :
  r ∈ rows (lget L s) → cond r →
  refd (lset L {| rows := filter (λ r, ¬ cond r) (rows (lget L s));
                  nextId := nextId (lget L s) |} s) (rowId r) = true →
  delete L refd cond s = (s, inl (ForeignKeyViolation (tname L))).
Proof.
  intros Hin Hc Hr. unfold delete. cbv zeta.
  assert (existsb _ (rows (lget L s)) = true) as ->; [|done].
  apply existsb_exists. exists r. split; [by apply list_elem_of_In|].
  by rewrite bool_decide_eq_true_2, Hr.
Qed.

(** The delete phase is refused as soon as a row of another owner
    refers to a worker, a job or a customer of the owner. *)
Lemma deleteOwned_refused userId s :
  unreferencedByOthers userId s = false →
  ∃ s1 table, deleteOwned userId s = (s1, inl (ForeignKeyViolation table)).
Proof.
  unfold unreferencedByOthers. intros Hfree.
  destruct (forallb (λ w, negb (refdWorker (cleared userId s) (w_id w)))
              (owned userId (workers s))) eqn:Hw.
  2:{ clear Hfree. apply forallb_false in Hw as (w & Hin & Hw).
      apply negb_false_iff in Hw.
      apply list_elem_of_filter in Hin as [Hu Hin].
      unfold deleteOwned. destruct s.
      do 8 (erewrite bind_ok; [|by apply delete_ok]; store_simpl).
      erewrite bind_rejects; [by eexists _, _|].
      by apply (delete_refused workersT _ _ _ w). }
  destruct (forallb (λ j, negb (refdJob (cleared userId s) (j_id j)))
              (owned userId (jobs s))) eqn:Hj.
  2:{ clear Hfree. apply forallb_false in Hj as (j & Hin & Hj).
      apply negb_false_iff in Hj.
      apply list_elem_of_filter in Hin as [Hu Hin].
      unfold deleteOwned. destruct s.
      do 8 (erewrite bind_ok; [|by apply delete_ok]; store_simpl).
      erewrite bind_ok.
      2:{ apply delete_ok. store_simpl. intros r Hr Hur.
          apply negb_true_iff.
          apply (forallb_owned _ _ _ _ Hw Hr Hur). }
      store_simpl.
      erewrite bind_rejects; [by eexists _, _|].
      by apply (delete_refused jobsT _ _ _ j). }
  simpl in Hfree. apply forallb_false in Hfree as (c & Hin & Hc).
  apply negb_false_iff in Hc.
  apply list_elem_of_filter in Hin as [Hu Hin].
  unfold deleteOwned. destruct s.
  do 8 (erewrite bind_ok; [|by apply delete_ok]; store_simpl).
  erewrite bind_ok.
  2:{ apply delete_ok. store_simpl. intros r Hr Hur.
      apply negb_true_iff.
      apply (forallb_owned _ _ _ _ Hw Hr Hur). }
  store_simpl.
  erewrite bind_ok.
  2:{ apply delete_ok. store_simpl. intros r Hr Hur.
      apply negb_true_iff.
      apply (forallb_owned _ _ _ _ Hj Hr Hur). }
  store_simpl.
  eexists _, _. by apply (delete_refused customersT _ _ _ c).
Qed.

Lemma importData_refused userId now data s :
  unreferencedByOthers userId s = false →
  rejected (snd (importData userId now data s)).
Proof.
  intros Hrefd. apply deleteOwned_refused in Hrefd as (s1 & table & Hdel).
  exists (ForeignKeyViolation table).
  unfold importData, transaction.
  erewrite bind_rejects; [done|].
  unfold importBody. by erewrite bind_rejects.
Qed.

Ltac row_accepts :=
  let H := fresh in let Heq := fresh in
  intros H;
  repeat (apply ebind_inr in H as (? & Heq & H);
          rewrite Heq; clear Heq; unfold ebind at 1);
  done.

Lemma customerRow_accepts c u k r :
  customerRow c u k = inr r → accepted (customerRow c 0 0) = true.
Proof. unfold customerRow. row_accepts. Qed.

Lemma jobRow_accepts j u code fk k r :
  jobRow j u code fk (dj_agreedAmount j) k = inr r →
  accepted (jobRow j 0 Absent Null (dj_agreedAmount j) 0) = true.
Proof. unfold jobRow. row_accepts. Qed.

Lemma workerRow_accepts w u fk k r :
  workerRow w u fk k = inr r → accepted (workerRow w 0 Null 0) = true.
Proof. unfold workerRow. row_accepts. Qed.

Lemma expenseRow_accepts e u fk k r :
  expenseRow e u fk k = inr r → accepted (expenseRow e 0 Null 0) = true.
Proof. unfold expenseRow. row_accepts. Qed.

Lemma inventoryRow_accepts i u fk fk' k r :
  inventoryRow i u fk fk' k = inr r →
  accepted (inventoryRow i 0 Null Null 0) = true.
Proof. unfold inventoryRow. row_accepts. Qed.

Lemma travelRow_accepts t u fk k r :
  travelRow t u fk k = inr r → accepted (travelRow t 0 Null 0) = true.
Proof. unfold travelRow. row_accepts. Qed.

Lemma noteRow_accepts now n u fk k r :
  noteRow now n u fk k = inr r → accepted (noteRow 0 n 0 Null 0) = true.
Proof. unfold noteRow. row_accepts. Qed.

Lemma attendanceRow_accepts a u fk fk' k r :
  attendanceRow a u fk fk' k = inr r →
  accepted (attendanceRow a 0 Null Null 0) = true.
Proof. unfold attendanceRow. row_accepts. Qed.

Lemma jobImageRow_accepts now ji u fk k r :
  jobImageRow now ji u fk k = inr r →
  accepted (jobImageRow 0 ji 0 0 0) = true.
Proof. unfold jobImageRow. row_accepts. Qed.

Lemma workerDocumentRow_accepts now wd u fk k r :
  workerDocumentRow now wd u fk k = inr r →
  accepted (workerDocumentRow 0 wd 0 0 0) = true.
Proof. unfold workerDocumentRow. row_accepts. Qed.

Lemma customerImageRow_accepts now ci u fk k r :
  customerImageRow now ci u fk k = inr r →
  accepted (customerImageRow 0 ci 0 0 0) = true.
Proof. unfold customerImageRow. row_accepts. Qed.

Lemma Inserted_all_built {X R St} `{Row R} (mk : X → Z → Err + R)
    (upd : X → R → St → St) n st xs rs st' x :
  Inserted (always mk) upd n st xs rs st' → x ∈ xs →
  ∃ k r, mk x k = inr r.
Proof.
  intros Hins Hx. apply list_elem_of_lookup in Hx as [i Hi].
  destruct (Inserted_always_lookup _ _ _ _ _ _ _ Hins i x Hi)
    as (r & _ & Hb).
  by do 2 eexists.
Qed.

Lemma Inserted_kept_built {X R St} `{Row R}
    (values : X → option (Z → Err + R)) (upd : X → R → St → St)
    n st xs rs st' x v :
  Inserted values upd n st xs rs st' → x ∈ xs → values x = Some v →
  ∃ k r, v k = inr r.
Proof.
  induction 1 as [| n st y xs rs st' Hv _ IH
                  | n st y xs w r rs st' Hv Hr _ IH]; intros Hin Hx.
  - by apply elem_of_nil in Hin.
  - apply elem_of_cons in Hin as [->|Hin]; [congruence|by apply IH].
  - apply elem_of_cons in Hin as [->|Hin]; [|by apply IH].
    rewrite Hv in Hx. injection Hx as <-. by exists n, r.
Qed.

Lemma forallb_fmap_all {A B} (f : B → bool) (g : A → B) (l : list A) :
  (∀ a, a ∈ l → f (g a) = true) → forallb f (g <$> l) = true.
Proof.
  intros Hall. apply forallb_forall. intros b Hb.
  apply list_elem_of_In, list_elem_of_fmap in Hb as (a & -> & Ha). by apply Hall.
Qed.

Lemma carried_true {P} (parents : option (list P)) (oldId : P → Field Z) k :
  carried parents oldId k = true →
  k ≠ 0 ∧ ∃ c, c ∈ orEmpty parents ∧ oldId c = Val k.
Proof.
  unfold carried. intros Hc. apply andb_true_iff in Hc as [Hz Hex].
  apply negb_true_iff in Hz. split; [lia|].
  apply existsb_exists in Hex as (c & Hin & Hoid).
  exists c. split; [by apply list_elem_of_In|by apply bool_decide_eq_true in Hoid].
Qed.

(** A row with a parent in the document is one that the loop stores. *)
Lemma hasParent_usable {X R} `{Row R} (oid : X → Field Z)
    (mk : X → Z → Err + R) n (parents : option (list X)) rs m fk :
  (∀ x k r, mk x k = inr r → rowId r = k) →
  Inserted (always mk) (remembering oid) n ∅ (orEmpty parents) rs m →
  0 < n → hasParent (carried parents oid) fk = true →
  is_Some (usable (translate m fk)).
Proof.
  intros Hid Hins Hn Hfk. destruct fk as [| |k]; simpl in Hfk; [done..|].
  apply carried_true in Hfk as (Hk & c & Hin & Hoid).
  destruct (idmap_entry oid mk _ _ _ _ _ c k Hins Hin Hoid Hk) as [v Hv].
  rewrite usable_entry.
  - unfold entry. simpl. by rewrite Hv.
  - by rewrite (idmap_miss oid mk _ _ _ _ _ 0 Hins (or_introl eq_refl)).
  - by eapply idmap_positive.
Qed.

(** In a well-formed store that no other owner's row refers to, the
    restore resolves exactly when the rows of the document, orphans
    left aside, have the columns their tables require. *)
Lemma importData_resolves_iff userId now data s :
  wfStore s → unreferencedByOthers userId s = true →
  snd (importData userId now data s) = inr tt
  ↔ hasColumns (withoutOrphans data) = true.
Proof.
  intros Hwf Hfree. split.
  - intros Hrun.
    destruct (importData userId now data s) as [s' [e|[]]] eqn:Hrun';
      [done|clear Hrun].
    apply importData_inv in Hrun' as (cm & jm & wm & Hb).
    apply importBody_inv in Hb as [Rc Rj Rw Re Ri Rt Rn Ra Rji Rwd Rci].
    destruct Rc as (_ & _ & Hc). destruct Rj as (_ & _ & Hj).
    destruct Rw as (_ & _ & Hw). destruct Re as (_ & _ & He).
    destruct Ri as (_ & _ & Hi). destruct Rt as (_ & _ & Ht).
    destruct Rn as (_ & _ & Hn). destruct Ra as (_ & _ & Ha).
    destruct Rji as (_ & _ & Hji). destruct Rwd as (_ & _ & Hwd).
    destruct Rci as (_ & _ & Hci).
    destruct Hwf as ((Nc & _) & (Nj & _) & _ & _ & _ & _ & (Nw & _) & _).
    assert (∀ x k r, customerRow x userId k = inr r → rowId r = k) as Ic.
    { intros x k r Hr. by apply customerRow_keys in Hr as [? _]. }
    assert (∀ x k r,
              jobRow x userId Absent
                (ofOption (translate cm (dj_customerId x)))
                (dj_agreedAmount x) k = inr r → rowId r = k) as Ij.
    { intros x k r Hr. by apply jobRow_keys in Hr as [? _]. }
    assert (∀ x k r,
              workerRow x userId (ofOption (translate jm (dw_jobId x))) k
              = inr r → rowId r = k) as Iw.
    { intros x k r Hr. by apply workerRow_keys in Hr as [? _]. }
    unfold hasColumns, withoutOrphans.
    cbn [data_customers data_jobs data_expenses data_inventory data_notes
         data_travel data_workers data_attendance data_jobImages
         data_workerDocuments data_customerImages].
    rewrite !orEmpty_each, !orEmpty_only.
    repeat (apply andb_true_iff; split).
    + apply forallb_forall. intros x Hx. apply list_elem_of_In in Hx.
      destruct (Inserted_all_built _ _ _ _ _ _ _ x Hc Hx) as (k & r & Hr).
      by eapply customerRow_accepts.
    + apply forallb_fmap_all. intros x Hx.
      destruct (Inserted_all_built _ _ _ _ _ _ _ x Hj Hx) as (k & r & Hr).
      by eapply jobRow_accepts.
    + apply forallb_fmap_all. intros x Hx.
      destruct (Inserted_all_built _ _ _ _ _ _ _ x Hw Hx) as (k & r & Hr).
      by eapply workerRow_accepts.
    + apply forallb_fmap_all. intros x Hx.
      destruct (Inserted_all_built _ _ _ _ _ _ _ x He Hx) as (k & r & Hr).
      by eapply expenseRow_accepts.
    + apply forallb_fmap_all. intros x Hx.
      destruct (Inserted_all_built _ _ _ _ _ _ _ x Hi Hx) as (k & r & Hr).
      by eapply inventoryRow_accepts.
    + apply forallb_fmap_all. intros x Hx.
      destruct (Inserted_all_built _ _ _ _ _ _ _ x Ht Hx) as (k & r & Hr).
      by eapply travelRow_accepts.
    + apply forallb_forall. intros x Hx. apply list_elem_of_In in Hx.
      destruct (Inserted_all_built _ _ _ _ _ _ _ x Hn Hx) as (k & r & Hr).
      by eapply noteRow_accepts.
    + apply forallb_fmap_all. intros x Hx.
      destruct (Inserted_all_built _ _ _ _ _ _ _ x Ha Hx) as (k & r & Hr).
      by eapply attendanceRow_accepts.
    + apply forallb_forall. intros x Hx.
      apply list_elem_of_In, list_elem_of_filter in Hx as [Hp Hx].
      destruct (hasParent_usable dj_id _ _ _ _ _ _ Ij Hj Nj Hp) as [v Hv].
      destruct (Inserted_kept_built _ _ _ _ _ _ _ x
                  (jobImageRow now x userId v) Hji Hx) as (k & r & Hr).
      { unfold jobImageValues. by rewrite Hv. }
      by eapply jobImageRow_accepts.
    + apply forallb_forall. intros x Hx.
      apply list_elem_of_In, list_elem_of_filter in Hx as [Hp Hx].
      destruct (hasParent_usable dw_id _ _ _ _ _ _ Iw Hw Nw Hp) as [v Hv].
      destruct (Inserted_kept_built _ _ _ _ _ _ _ x
                  (workerDocumentRow now x userId v) Hwd Hx) as (k & r & Hr).
      { unfold workerDocumentValues. by rewrite Hv. }
      by eapply workerDocumentRow_accepts.
    + apply forallb_forall. intros x Hx.
      apply list_elem_of_In, list_elem_of_filter in Hx as [Hp Hx].
      destruct (hasParent_usable dc_id _ _ _ _ _ _ Ic Hc Nc Hp) as [v Hv].
      destruct (Inserted_kept_built _ _ _ _ _ _ _ x
                  (customerImageRow now x userId v) Hci Hx) as (k & r & Hr).
      { unfold customerImageValues. by rewrite Hv. }
      by eapply customerImageRow_accepts.
  - intros Hcols.
    destruct (importBody_ok userId now (withoutOrphans data) s Hwf Hfree
                Hcols) as (s' & maps & Hb).
    rewrite importBody_withoutOrphans in Hb.
    by rewrite (importData_resolves _ _ _ _ _ _ Hb).
Qed.

(** C7, amended.  [exportData] for owner [userId] changes nothing and
    gives the same backup in any two stores that hold the same rows of
    that owner.  [importData] for owner [userId], whether it resolves
    or rejects, leaves the rows of every other owner in every table as
    they were, and the rows a resolved [importData] stores for the
    owner are fixed by the document and the sequences alone, whatever
    rows the store held; this holds in every store, whatever ids the
    rows of the owners carry.  What [importData] reads of the other
    owners is whether their rows refer to the owner's: when a row of
    another owner refers to a worker, a job or a customer of the owner
    the restore is rejected, and among the well-formed stores where
    none does, whether it resolves does not depend on the store. *)
Theorem tenant_isolation userId now data s :
  fst (exportData userId s) = s
  ∧ (∀ s2, ownedAlike userId s s2 → backupOf userId s2 = backupOf userId s)
  ∧ (∀ v, v ≠ userId →
       ownedAlike v s (fst (importData userId now data s))
       ∧ backupOf v (fst (importData userId now data s)) = backupOf v s)
  ∧ (∀ s2 s' s2',
       sameSequences s s2 →
       importData userId now data s = (s', inr tt) →
       importData userId now data s2 = (s2', inr tt) →
       ownedAlike userId s' s2')
  ∧ (unreferencedByOthers userId s = false →
     rejected (snd (importData userId now data s)))
  ∧ (∀ s2,
       wfStore s → wfStore s2 →
       unreferencedByOthers userId s = true →
       unreferencedByOthers userId s2 = true →
       snd (importData userId now data s) = inr tt
       ↔ snd (importData userId now data s2) = inr tt).
Proof.
  split_and!.
  - reflexivity.
  - apply backupOf_ownedAlike.
  - intros v Hne.
    assert (ownedAlike v s (fst (importData userId now data s))) as Ha.
    { destruct (importData userId now data s) as [s' [e|[]]] eqn:Hrun.
      - apply importData_rejects in Hrun as (s1 & _ & ->). simpl.
        apply ownedAlike_sameRows, sameRows_rollback.
      - apply importData_inv in Hrun as (cm & jm & wm & Hb). simpl.
        eapply ImportResult_others; [done|by apply importBody_inv]. }
    split; [done|by apply backupOf_ownedAlike].
  - intros s2 s' s2' Hseq H1 H2.
    apply importData_inv in H1 as (cm1 & jm1 & wm1 & H1).
    apply importData_inv in H2 as (cm2 & jm2 & wm2 & H2).
    apply importBody_inv in H1, H2.
    by eapply ImportResult_fun.
  - apply importData_refused.
  - intros s2 Hwf Hwf2 Hfree Hfree2.
    by rewrite !importData_resolves_iff.
Qed.

(** Owner 7 restores the sample over the two shops, and over the shop
    of owner 7 alone; and over the store where owner 8 has booked an
    expense on the job of owner 7. *)
Lemma tenant_isolation_witness :
  ownedAlike 8 twoShops (fst (importData 7 300 sampleDocument twoShops))
  ∧ ownedAlike 7 restoredShops
      (fst (importData 7 300 sampleDocument (cleared 8 twoShops)))
  ∧ (snd (importData 7 300 sampleDocument twoShops) = inr tt
     ↔ snd (importData 7 300 sampleDocument (cleared 8 twoShops)) = inr tt)
  ∧ rejected (snd (importData 7 300 sampleDocument sharedJob)).
Proof.
  destruct (tenant_isolation 7 300 sampleDocument twoShops)
    as (_ & _ & Hothers & Hown & _ & Hsame).
  destruct (tenant_isolation 7 300 sampleDocument sharedJob)
    as (_ & _ & _ & _ & Hrefd & _).
  split_and!.
  - apply Hothers. lia.
  - apply (Hown (cleared 8 twoShops)); [done|by vm_compute|by vm_compute].
  - apply Hsame; [| |by vm_compute|by vm_compute];
      apply (bool_decide_unpack _); by vm_compute.
  - apply Hrefd. by vm_compute.
Defined.

(** Counterexample to C7 as the specification words it: the store
    where owner 8 has booked an expense on the job of owner 7, and the
    same store without the rows of owner 8, hold the same rows of
    owner 7 and are at the same point of every sequence, yet owner 7's
    restore is rejected in the first and resolves in the second: its
    outcome depends on a row of owner 8. *)
Lemma tenant_isolation_counterexample :
  ownedAlike 7 sharedJob (cleared 8 sharedJob)
  ∧ sameSequences sharedJob (cleared 8 sharedJob)
  ∧ (e_userId <$> rows (expenses sharedJob)) = [8]
  ∧ snd (importData 7 300 sampleDocument sharedJob)
    = inl (ForeignKeyViolation "jobs")
  ∧ snd (importData 7 300 sampleDocument (cleared 8 sharedJob)) = inr tt.
Proof. by vm_compute. Qed.

(** ** Round trip *)

Lemma numbered_cons {A B} (f : Z → A → B) n a l :
  numbered f n (a :: l) = f n a :: numbered f (n + 1) l.
Proof.
  unfold numbered. rewrite imap_cons, Z.add_0_r. f_equal.
  apply imap_ext. intros i x _. simpl. f_equal. lia.
Qed.

Lemma Inserted_numbered {O X R St : Type} (f : O → X)
    (mk : X → Z → Err + R) (upd : X → R → St → St) (copy : Z → O → R)
    olds : ∀ n st rs st',
  (∀ o k r, o ∈ olds → mk (f o) k = inr r → r = copy k o) →
  Inserted (always mk) upd n st (f <$> olds) rs st' →
  rs = numbered copy n olds.
Proof.
  induction olds as [|o olds IH]; intros n st rs st' Hcopy Hins.
  - by inversion Hins.
  - rewrite numbered_cons. simpl in Hins.
    inversion Hins as [|? ? ? ? ? ? Hv|? ? ? ? v r rs' ? Hv Hr Hrest];
      subst; [done|].
    injection Hv as <-. f_equal.
    + apply Hcopy; [by left|done].
    + eapply IH; [|exact Hrest]. intros o' k r' Hin. apply Hcopy. by right.
Qed.

Lemma Inserted_numbered_kept {O X R St : Type} (f : O → X)
    (mk : X → Z → Z → Err + R) (sel : X → option Z) (sel' : O → option Z)
    (upd : X → R → St → St) (copy : Z → O * Z → R)
    olds : ∀ n st rs st',
  (∀ o, o ∈ olds → sel (f o) = sel' o) →
  (∀ o newFk k r, o ∈ olds → mk (f o) newFk k = inr r →
     r = copy k (o, newFk)) →
  Inserted (λ x, mk x <$> sel x) upd n st (f <$> olds) rs st' →
  rs = numbered copy n (omap (λ o, (o,.) <$> sel' o) olds).
Proof.
  induction olds as [|o olds IH]; intros n st rs st' Hsel Hcopy Hins.
  - by inversion Hins.
  - simpl in Hins. simpl.
    inversion Hins as [|? ? ? ? ? ? Hv Hrest|? ? ? ? v r rs' ? Hv Hr Hrest];
      subst.
    + apply fmap_None in Hv. rewrite Hsel in Hv by (by left).
      rewrite Hv. simpl. eapply IH; [| |exact Hrest].
      * intros o' Hin. apply Hsel. by right.
      * intros o' newFk k r' Hin. apply Hcopy. by right.
    + apply fmap_Some in Hv as (newFk & Hw & ->).
      rewrite Hsel in Hw by (by left). rewrite Hw. simpl.
      rewrite numbered_cons. f_equal.
      * apply Hcopy; [by left|done].
      * eapply IH; [| |exact Hrest].
        -- intros o' Hin. apply Hsel. by right.
        -- intros o' newFk' k r' Hin. apply Hcopy. by right.
Qed.

Lemma idmap_renumbered {O X R : Type} `{Row O} `{Row R} (f : O → X)
    (oid : X → Field Z) (mk : X → Z → Err + R) n olds rs m :
  (∀ x k r, mk x k = inr r → rowId r = k) →
  (∀ o, oid (f o) = Val (rowId o)) →
  Forall (λ o, rowId o ≠ 0) olds →
  NoDup (rowId <$> olds) →
  Inserted (always mk) (remembering oid) n ∅ (f <$> olds) rs m →
  renumbered olds n m.
Proof.
  intros Hid Hoid Hnz Hnd Hins. split.
  - intros p o Ho.
    apply (idmap_hit oid mk Hid _ _ _ _ _ Hins p (f o)).
    + by rewrite list_lookup_fmap, Ho.
    + apply Hoid.
    + rewrite Forall_forall in Hnz. apply Hnz.
      by eapply list_elem_of_lookup_2.
    + intros q x' Hq Hx'. rewrite list_lookup_fmap in Hq.
      destruct (olds !! q) as [o'|] eqn:Ho'; [|done].
      injection Hq as <-. rewrite Hoid in Hx'. injection Hx' as Heq.
      assert (q = p) as ->; [|done].
      apply (NoDup_lookup _ q p (rowId o) Hnd); rewrite list_lookup_fmap.
      * rewrite Ho'. simpl. by rewrite Heq.
      * by rewrite Ho.
  - intros k Hk. rewrite (idmap_miss oid mk _ _ _ _ _ k Hins); [done|].
    right. intros x Hin. apply list_elem_of_fmap in Hin as (o & -> & Hin).
    rewrite Hoid. intros [= Heq]. by apply (Hk o).
Qed.

Lemma wfTable_owned {R} `{Row R} userId (t : Table R) :
  wfTable t →
  Forall (λ r, rowId r ≠ 0) (owned userId t)
  ∧ NoDup (rowId <$> owned userId t).
Proof.
  intros (_ & Hpos & Hnd). split.
  - apply Forall_forall. intros r Hin. unfold owned in Hin.
    apply list_elem_of_filter in Hin as [_ Hin].
    rewrite Forall_forall in Hpos. apply Hpos in Hin. lia.
  - apply (sublist_NoDup _ (rowId <$> rows t)); [exact Hnd|].
    apply fmap_sublist, sublist_filter.
Qed.

Lemma owned_user {R} `{Row R} userId (t : Table R) r :
  r ∈ owned userId t → rowUser r = userId.
Proof.
  intros Hin. unfold owned in Hin.
  by apply list_elem_of_filter in Hin as [Hu _].
Qed.

Lemma translate_ofOption m o :
  m !! 0 = None → translate m (ofOption o) = o ≫= (m !!.).
Proof.
  intros Hz. destruct o as [k|]; [|done]. simpl. unfold translate. simpl.
  by destruct (Z.eqb_spec k 0) as [->|_].
Qed.

Lemma usable_translate m k :
  m !! 0 = None → (∀ k v, m !! k = Some v → v ≠ 0) →
  usable (translate m (Val k)) = m !! k.
Proof.
  intros Hz Hnz. unfold translate. simpl.
  destruct (Z.eqb_spec k 0) as [->|_]; simpl; [by rewrite Hz|].
  destruct (m !! k) as [v|] eqn:Hv; [|done]. simpl.
  destruct (Z.eqb_spec v 0) as [->|_]; [|done]. by apply Hnz in Hv.
Qed.

Lemma idmap_nonzero {X R} `{Row R} (oid : X → Field Z)
    (mk : X → Z → Err + R) n xs rs (m : gmap Z Z) :
  (∀ x k r, mk x k = inr r → rowId r = k) → 0 < n →
  Inserted (always mk) (remembering oid) n ∅ xs rs m →
  ∀ k v, m !! k = Some v → v ≠ 0.
Proof.
  intros Hid Hn Hins k v Hv.
  destruct (idmap_range oid mk Hid _ _ _ _ _ Hins k v Hv)
    as [?|(p & _ & _ & _ & _ & ->)]; [done|lia].
Qed.

Lemma sectionMap_zero cm jm wm sec m :
  cm !! 0 = None → jm !! 0 = None → wm !! 0 = None →
  sectionMap cm jm wm sec = Some m → m !! 0 = None.
Proof.
  intros Hc Hj Hw. unfold sectionMap. destruct sec as [| |sec]; try done.
  repeat case_match; naive_solver.
Qed.

Lemma newReferenceId_noteJson cm jm wm n :
  cm !! 0 = None → jm !! 0 = None → wm !! 0 = None →
  newReferenceId cm jm wm (noteJson n)
  = (k ← n_referenceId n;
     m ← sectionMap cm jm wm (Val (n_section n)); m !! k).
Proof.
  intros Hc Hj Hw. unfold newReferenceId.
  change (dn_referenceId (noteJson n)) with (ofOption (n_referenceId n)).
  change (dn_section (noteJson n)) with (Val (n_section n)).
  pose proof (sectionMap_zero cm jm wm (Val (n_section n))) as Hz.
  destruct (sectionMap cm jm wm (Val (n_section n))) as [m|];
    destruct (n_referenceId n) as [k|]; simpl; try done.
  - destruct (Z.eqb_spec k 0) as [->|_]; simpl; [|done].
    symmetry. by apply Hz.
  - by destruct (k =? 0).
Qed.

Lemma nullableDefault_ofOption {A} (d : A) (o : option A) :
  nullableDefault d (ofOption o) = o.
Proof. by destruct o. Qed.

Lemma customerRow_customerJson c u k :
  c_userId c = u → customerRow (customerJson c) u k = inr (customerCopy k c).
Proof. by intros <-. Qed.

Lemma jobRow_jobJson cm j u k :
  j_userId j = u → cm !! 0 = None →
  jobRow (jobJson j) u Absent
    (ofOption (translate cm (dj_customerId (jobJson j))))
    (dj_agreedAmount (jobJson j)) k
  = inr (jobCopy cm k j).
Proof.
  intros <- Hz. unfold jobRow, jobCopy. simpl.
  by rewrite !nullable_ofOption, translate_ofOption.
Qed.

Lemma workerRow_workerJson jm w u k :
  w_userId w = u → jm !! 0 = None →
  workerRow (workerJson w) u (ofOption (translate jm (dw_jobId (workerJson w))))
    k
  = inr (workerCopy jm k w).
Proof.
  intros <- Hz. unfold workerRow, workerCopy. simpl.
  by rewrite !nullable_ofOption, nullableDefault_ofOption, translate_ofOption.
Qed.

Lemma expenseRow_expenseJson jm e u k :
  e_userId e = u → jm !! 0 = None →
  expenseRow (expenseJson e) u
    (ofOption (translate jm (de_jobId (expenseJson e)))) k
  = inr (expenseCopy jm k e).
Proof.
  intros <- Hz. unfold expenseRow, expenseCopy. simpl.
  by rewrite !nullable_ofOption, translate_ofOption.
Qed.

Lemma inventoryRow_inventoryJson jm i u k :
  i_userId i = u → jm !! 0 = None →
  inventoryRow (inventoryJson i) u
    (ofOption (translate jm (di_jobId (inventoryJson i))))
    (ofOption (translate jm (di_assignedToJobId (inventoryJson i)))) k
  = inr (inventoryCopy jm k i).
Proof.
  intros <- Hz. unfold inventoryRow, inventoryCopy. simpl.
  by rewrite !nullable_ofOption, !translate_ofOption.
Qed.

Lemma travelRow_travelJson jm t u k :
  t_userId t = u → jm !! 0 = None →
  travelRow (travelJson t) u
    (ofOption (translate jm (dt_jobId (travelJson t)))) k
  = inr (travelCopy jm k t).
Proof.
  intros <- Hz. unfold travelRow, travelCopy. simpl.
  by rewrite !nullable_ofOption, translate_ofOption.
Qed.

Lemma noteRow_noteJson now cm jm wm n u k :
  n_userId n = u → cm !! 0 = None → jm !! 0 = None → wm !! 0 = None →
  noteRow now (noteJson n) u
    (ofOption (newReferenceId cm jm wm (noteJson n))) k
  = inr (noteCopy now cm jm wm k n).
Proof.
  intros <- Hc Hj Hw. unfold noteRow, noteCopy.
  rewrite newReferenceId_noteJson by done. simpl.
  by rewrite !nullable_ofOption.
Qed.

Lemma attendanceRow_attendanceJson jm wm a u k :
  a_userId a = u → jm !! 0 = None → wm !! 0 = None →
  attendanceRow (attendanceJson a) u
    (ofOption (translate wm (da_workerId (attendanceJson a))))
    (ofOption (translate jm (da_jobId (attendanceJson a)))) k
  = inr (attendanceCopy jm wm k a).
Proof.
  intros <- Hj Hw. unfold attendanceRow, attendanceCopy. simpl.
  by rewrite !nullable_ofOption, nullableDefault_ofOption,
    !translate_ofOption.
Qed.

Lemma jobImageRow_jobImageJson now ji u newJobId k :
  ji_userId ji = u →
  jobImageRow now (jobImageJson ji) u newJobId k
  = inr (jobImageCopy now k (ji, newJobId)).
Proof.
  intros <-. unfold jobImageRow, jobImageCopy. simpl.
  by rewrite !nullable_ofOption.
Qed.

Lemma workerDocumentRow_workerDocumentJson now wd u newWorkerId k :
  wd_userId wd = u →
  workerDocumentRow now (workerDocumentJson wd) u newWorkerId k
  = inr (workerDocumentCopy now k (wd, newWorkerId)).
Proof. by intros <-. Qed.

Lemma customerImageRow_customerImageJson now ci u newCustomerId k :
  ci_userId ci = u →
  customerImageRow now (customerImageJson ci) u newCustomerId k
  = inr (customerImageCopy now k (ci, newCustomerId)).
Proof.
  intros <-. unfold customerImageRow, customerImageCopy. simpl.
  by rewrite !nullable_ofOption.
Qed.

Lemma importBody_roundTrip userId now s s' cm jm wm :
  wfStore s →
  importBody userId now (exported userId s) s = (s', inr (cm, jm, wm)) →
  RoundTrip userId now s s' cm jm wm.
Proof.
  intros (Wc & Wj & We & Wi & Wn & Wt & Ww & Wa & Wji & Wwd & Wci) Hb.
  apply importBody_inv in Hb as [Rc Rj Rw Re Ri Rt Rn Ra Rji Rwd Rci].
  destruct Rc as (_ & _ & Hc). destruct Rj as (_ & _ & Hj).
  destruct Rw as (_ & _ & Hw).
  destruct Re as (_ & _ & He).
  destruct Ri as (_ & _ & Hi).
  destruct Rt as (_ & _ & Ht).
  destruct Rn as (_ & _ & Hn).
  destruct Ra as (_ & _ & Ha).
  destruct Rji as (_ & _ & Hji).
  destruct Rwd as (_ & _ & Hwd).
  destruct Rci as (_ & _ & Hci).
  change (orEmpty (data_customers (exported userId s)))
    with (customerJson <$> owned userId (customers s)) in Hc.
  change (orEmpty (data_jobs (exported userId s)))
    with (jobJson <$> owned userId (jobs s)) in Hj.
  change (orEmpty (data_workers (exported userId s)))
    with (workerJson <$> owned userId (workers s)) in Hw.
  change (orEmpty (data_expenses (exported userId s)))
    with (expenseJson <$> owned userId (expenses s)) in He.
  change (orEmpty (data_inventory (exported userId s)))
    with (inventoryJson <$> owned userId (inventory s)) in Hi.
  change (orEmpty (data_travel (exported userId s)))
    with (travelJson <$> owned userId (travel s)) in Ht.
  change (orEmpty (data_notes (exported userId s)))
    with (noteJson <$> owned userId (notes s)) in Hn.
  change (orEmpty (data_attendance (exported userId s)))
    with (attendanceJson <$> owned userId (attendance s)) in Ha.
  change (orEmpty (data_jobImages (exported userId s)))
    with (jobImageJson <$> owned userId (jobImages s)) in Hji.
  change (orEmpty (data_workerDocuments (exported userId s)))
    with (workerDocumentJson <$> owned userId (workerDocuments s)) in Hwd.
  change (orEmpty (data_customerImages (exported userId s)))
    with (customerImageJson <$> owned userId (customerImages s)) in Hci.
  assert (∀ x k r, customerRow x userId k = inr r → rowId r = k) as Kc
    by (intros x k r Hr; by apply customerRow_keys in Hr as [? _]).
  assert (∀ x k r, jobRow x userId Absent
                     (ofOption (translate cm (dj_customerId x)))
                     (dj_agreedAmount x) k = inr r → rowId r = k) as Kj
    by (intros x k r Hr; by apply jobRow_keys in Hr as [? _]).
  assert (∀ x k r, workerRow x userId
                     (ofOption (translate jm (dw_jobId x))) k = inr r →
                   rowId r = k) as Kw
    by (intros x k r Hr; by apply workerRow_keys in Hr as [? _]).
  pose proof (idmap_zero _ _ _ _ _ _ Hc) as Zc.
  pose proof (idmap_zero _ _ _ _ _ _ Hj) as Zj.
  pose proof (idmap_zero _ _ _ _ _ _ Hw) as Zw.
  pose proof (idmap_nonzero _ _ _ _ _ _ Kc (proj1 Wc) Hc) as Nc.
  pose proof (idmap_nonzero _ _ _ _ _ _ Kj (proj1 Wj) Hj) as Nj.
  pose proof (idmap_nonzero _ _ _ _ _ _ Kw (proj1 Ww) Hw) as Nw.
  split.
  - destruct (wfTable_owned userId _ Wc).
    eapply (idmap_renumbered customerJson dc_id _ _ _ _ _ Kc);
      [done|done|done|exact Hc].
  - destruct (wfTable_owned userId _ Wj).
    eapply (idmap_renumbered jobJson dj_id _ _ _ _ _ Kj);
      [done|done|done|exact Hj].
  - destruct (wfTable_owned userId _ Ww).
    eapply (idmap_renumbered workerJson dw_id _ _ _ _ _ Kw);
      [done|done|done|exact Hw].
  - eapply Inserted_numbered; [|exact Hc]. intros o k r Hin Hr. cbv beta in Hr.
    rewrite customerRow_customerJson in Hr by (exact (owned_user _ _ _ Hin)).
    congruence.
  - eapply Inserted_numbered; [|exact Hj]. intros o k r Hin Hr. cbv beta in Hr.
    rewrite jobRow_jobJson in Hr by (done || exact (owned_user _ _ _ Hin)).
    congruence.
  - eapply Inserted_numbered; [|exact Hw]. intros o k r Hin Hr. cbv beta in Hr.
    rewrite workerRow_workerJson in Hr by (done || exact (owned_user _ _ _ Hin)).
    congruence.
  - eapply Inserted_numbered; [|exact He]. intros o k r Hin Hr. cbv beta in Hr.
    rewrite expenseRow_expenseJson in Hr by (done || exact (owned_user _ _ _ Hin)).
    congruence.
  - eapply Inserted_numbered; [|exact Hi]. intros o k r Hin Hr. cbv beta in Hr.
    rewrite inventoryRow_inventoryJson in Hr
      by (done || exact (owned_user _ _ _ Hin)).
    congruence.
  - eapply Inserted_numbered; [|exact Ht]. intros o k r Hin Hr. cbv beta in Hr.
    rewrite travelRow_travelJson in Hr by (done || exact (owned_user _ _ _ Hin)).
    congruence.
  - eapply Inserted_numbered; [|exact Hn]. intros o k r Hin Hr. cbv beta in Hr.
    rewrite noteRow_noteJson in Hr by (done || exact (owned_user _ _ _ Hin)).
    congruence.
  - eapply Inserted_numbered; [|exact Ha]. intros o k r Hin Hr. cbv beta in Hr.
    rewrite attendanceRow_attendanceJson in Hr
      by (done || exact (owned_user _ _ _ Hin)).
    congruence.
  - eapply (Inserted_numbered_kept jobImageJson
              (λ ji newJobId, jobImageRow now ji userId newJobId));
      [| |exact Hji].
    + intros o _. by apply usable_translate.
    + intros o newFk k r Hin Hr. cbv beta in Hr.
      rewrite jobImageRow_jobImageJson in Hr by (exact (owned_user _ _ _ Hin)).
      congruence.
  - eapply (Inserted_numbered_kept workerDocumentJson
              (λ wd newWorkerId,
                 workerDocumentRow now wd userId newWorkerId));
      [| |exact Hwd].
    + intros o _. by apply usable_translate.
    + intros o newFk k r Hin Hr. cbv beta in Hr.
      rewrite workerDocumentRow_workerDocumentJson in Hr
        by (exact (owned_user _ _ _ Hin)).
      congruence.
  - eapply (Inserted_numbered_kept customerImageJson
              (λ ci newCustomerId,
                 customerImageRow now ci userId newCustomerId));
      [| |exact Hci].
    + intros o _. by apply usable_translate.
    + intros o newFk k r Hin Hr. cbv beta in Hr.
      rewrite customerImageRow_customerImageJson in Hr
        by (exact (owned_user _ _ _ Hin)).
      congruence.
Qed.

Lemma forallb_fmap_true {A B} (f : B → bool) (g : A → B) (l : list A) :
  (∀ a, f (g a) = true) → forallb f (g <$> l) = true.
Proof.
  intros Hf. induction l as [|a l IH]; [done|].
  rewrite fmap_cons. cbn [forallb]. rewrite Hf. exact IH.
Qed.

Lemma acceptable_exported userId s : hasColumns (exported userId s) = true.
Proof.
  unfold hasColumns. repeat (apply andb_true_iff; split).
  - exact (forallb_fmap_true _ customerJson _ (λ _, eq_refl)).
  - exact (forallb_fmap_true _ jobJson _ (λ _, eq_refl)).
  - exact (forallb_fmap_true _ workerJson _ (λ _, eq_refl)).
  - exact (forallb_fmap_true _ expenseJson _ (λ _, eq_refl)).
  - exact (forallb_fmap_true _ inventoryJson _ (λ _, eq_refl)).
  - exact (forallb_fmap_true _ travelJson _ (λ _, eq_refl)).
  - exact (forallb_fmap_true _ noteJson _ (λ _, eq_refl)).
  - exact (forallb_fmap_true _ attendanceJson _ (λ _, eq_refl)).
  - exact (forallb_fmap_true _ jobImageJson _ (λ _, eq_refl)).
  - exact (forallb_fmap_true _ workerDocumentJson _ (λ _, eq_refl)).
  - exact (forallb_fmap_true _ customerImageJson _ (λ _, eq_refl)).
Qed.

(** C3, amended.  In a well-formed store, restoring the backup that
    [exportData] gives for the owner succeeds when no row of another
    owner references the owner's workers, jobs or customers, and when it
    succeeds it leaves, in every table, the copies of the owner's rows
    in their order: each copy has a fresh id (the next values of the
    sequence), the job code null, the creation time of notes, photos
    and documents set to the time of the restore, every other column
    as before, and each reference replaced by the id of the copy of the
    owner's row it referred to.  A reference to a row that is not the
    owner's becomes null, and a photo or document with such a parent is
    left out; a note's reference is looked up among the jobs for the
    sections ["jobs"] and ["workers_attendance"], among the customers
    for ["customers"], among the workers for ["workers"], and becomes
    null for every other section. *)
Theorem export_import_round_trip userId now s :
  wfStore s →
  (unreferencedByOthers userId s = true →
   ∃ s', importData userId now (exported userId s) s = (s', inr tt))
  ∧ (∀ s', importData userId now (exported userId s) s = (s', inr tt) →
       ∃ cm jm wm, RoundTrip userId now s s' cm jm wm).
Proof.
  intros Hwf. split.
  - intros Hfree.
    destruct (importBody_ok userId now (exported userId s) s Hwf Hfree
                (acceptable_exported userId s)) as (s' & maps & Hb).
    exists s'. by eapply importData_resolves.
  - intros s' Hok. apply importData_inv in Hok as (cm & jm & wm & Hb).
    exists cm, jm, wm. by apply importBody_roundTrip.
Qed.

(** The round trip of owner 7 of the two shops. *)
Lemma export_import_round_trip_witness :
  (∃ s', importData 7 300 (exported 7 twoShops) twoShops = (s', inr tt))
  ∧ ∃ cm jm wm,
      RoundTrip 7 300 twoShops
        (fst (importData 7 300 (exported 7 twoShops) twoShops)) cm jm wm.
Proof.
  destruct (export_import_round_trip 7 300 twoShops) as [Hok Hrt].
  { apply (bool_decide_unpack _). by vm_compute. }
  split.
  - apply Hok. by vm_compute.
  - apply Hrt. by vm_compute.
Defined.

(** Counterexample to C3 as the specification words it, on the log
    entry of an inventory item: after the round trip the item is
    there, under the id 2, and the entry refers to nothing; its
    creation time has changed too. *)
Lemma export_import_round_trip_counterexample :
  bool_decide (wfStore inventoryShop) = true
  ∧ importData 7 60 (exported 7 inventoryShop) inventoryShop
    = (inventoryShopRestored, inr tt)
  ∧ (i_id <$> owned 7 (inventory inventoryShop)) = [1]
  ∧ (n_referenceId <$> owned 7 (notes inventoryShop)) = [Some 1]
  ∧ (n_createdAt <$> owned 7 (notes inventoryShop)) = [50]
  ∧ (i_id <$> owned 7 (inventory inventoryShopRestored)) = [2]
  ∧ (n_referenceId <$> owned 7 (notes inventoryShopRestored)) = [None]
  ∧ (n_createdAt <$> owned 7 (notes inventoryShopRestored)) = [60]
  ∧ ¬ Forall2 noteKept (owned 7 (notes inventoryShop))
        (owned 7 (notes inventoryShopRestored)).
Proof.
  split_and!; try by vm_compute.
  intros Hkept. vm_compute in Hkept.
  apply Forall2_cons_1 in Hkept as [(_ & _ & _ & _ & _ & Htime & _) _].
  done.
Qed.

(** ** Ordinary updates and deletes *)

Lemma lset_same {R} (L : Lens R) `{!LensOk L} s :
  lset L {| rows := rows (lget L s); nextId := nextId (lget L s) |} s = s.
Proof.
  transitivity (lset L (lget L s) s); [|apply set_get].
  f_equal. by destruct (lget L s).
Qed.



(** An update that matches no row returns no row and changes
    nothing. *)
Lemma update_none {R} `{Row R} (L : Lens R) `{!LensOk L} fks
    (set : R → Err + R) (cond : R → Prop) `{∀ r, Decision (cond r)} s :
  (∀ r, r ∈ rows (lget L s) → ¬ cond r) →
  update L fks set cond s = (s, inr []).
Proof.
  intros Hnone. unfold update. cbv zeta.
  rewrite (filter_none cond) by (by apply Forall_forall). simpl.
  assert ((λ r, if decide (cond r)
                then match set r with inr r' => r' | inl _ => r end
                else r) <$> rows (lget L s) = rows (lget L s)) as ->.
  { rewrite <- (list_fmap_id (rows (lget L s))) at 2.
    apply list_fmap_ext. intros i r Hr. simpl.
    destruct (decide (cond r)) as [Hc|]; [|done].
    exfalso. eapply Hnone; [|done]. by eapply list_elem_of_lookup_2. }
  by rewrite lset_same.
Qed.

(** A delete that matches no row changes nothing. *)
Lemma delete_none {R} `{Row R} (L : Lens R) `{!LensOk L} refd
    (cond : R → Prop) `{∀ r, Decision (cond r)} s :
  (∀ r, r ∈ rows (lget L s) → ¬ cond r) →
  delete L refd cond s = (s, inr tt).
Proof.
  intros Hnone. rewrite delete_ok.
  - rewrite (filter_all (λ r, ¬ cond r))
      by (apply Forall_forall; intros r Hin; by apply Hnone).
    by rewrite lset_same.
  - intros r Hin Hc. by apply Hnone in Hin.
Qed.

Lemma bound_runs {A} (statement : Db A) s :
  bound true statement s = statement s.
Proof. reflexivity. Qed.

Lemma bound_refuses {A B} (statement : Db A) (k : A → Db B) s :
  bind (bound false statement) k s = (s, inl DataException).
Proof. reflexivity. Qed.

(** The first row a select finds, if a row matches. *)
Lemma filter_Exists {A} (P : A → Prop) `{∀ x, Decision (P x)} (l : list A) :
  Exists P l → ∃ x l', filter P l = x :: l' ∧ P x ∧ x ∈ l.
Proof.
  induction 1 as [x l Hx|x l _ IH].
  - exists x, (filter P l). rewrite filter_cons_True by done.
    split_and!; [done|done|by left].
  - destruct (decide (P x)) as [Hx|Hx].
    + exists x, (filter P l). rewrite filter_cons_True by done.
      split_and!; [done|done|by left].
    + destruct IH as (y & l' & Hf & Hy & Hin).
      exists y, l'. rewrite filter_cons_False by done.
      split_and!; [done|done|by right].
Qed.

Section ordinary.
Context {platform : Platform}.

Lemma updateCustomer_missing id userId updates s :
  missing id userId (customers s) →
  refuses (updateCustomer id userId updates)
    (if customerSetEmpty updates then Error "No values to set"
     else if int4 id && customerParams updates
          then Error "Customer not found"
          else DataException) s.
Proof.
  intros Hnone. unfold refuses, updateCustomer.
  destruct (customerSetEmpty updates); [done|].
  destruct (int4 id && customerParams updates); [|done].
  unfold bound.
  by rewrite (bind_ok _ _ _ _ _ (update_none customersT _ _ _ s Hnone)).
Qed.

Lemma updateJob_missing id userId updates s :
  missing id userId (jobs s) →
  refuses (updateJob id userId updates)
    (if jobSetEmpty updates then Error "No values to set"
     else if int4 id
             && jobParams updates (dj_jobId updates) (dj_customerId updates)
                  (dj_agreedAmount updates)
          then Error "Job not found"
          else DataException) s.
Proof.
  intros Hnone. unfold refuses, updateJob.
  destruct (jobSetEmpty updates); [done|].
  destruct (int4 id && jobParams _ _ _ _); [|done].
  unfold bound.
  by rewrite (bind_ok _ _ _ _ _ (update_none jobsT _ _ _ s Hnone)).
Qed.

Lemma updateExpense_missing id userId updates s :
  missing id userId (expenses s) →
  refuses (updateExpense id userId updates)
    (if expenseSetEmpty updates then Error "No values to set"
     else if int4 id && expenseParams updates (de_jobId updates)
          then Error "Expense not found"
          else DataException) s.
Proof.
  intros Hnone. unfold refuses, updateExpense.
  destruct (expenseSetEmpty updates); [done|].
  destruct (int4 id && expenseParams _ _); [|done].
  unfold bound.
  by rewrite (bind_ok _ _ _ _ _ (update_none expensesT _ _ _ s Hnone)).
Qed.

Lemma updateNote_missing id userId updates s :
  missing id userId (notes s) →
  refuses (updateNote id userId updates)
    (if noteSetEmpty updates then Error "No values to set"
     else if int4 id && noteParams updates (dn_referenceId updates)
          then Error "Note not found"
          else DataException) s.
Proof.
  intros Hnone. unfold refuses, updateNote.
  destruct (noteSetEmpty updates); [done|].
  destruct (int4 id && noteParams _ _); [|done].
  unfold bound.
  by rewrite (bind_ok _ _ _ _ _ (update_none notesT _ _ _ s Hnone)).
Qed.

Lemma updateWorker_missing id userId updates s :
  missing id userId (workers s) →
  refuses (updateWorker id userId updates)
    (if truthyString (dw_name updates)
        && negb (sent textIn (dw_name updates))
     then DataException
     else if truthyString (dw_name updates)
             && nameTaken (dw_name updates) userId s
     then Error "Worker name already exists"
     else if workerSetEmpty updates then Error "No values to set"
     else if int4 id && workerParams updates (dw_jobId updates)
     then Error "Worker not found"
     else DataException) s.
Proof.
  intros Hnone. unfold refuses, updateWorker.
  assert ((if workerSetEmpty updates
           then throw (Error "No values to set")
           else
             rs <- bound (int4 id && workerParams updates (dw_jobId updates))
                     (update workersT fkWorkers (workerSet updates)
                        (λ w, w_id w = id ∧ w_userId w = userId)) ;;
             match rs with
             | updated :: _ => ret updated
             | [] => throw (Error "Worker not found")
             end) s
          = (s, inl (if workerSetEmpty updates then Error "No values to set"
                     else if int4 id
                             && workerParams updates (dw_jobId updates)
                          then Error "Worker not found"
                          else DataException))) as Htail.
  { destruct (workerSetEmpty updates); [done|].
    destruct (int4 id && workerParams _ _); [|done].
    unfold bound.
    by rewrite (bind_ok _ _ _ _ _ (update_none workersT _ _ _ s Hnone)). }
  destruct (truthyString (dw_name updates)); simpl; [|exact Htail].
  destruct (sent textIn (dw_name updates)); simpl; [|done].
  unfold nameTaken. case_bool_decide as Hname.
  - apply (filter_Exists (named (dw_name updates) userId)) in Hname
      as (w & l & Hf & Hw & Hin).
    unfold bind at 1. unfold bind at 1. unfold bound, select.
    store_simpl. rewrite Hf.
    rewrite bool_decide_eq_true_2; [done|].
    intros Hid. apply (Hnone w Hin). split; [done|apply Hw].
  - unfold bind at 1. unfold bind at 1. unfold bound, select. store_simpl.
    rewrite (filter_none (named (dw_name updates) userId)); [exact Htail|].
    apply Forall_forall. intros w Hin Hw. apply Hname.
    apply Exists_exists. by exists w.
Qed.

Lemma updateInventory_missing now id userId updates s :
  missing id userId (inventory s) →
  refuses (updateInventory now id userId updates)
    (if int4 id then Error "Inventory item not found" else DataException) s.
Proof.
  intros Hnone. unfold refuses, updateInventory.
  destruct (int4 id); [|done].
  unfold bind, bound, select. store_simpl.
  rewrite (filter_none (λ i, i_id i = id ∧ i_userId i = userId)); [done|].
  apply Forall_forall. exact Hnone.
Qed.

Lemma delete_missing {R} `{Row R} (L : Lens R) `{!LensOk L} refd id userId s :
  missing id userId (lget L s) →
  bound (int4 id)
    (delete L refd (λ r, rowId r = id ∧ rowUser r = userId)) s
  = (s, if int4 id then inr tt else inl DataException).
Proof.
  intros Hnone. destruct (int4 id); [|done].
  by apply (delete_none L).
Qed.

End ordinary.

(** C9, amended.  A storage method that updates or deletes a row by
    its id, called with an id that no row of the owner carries in the
    method's table, leaves the store as it was and tries nothing a
    second time.

    An update rejects.  It reports "Customer not found", "Job not
    found", "Expense not found", "Note not found" or "Worker not found"
    when the id is a 32-bit integer, the update object holds at least
    one value and the store reads every value as one of its column's
    type; without a value the rejection is the ORM's "No values to
    set", and it is the store's data exception when the store does not
    read the id or a value.  [updateWorker] first looks up the new
    name, when the update object has a non-empty one: it rejects with
    the data exception when the store does not read the name, and with
    "Worker name already exists" when a worker of the owner carries
    it.  [updateInventory] looks up the row first: it reports
    "Inventory item not found" whatever the update object holds.

    A delete resolves, reporting nothing, when the id is a 32-bit
    integer, and rejects with the data exception otherwise. *)
Theorem update_delete_missing_row {platform : Platform} id userId s :
  (missing id userId (customers s) →
   (∀ updates,
      refuses (updateCustomer id userId updates)
        (if customerSetEmpty updates then Error "No values to set"
         else if int4 id && customerParams updates
              then Error "Customer not found"
              else DataException) s)
   ∧ deleteCustomer id userId s
     = (s, if int4 id then inr tt else inl DataException))
  ∧ (missing id userId (jobs s) →
     (∀ updates,
        refuses (updateJob id userId updates)
          (if jobSetEmpty updates then Error "No values to set"
           else if int4 id
                   && jobParams updates (dj_jobId updates)
                        (dj_customerId updates) (dj_agreedAmount updates)
                then Error "Job not found"
                else DataException) s)
     ∧ deleteJob id userId s
       = (s, if int4 id then inr tt else inl DataException))
  ∧ (missing id userId (expenses s) →
     (∀ updates,
        refuses (updateExpense id userId updates)
          (if expenseSetEmpty updates then Error "No values to set"
           else if int4 id && expenseParams updates (de_jobId updates)
                then Error "Expense not found"
                else DataException) s)
     ∧ deleteExpense id userId s
       = (s, if int4 id then inr tt else inl DataException))
  ∧ (missing id userId (notes s) →
     (∀ updates,
        refuses (updateNote id userId updates)
          (if noteSetEmpty updates then Error "No values to set"
           else if int4 id && noteParams updates (dn_referenceId updates)
                then Error "Note not found"
                else DataException) s)
     ∧ deleteNote id userId s
       = (s, if int4 id then inr tt else inl DataException))
  ∧ (missing id userId (workers s) →
     (∀ updates,
        refuses (updateWorker id userId updates)
          (if truthyString (dw_name updates)
              && negb (sent textIn (dw_name updates))
           then DataException
           else if truthyString (dw_name updates)
                   && nameTaken (dw_name updates) userId s
           then Error "Worker name already exists"
           else if workerSetEmpty updates then Error "No values to set"
           else if int4 id && workerParams updates (dw_jobId updates)
           then Error "Worker not found"
           else DataException) s)
     ∧ deleteWorker id userId s
       = (s, if int4 id then inr tt else inl DataException))
  ∧ (missing id userId (inventory s) →
     (∀ now updates,
        refuses (updateInventory now id userId updates)
          (if int4 id then Error "Inventory item not found"
           else DataException) s)
     ∧ deleteInventory id userId s
       = (s, if int4 id then inr tt else inl DataException))
  ∧ (missing id userId (travel s) →
     deleteTravelLog id userId s
     = (s, if int4 id then inr tt else inl DataException))
  ∧ (missing id userId (jobImages s) →
     deleteJobImage id userId s
     = (s, if int4 id then inr tt else inl DataException))
  ∧ (missing id userId (workerDocuments s) →
     deleteWorkerDocument id userId s
     = (s, if int4 id then inr tt else inl DataException))
  ∧ (missing id userId (customerImages s) →
     deleteCustomerImage id userId s
     = (s, if int4 id then inr tt else inl DataException)).
Proof.
  split_and!; intros Hnone; try split.
  - intros updates. by apply updateCustomer_missing.
  - exact (delete_missing customersT _ id userId s Hnone).
  - intros updates. by apply updateJob_missing.
  - exact (delete_missing jobsT _ id userId s Hnone).
  - intros updates. by apply updateExpense_missing.
  - exact (delete_missing expensesT _ id userId s Hnone).
  - intros updates. by apply updateNote_missing.
  - exact (delete_missing notesT _ id userId s Hnone).
  - intros updates. by apply updateWorker_missing.
  - exact (delete_missing workersT _ id userId s Hnone).
  - intros now updates. by apply updateInventory_missing.
  - exact (delete_missing inventoryT _ id userId s Hnone).
  - exact (delete_missing travelT _ id userId s Hnone).
  - exact (delete_missing jobImagesT _ id userId s Hnone).
  - exact (delete_missing workerDocumentsT _ id userId s Hnone).
  - exact (delete_missing customerImagesT _ id userId s Hnone).
Qed.

(** No customer, job, expense, note, worker or inventory item 99 and
    no job 3 of owner 7 exists in the two shops (job 3 is a job of
    owner 8); a worker of owner 7 is called Ravi, none Ann; and
    4294967296 is not a 32-bit integer. *)
Lemma update_delete_missing_row_witness :
  updateCustomer (platform := plain) 99 7 (aCustomer 99 "Carol") twoShops
  = (twoShops, inl (Error "Customer not found"))
  ∧ updateJob (platform := plain) 3 7 statusUpdate twoShops
    = (twoShops, inl (Error "Job not found"))
  ∧ updateJob (platform := plain) 3 7 badAmount twoShops
    = (twoShops, inl DataException)
  ∧ updateJob (platform := plain) 3 7 noUpdates twoShops
    = (twoShops, inl (Error "No values to set"))
  ∧ updateExpense (platform := plain) 99 7 paidUpdate twoShops
    = (twoShops, inl (Error "Expense not found"))
  ∧ updateNote (platform := plain) 99 7 noteEdit twoShops
    = (twoShops, inl (Error "Note not found"))
  ∧ updateWorker (platform := plain) 99 7 (rename (Val "Ann")) twoShops
    = (twoShops, inl (Error "Worker not found"))
  ∧ updateWorker (platform := plain) 99 7 (rename (Val "Ravi")) twoShops
    = (twoShops, inl (Error "Worker name already exists"))
  ∧ updateInventory (platform := plain) 400 99 7 (moveItem (Val 1) Absent)
      twoShops
    = (twoShops, inl (Error "Inventory item not found"))
  ∧ deleteCustomer 99 7 twoShops = (twoShops, inr tt)
  ∧ deleteJob 3 7 twoShops = (twoShops, inr tt)
  ∧ deleteExpense 99 7 twoShops = (twoShops, inr tt)
  ∧ deleteNote 99 7 twoShops = (twoShops, inr tt)
  ∧ deleteWorker 99 7 twoShops = (twoShops, inr tt)
  ∧ deleteInventory 99 7 twoShops = (twoShops, inr tt)
  ∧ deleteTravelLog 99 7 twoShops = (twoShops, inr tt)
  ∧ deleteJobImage 99 7 twoShops = (twoShops, inr tt)
  ∧ deleteWorkerDocument 99 7 twoShops = (twoShops, inr tt)
  ∧ deleteCustomerImage 99 7 twoShops = (twoShops, inr tt)
  ∧ deleteCustomer 4294967296 7 twoShops = (twoShops, inl DataException).
Proof.
  assert (∀ {R} `{Row R} (t : Table R) id userId,
            Forall (λ r, ¬ (rowId r = id ∧ rowUser r = userId)) (rows t) →
            missing id userId t) as Hmissing.
  { intros R ? t id userId Hall r Hin. revert r Hin. by apply Forall_forall. }
  destruct (update_delete_missing_row (platform := plain) 99 7 twoShops)
    as (Hc & _ & He & Hn & Hw & Hi & Ht & Hji & Hwd & Hci).
  destruct (update_delete_missing_row (platform := plain) 3 7 twoShops)
    as (_ & Hj & _).
  destruct (update_delete_missing_row (platform := plain) 4294967296 7
              twoShops) as (Hbig & _).
  destruct Hc as [Uc Dc];
    [apply Hmissing; vm_compute; repeat constructor; by intros []|].
  destruct Hj as [Uj Dj];
    [apply Hmissing; vm_compute; repeat constructor; by intros []|].
  destruct He as [Ue De];
    [apply Hmissing; vm_compute; repeat constructor; by intros []|].
  destruct Hn as [Un Dn];
    [apply Hmissing; vm_compute; repeat constructor; by intros []|].
  destruct Hw as [Uw Dw];
    [apply Hmissing; vm_compute; repeat constructor; by intros []|].
  destruct Hi as [Ui Di];
    [apply Hmissing; vm_compute; repeat constructor; by intros []|].
  destruct Hbig as [_ Dbig];
    [apply Hmissing; vm_compute; repeat constructor; by intros []|].
  split_and!.
  - exact (Uc (aCustomer 99 "Carol")).
  - exact (Uj statusUpdate).
  - exact (Uj badAmount).
  - exact (Uj noUpdates).
  - exact (Ue paidUpdate).
  - exact (Un noteEdit).
  - exact (Uw (rename (Val "Ann"))).
  - exact (Uw (rename (Val "Ravi"))).
  - exact (Ui 400 (moveItem (Val 1) Absent)).
  - exact Dc.
  - exact Dj.
  - exact De.
  - exact Dn.
  - exact Dw.
  - exact Di.
  - apply Ht, Hmissing. vm_compute. repeat constructor; by intros [].
  - apply Hji, Hmissing. vm_compute. repeat constructor; by intros [].
  - apply Hwd, Hmissing. vm_compute. repeat constructor; by intros [].
  - apply Hci, Hmissing. vm_compute. repeat constructor; by intros [].
  - exact Dbig.
Defined.

(** Counterexample to C9 as the specification words it, for a
    delete: deleting a customer that does not exist resolves, nothing
    is reported. *)
Lemma update_delete_missing_row_counterexample :
  Forall (λ c, c_id c ≠ 99) (rows (customers twoShops))
  ∧ snd (deleteCustomer 99 7 twoShops) = inr tt
  ∧ ¬ rejected (snd (deleteCustomer 99 7 twoShops)).
Proof.
  split_and!.
  - vm_compute. repeat constructor; done.
  - by vm_compute.
  - intros [e He]. vm_compute in He. done.
Qed.

(** ** Job codes *)





Section job_codes.
Context {platform : Platform}.



End job_codes.




(** The code counts the owner's jobs, not the rows of the table, and
    takes ["X"] when [createJob] is given no category, whatever
    category the row then gets by default; an update object without
    values is refused. *)
Lemma createJob_examples :
  (j_jobId <$> owned 8
     (jobs (fst (createJob (platform := plain) newYear (aJob Absent Null) 8
                   twoShops))))
  = [None; None; Some "3I01012024"]
  ∧ ((λ j, (j_category j, j_jobId j)) <$> owned 7
       (jobs (fst (createJob (platform := plain) newYear plainJob 7
                     emptyStore))))
    = [("Interior painting", Some "1X01012024")]
  ∧ snd (updateJob (platform := plain) 1 7 noUpdates oneJob)
    = inl (Error "No values to set").
Proof. by vm_compute. Qed.

(** The earlier revision numbers the code by the primary key. *)
Lemma earlier_createJob_example :
  (j_jobId <$> owned 8
     (jobs (fst (Earlier.createJob (platform := plain) newYear
                   (aJob Absent Null) 8 twoShops))))
  = [None; None; Some "#5I01012024"].
Proof. by vm_compute. Qed.
